(** * Statistics and ranking handlers of isupipe (Go): a shallow embedding

    Sources embedded here:
    - [src/go/stats_handler.go]: [LivestreamRanking.Less], [UserRanking.Less],
      [getUserStatisticsHandler], [getLivestreamStatisticsHandler];
    - [src/go/reaction_handler.go]: the response assembly loop of
      [getReactionsHandler].

    Conventions.  A Go [int64] is a [Z]; the only arithmetic the handlers do on
    scores is [+=], written out with its wrap-around ([int64_add]).  A Go
    [string] is a [string] (a list of bytes), compared bytewise as Go does.  A
    Go [map[int64]int64] is a [gmap Z Z]; reading an absent key yields the zero
    value.  A slice is a [list]; [append] adds at the end, an indexed store
    outside the length panics.  The SQL text of every query is part of the
    source and is embedded as a function over the tables it reads. *)

From Stdlib Require Import ZArith String Ascii Lia.
From stdpp Require Import base decidable option list sorting gmap strings.

Local Open Scope Z_scope.

(** ** Machine integers *)

Definition int64_min : Z := - 2 ^ 63.
Definition int64_max : Z := 2 ^ 63 - 1.

Definition in_int64 (z : Z) : Prop := int64_min ≤ z ≤ int64_max.

Global Instance in_int64_dec (z : Z) : Decision (in_int64 z) :=
  and_dec (decide (int64_min ≤ z)) (decide (z ≤ int64_max)).

(** Two's complement wrap-around of a mathematical integer into [int64]. *)
Definition wrap64 (z : Z) : Z := (z + 2 ^ 63) `mod` 2 ^ 64 - 2 ^ 63.

(** Go's [a + b] on [int64]. *)
Definition int64_add (a b : Z) : Z := wrap64 (a + b).

(** ** Tie-break keys

    Both ranking types order their entries by [Score] and then by a key:
    [Username] (a string) or [LivestreamID] (an int64).  The class collects
    what the code uses of a key type: its zero value (what [make] fills a
    fresh slice with), [==] and [<]. *)

Class TieBreakKey (K : Type) := {
  key_zero : K;
  key_eqb : K → K → bool;
  key_ltb : K → K → bool;
}.

Class TieBreakKeyLaws (K : Type) `{TieBreakKey K} := {
  key_eqb_eq (a b : K) : key_eqb a b = true ↔ a = b;
  key_ltb_irrefl (a : K) : key_ltb a a = false;
  key_ltb_trans (a b c : K) :
    key_ltb a b = true → key_ltb b c = true → key_ltb a c = true;
  key_ltb_total (a b : K) : a = b ∨ key_ltb a b = true ∨ key_ltb b a = true;
}.

(** ** Ranking entries and the comparator *)

(** [UserRankingEntry{Username, Score}] and
    [LivestreamRankingEntry{LivestreamID, Score}]: a key and a score. *)
Record RankingEntry (K : Type) := mkEntry { Key : K; Score : Z }.
Arguments mkEntry {K} _ _.
Arguments Key {K} _.
Arguments Score {K} _.

(** One row of the reaction-count query and one of the tip-total query:
    [ReactionCount{UserID|LivestreamID, ReactionCount}] and
    [TotalTip{UserID|LivestreamID, TotalTip}] in both handlers. *)
Record ReactionCount := mkReactionCount { rc_ID : Z; rc_ReactionCount : Z }.
Record TotalTip := mkTotalTip { tt_ID : Z; tt_TotalTip : Z }.

(** The score map of a handler:
    [score := map[int64]int64{}
     for _, rc := range reactionCounts { score[rc.ID] = rc.ReactionCount }
     for _, tt := range totalTips { score[tt.ID] += tt.TotalTip }]. *)
Definition aggregate_scores
    (reactionCounts : list ReactionCount) (totalTips : list TotalTip) : gmap Z Z :=
  let score := foldl (λ m rc, <[rc_ID rc := rc_ReactionCount rc]> m) ∅ reactionCounts in
  foldl (λ m ttip, <[tt_ID ttip := int64_add (default 0 (m !! tt_ID ttip)) (tt_TotalTip ttip)]> m)
        score totalTips.

(** [score := scoreMap[id]]: a missing key reads as 0. *)
Definition score_of (scoreMap : gmap Z Z) (id : Z) : Z := default 0 (scoreMap !! id).

(** [if rc.ID == target { totalReactions = rc.ReactionCount }], run inside the
    first loop above; the variable starts at its zero value. *)
Definition target_reactions (target : Z) (reactionCounts : list ReactionCount) : Z :=
  foldl (λ total rc, if rc_ID rc =? target then rc_ReactionCount rc else total)
        0 reactionCounts.

(** [if tt.UserID == user.ID { userTotalTip = tt.TotalTip }], run inside the
    second loop of the user handler. *)
Definition target_tip (target : Z) (totalTips : list TotalTip) : Z :=
  foldl (λ total ttip, if tt_ID ttip =? target then tt_TotalTip ttip else total)
        0 totalTips.

Section Ranking.
Context {K : Type} `{TieBreakKey K}.

(** [func (r Ranking) Less(i, j int) bool], on the two entries [r[i]], [r[j]]. *)
Definition Less (ri rj : RankingEntry K) : bool :=
  if Score ri =? Score rj
  then key_ltb (Key ri) (Key rj)
  else Score ri <? Score rj.

(** "Not after": what [sort.Sort] guarantees between an earlier and a later
    element of its result. *)
Definition not_after (a b : RankingEntry K) : Prop := Less b a = false.

Global Instance not_after_dec a b : Decision (not_after a b) :=
  decide (Less b a = false).

(** [sort.Sort(ranking)].  The library routine is not stable and its
    algorithm is not part of this repository; its contract is
    [sort_Sort_contract].  The executable model is a merge sort on the same
    comparator; [sort_Sort_unique] shows that every routine meeting the
    contract returns this very list. *)
Definition sort_Sort (ranking : list (RankingEntry K)) : list (RankingEntry K) :=
  merge_sort not_after ranking.

Definition sort_Sort_contract (input output : list (RankingEntry K)) : Prop :=
  output ≡ₚ input ∧ Sorted not_after output.

(** The zero-valued entry that [make(Ranking, n)] fills the slice with. *)
Definition placeholder : RankingEntry K := mkEntry key_zero 0.

(** [ranking := make(Ranking, n)]. *)
Definition make_ranking (n : nat) : list (RankingEntry K) := replicate n placeholder.

(** The rank loop:
    [var rank int64 = 1
     for i := len(ranking) - 1; i >= 0; i-- {
       entry := ranking[i]; if entry.Key == target { break }; rank++ }].
    [scan_back] walks the entries in the order the loop visits them (last
    index first) and carries [rank], which never exceeds [len(ranking) + 1]
    and so stays far inside [int64]. *)
Fixpoint scan_back (visited : list (RankingEntry K)) (target : K) (rank : Z) : Z :=
  match visited with
  | [] => rank
  | entry :: rest =>
      if key_eqb (Key entry) target then rank
      else scan_back rest target (rank + 1)
  end.

Definition resolve_rank (ranking : list (RankingEntry K)) (target : K) : Z :=
  scan_back (reverse ranking) target 1.

(** The entries of [l] that [Less] places strictly after [e]. *)
Definition above (e : RankingEntry K) (l : list (RankingEntry K)) : list (RankingEntry K) :=
  filter (λ x, Less e x = true) l.

Section Population.
Context {M : Type} (entity_id : M → Z) (entity_key : M → K).

(** The entry appended for one entity. *)
Definition entry_of (scoreMap : gmap Z Z) (x : M) : RankingEntry K :=
  mkEntry (entity_key x) (score_of scoreMap (entity_id x)).

(** [ranking := make(Ranking, len(population))
     for _, x := range population {
       score := scoreMap[x.ID]
       ranking = append(ranking, Entry{Key: x.key, Score: score}) }]. *)
Definition build_ranking (population : list M) (scoreMap : gmap Z Z)
    : list (RankingEntry K) :=
  foldl (λ ranking x, ranking ++ [entry_of scoreMap x])
        (make_ranking (length population)) population.

(** The entries appended for the entities themselves. *)
Definition real_entries (population : list M) (scoreMap : gmap Z Z)
    : list (RankingEntry K) :=
  entry_of scoreMap <$> population.

(** Build, sort, scan: the rank the handler reports for [target]. *)
Definition compute_rank (population : list M) (scoreMap : gmap Z Z) (target : K) : Z :=
  resolve_rank (sort_Sort (build_ranking population scoreMap)) target.

(** The rank over the entities' own entries alone, without the entries
    [make] put in front: the reference the placeholder claims compare
    against. *)
Definition rank_among_real (population : list M) (scoreMap : gmap Z Z) (target : K) : Z :=
  resolve_rank (sort_Sort (real_entries population scoreMap)) target.

End Population.
End Ranking.

(** ** The two ranking domains *)

(** Usernames: Go compares strings bytewise, as [String.ltb] does. *)
Global Instance Username_key : TieBreakKey string :=
  {| key_zero := EmptyString; key_eqb := String.eqb; key_ltb := String.ltb |}.

(** Livestream ids: [int64]. *)
Global Instance LivestreamID_key : TieBreakKey Z :=
  {| key_zero := 0; key_eqb := Z.eqb; key_ltb := Z.ltb |}.

Definition UserRankingEntry := RankingEntry string.
Definition LivestreamRankingEntry := RankingEntry Z.

Definition UserRanking_Less : UserRankingEntry → UserRankingEntry → bool := Less.
Definition LivestreamRanking_Less
  : LivestreamRankingEntry → LivestreamRankingEntry → bool := Less.

(** ** Tables

    Modelled from the spec: the row types [UserModel], [LivestreamModel] and
    the rows of [livecomments], [livestream_viewers_history] and
    [livecomment_reports] are declared outside the files at hand; each keeps
    the columns the queries of the two handlers read. *)

Record UserModel := mkUser { um_ID : Z; um_Name : string }.
Record LivestreamModel := mkLivestream { lm_ID : Z; lm_UserID : Z }.
Record LivecommentModel := mkLivecomment
  { lc_ID : Z; lc_LivestreamID : Z; lc_Tip : Z }.
Record ViewersHistoryModel := mkViewersHistory
  { vh_ID : Z; vh_LivestreamID : Z }.
Record LivecommentReportModel := mkLivecommentReport
  { lr_ID : Z; lr_LivestreamID : Z }.

(** [type ReactionModel struct] of [reaction_handler.go]. *)
Record ReactionModel := mkReactionModel {
  rm_ID : Z;
  rm_EmojiName : string;
  rm_UserID : Z;
  rm_LivestreamID : Z;
  rm_CreatedAt : Z;
}.

(** The snapshot one transaction reads. *)
Record Database := mkDatabase {
  users : list UserModel;
  livestreams : list LivestreamModel;
  reactions : list ReactionModel;
  livecomments : list LivecommentModel;
  livestream_viewers_history : list ViewersHistoryModel;
  livecomment_reports : list LivecommentReportModel;
}.

(** ** Queries

    Joins are nested iterations with the [ON] condition as a filter;
    [GROUP BY k] yields one row per distinct [k]; [COUNT] is the number of
    joined rows of the group, [SUM] and [MAX] range over them.  Strings are
    compared bytewise, as Go does and as a binary collation does (the schema
    is not among the files at hand); the lookups by user name are given again
    for an arbitrary collation of the name column further down
    ([select_user_by_name_collated]).  A query the
    handler runs always answers: failures other than "no rows" belong to the
    data layer and are not modelled, and an aggregate is taken to fit the
    [int64] it is scanned into. *)

(** [GROUP BY id] with [COUNT(..)]. *)
Definition group_count (ids : list Z) : list ReactionCount :=
  (λ k, mkReactionCount k (Z.of_nat (length (filter (λ i, i = k) ids))))
    <$> remove_dups ids.

Definition sum_list_Z (zs : list Z) : Z := foldr Z.add 0 zs.

(** [GROUP BY id] with [IFNULL(SUM(tip), 0)]. *)
Definition group_sum (rows : list (Z * Z)) : list TotalTip :=
  (λ k, mkTotalTip k (sum_list_Z (snd <$> filter (λ r, r.1 = k) rows)))
    <$> remove_dups (fst <$> rows).

(** [SELECT * FROM users WHERE name = ?], fetched with [GetContext]:
    [None] is [sql.ErrNoRows].  The test is the bytewise one: what the column
    does under a binary collation, and under any collation when the requested
    string is the stored name of a user whose name the collation equates
    with no other stored name ([select_user_collated_exact]). *)
Definition select_user_by_name (db : Database) (username : string) : option UserModel :=
  find (λ u, String.eqb (um_Name u) username) (users db).

(** Modelled from the spec: [getLivestream] is defined outside the files at
    hand; it fetches the livestream row with the given id, [None] standing for
    [sql.ErrNoRows]. *)
Definition getLivestream (db : Database) (livestreamID : Z) : option LivestreamModel :=
  find (λ l, lm_ID l =? livestreamID) (livestreams db).

(** [FROM users u INNER JOIN livestreams l ON l.user_id = u.id]. *)
Definition livestreams_of (db : Database) (userID : Z) : list LivestreamModel :=
  filter (λ l, lm_UserID l = userID) (livestreams db).

(** [SELECT u.id AS user_id, COUNT(r.id) AS reaction_count
     FROM users u
     INNER JOIN livestreams l ON l.user_id = u.id
     INNER JOIN reactions r ON r.livestream_id = l.id
     GROUP BY u.id]. *)
Definition user_reaction_counts (db : Database) : list ReactionCount :=
  group_count
    (u ← users db;
     l ← livestreams_of db (um_ID u);
     r ← filter (λ r, rm_LivestreamID r = lm_ID l) (reactions db);
     [um_ID u]).

(** [SELECT u.id AS user_id, IFNULL(SUM(lc.tip), 0) AS total_tip
     FROM users u
     INNER JOIN livestreams ls ON ls.user_id = u.id
     INNER JOIN livecomments lc ON lc.livestream_id = ls.id
     GROUP BY u.id]. *)
Definition user_total_tips (db : Database) : list TotalTip :=
  group_sum
    (u ← users db;
     ls ← livestreams_of db (um_ID u);
     lc ← filter (λ lc, lc_LivestreamID lc = lm_ID ls) (livecomments db);
     [(um_ID u, lc_Tip lc)]).

(** [SELECT COUNT(lc.id) FROM livecomments lc
     INNER JOIN livestreams ls ON lc.livestream_id = ls.id
     WHERE ls.user_id = ?]. *)
Definition user_livecomments_count (db : Database) (userID : Z) : Z :=
  Z.of_nat (length
    (lc ← livecomments db;
     ls ← filter (λ ls, lc_LivestreamID lc = lm_ID ls) (livestreams db);
     if decide (lm_UserID ls = userID) then [lc_ID lc] else [])).

(** [SELECT COUNT(lvh.id) FROM livestream_viewers_history lvh
     INNER JOIN livestreams ls ON lvh.livestream_id = ls.id
     WHERE ls.user_id = ?]. *)
Definition user_viewers_count (db : Database) (userID : Z) : Z :=
  Z.of_nat (length
    (lvh ← livestream_viewers_history db;
     ls ← filter (λ ls, vh_LivestreamID lvh = lm_ID ls) (livestreams db);
     if decide (lm_UserID ls = userID) then [vh_ID lvh] else [])).

(** The rows the favourite-emoji query groups:
    [FROM users u
     INNER JOIN livestreams l ON l.user_id = u.id
     INNER JOIN reactions r ON r.livestream_id = l.id
     WHERE u.name = ?]. *)
Definition favorite_emoji_rows (db : Database) (username : string) : list string :=
  u ← users db;
  l ← livestreams_of db (um_ID u);
  r ← filter (λ r, rm_LivestreamID r = lm_ID l) (reactions db);
  if String.eqb (um_Name u) username then [rm_EmojiName r] else [].

(** [GROUP BY emoji_name], each group with its [COUNT( * )]. *)
Definition emoji_groups (names : list string) : list (string * nat) :=
  (λ e, (e, length (filter (λ n, n = e) names))) <$> remove_dups names.

(** [ORDER BY COUNT( * ) DESC, emoji_name DESC]: [a] is not placed after [b]. *)
Definition emoji_order (a b : string * nat) : Prop :=
  (b.2 < a.2)%nat ∨ (a.2 = b.2 ∧ String.ltb a.1 b.1 = false).

Global Instance emoji_order_dec a b : Decision (emoji_order a b) :=
  or_dec _ _.

(** [SELECT r.emoji_name ... GROUP BY emoji_name
     ORDER BY COUNT( * ) DESC, emoji_name DESC LIMIT 1]; [None] is
    [sql.ErrNoRows]. *)
Definition favorite_emoji_query (db : Database) (username : string) : option string :=
  fst <$> head (merge_sort emoji_order (emoji_groups (favorite_emoji_rows db username))).

(** [SELECT l.id AS livestream_id, COUNT(r.id) AS reaction_count
     FROM livestreams l
     INNER JOIN reactions r ON l.id = r.livestream_id
     GROUP BY l.id]. *)
Definition livestream_reaction_counts (db : Database) : list ReactionCount :=
  group_count
    (l ← livestreams db;
     r ← filter (λ r, lm_ID l = rm_LivestreamID r) (reactions db);
     [lm_ID l]).

(** [SELECT l.id AS livestream_id, IFNULL(SUM(l2.tip), 0) AS total_tip
     FROM livestreams l
     INNER JOIN livecomments l2 ON l.id = l2.livestream_id
     GROUP BY l.id]. *)
Definition livestream_total_tips (db : Database) : list TotalTip :=
  group_sum
    (l ← livestreams db;
     l2 ← filter (λ l2, lm_ID l = lc_LivestreamID l2) (livecomments db);
     [(lm_ID l, lc_Tip l2)]).

(** [SELECT COUNT(h.id) FROM livestreams l
     INNER JOIN livestream_viewers_history h ON h.livestream_id = l.id
     WHERE l.id = ?]. *)
Definition livestream_viewers_count (db : Database) (livestreamID : Z) : Z :=
  Z.of_nat (length
    (l ← filter (λ l, lm_ID l = livestreamID) (livestreams db);
     h ← filter (λ h, vh_LivestreamID h = lm_ID l) (livestream_viewers_history db);
     [vh_ID h])).

(** [MAX(tip)] over the joined rows; [None] is SQL's [NULL] on no rows. *)
Definition sql_max (zs : list Z) : option Z :=
  match zs with
  | [] => None
  | z :: zs' => Some (foldl Z.max z zs')
  end.

(** [SELECT IFNULL(MAX(tip), 0) FROM livestreams l
     INNER JOIN livecomments l2 ON l2.livestream_id = l.id
     WHERE l.id = ?]. *)
Definition livestream_max_tip (db : Database) (livestreamID : Z) : Z :=
  default 0 (sql_max
    (l ← filter (λ l, lm_ID l = livestreamID) (livestreams db);
     l2 ← filter (λ l2, lc_LivestreamID l2 = lm_ID l) (livecomments db);
     [lc_Tip l2])).

(** [SELECT COUNT(r.id) FROM livestreams l
     INNER JOIN livecomment_reports r ON r.livestream_id = l.id
     WHERE l.id = ?]. *)
Definition livestream_total_reports (db : Database) (livestreamID : Z) : Z :=
  Z.of_nat (length
    (l ← filter (λ l, lm_ID l = livestreamID) (livestreams db);
     r ← filter (λ r, lr_LivestreamID r = lm_ID l) (livecomment_reports db);
     [lr_ID r])).

(** ** Handlers

    What a handler answers: [c.JSON(status, body)] or
    [echo.NewHTTPError(status, message)].  The session check and the
    transaction bookkeeping around the queries are the request layer's and are
    left out: a handler is modelled from the parsed path parameter on. *)

Inductive Response (A : Type) :=
  | JSON (status : Z) (body : A)
  | HTTPError (status : Z) (message : string).
Arguments JSON {A} _ _.
Arguments HTTPError {A} _ _.

Definition StatusOK : Z := 200.
Definition StatusBadRequest : Z := 400.

Record UserStatistics := mkUserStatistics {
  us_Rank : Z;
  us_ViewersCount : Z;
  us_TotalReactions : Z;
  us_TotalLivecomments : Z;
  us_TotalTip : Z;
  us_FavoriteEmoji : string;
}.

Record LivestreamStatistics := mkLivestreamStatistics {
  ls_Rank : Z;
  ls_ViewersCount : Z;
  ls_TotalReactions : Z;
  ls_TotalReports : Z;
  ls_MaxTip : Z;
}.

(** The ranking slice of the user handler before [sort.Sort]. *)
Definition user_ranking (users : list UserModel)
    (reactionCounts : list ReactionCount) (totalTips : list TotalTip)
    : list UserRankingEntry :=
  build_ranking um_ID um_Name users (aggregate_scores reactionCounts totalTips).

(** The ranking slice of the livestream handler before [sort.Sort]. *)
Definition livestream_ranking (livestreams : list LivestreamModel)
    (reactionCounts : list ReactionCount) (totalTips : list TotalTip)
    : list LivestreamRankingEntry :=
  build_ranking lm_ID lm_ID livestreams (aggregate_scores reactionCounts totalTips).

(** [getUserStatisticsHandler] once every query has answered: [sorted] is
    the ranking after [sort.Sort]. *)
Definition assembleUserStatistics (db : Database) (username : string) (user : UserModel)
    (reactionCounts : list ReactionCount) (totalTips : list TotalTip)
    (sorted : list UserRankingEntry) : UserStatistics :=
  {| us_Rank := resolve_rank sorted username;
     us_ViewersCount := user_viewers_count db (um_ID user);
     us_TotalReactions := target_reactions (um_ID user) reactionCounts;
     us_TotalLivecomments := user_livecomments_count db (um_ID user);
     us_TotalTip := target_tip (um_ID user) totalTips;
     us_FavoriteEmoji := default EmptyString (favorite_emoji_query db username) |}.

Definition getUserStatisticsHandler (db : Database) (username : string)
    : Response UserStatistics :=
  match select_user_by_name db username with
  | None => HTTPError StatusBadRequest "not found user that has the given username"
  | Some user =>
      let reactionCounts := user_reaction_counts db in
      let totalTips := user_total_tips db in
      let ranking := sort_Sort (user_ranking (users db) reactionCounts totalTips) in
      JSON StatusOK (assembleUserStatistics db username user reactionCounts totalTips ranking)
  end.

(** [getLivestreamStatisticsHandler] once every query has answered. *)
Definition assembleLivestreamStatistics (db : Database) (livestreamID : Z)
    (reactionCounts : list ReactionCount)
    (sorted : list LivestreamRankingEntry) : LivestreamStatistics :=
  {| ls_Rank := resolve_rank sorted livestreamID;
     ls_ViewersCount := livestream_viewers_count db livestreamID;
     ls_TotalReactions := target_reactions livestreamID reactionCounts;
     ls_TotalReports := livestream_total_reports db livestreamID;
     ls_MaxTip := livestream_max_tip db livestreamID |}.

Definition getLivestreamStatisticsHandler (db : Database) (livestreamID : Z)
    : Response LivestreamStatistics :=
  match getLivestream db livestreamID with
  | None => HTTPError StatusBadRequest "cannot get stats of not found livestream"
  | Some _ =>
      let reactionCounts := livestream_reaction_counts db in
      let totalTips := livestream_total_tips db in
      let ranking :=
        sort_Sort (livestream_ranking (livestreams db) reactionCounts totalTips) in
      JSON StatusOK (assembleLivestreamStatistics db livestreamID reactionCounts ranking)
  end.

(** A run of the user handler on a snapshot, with what the code leaves to
    its libraries made explicit: a [SELECT] without [ORDER BY] may return its
    rows in any order (so [GetContext] may hand back any row with the
    requested name), and [sort.Sort] may return any arrangement meeting its
    contract. *)
Inductive getUserStatistics_run (db : Database) (username : string)
    : Response UserStatistics → Prop :=
  | user_run_not_found :
      username ∉ um_Name <$> users db →
      getUserStatistics_run db username
        (HTTPError StatusBadRequest "not found user that has the given username")
  | user_run_ok user users' reactionCounts totalTips sorted :
      user ∈ users db → um_Name user = username →
      users' ≡ₚ users db →
      reactionCounts ≡ₚ user_reaction_counts db →
      totalTips ≡ₚ user_total_tips db →
      sort_Sort_contract (user_ranking users' reactionCounts totalTips) sorted →
      getUserStatistics_run db username
        (JSON StatusOK
           (assembleUserStatistics db username user reactionCounts totalTips sorted)).

Inductive getLivestreamStatistics_run (db : Database) (livestreamID : Z)
    : Response LivestreamStatistics → Prop :=
  | livestream_run_not_found :
      livestreamID ∉ lm_ID <$> livestreams db →
      getLivestreamStatistics_run db livestreamID
        (HTTPError StatusBadRequest "cannot get stats of not found livestream")
  | livestream_run_ok livestreams' reactionCounts totalTips sorted :
      livestreamID ∈ lm_ID <$> livestreams db →
      livestreams' ≡ₚ livestreams db →
      reactionCounts ≡ₚ livestream_reaction_counts db →
      totalTips ≡ₚ livestream_total_tips db →
      sort_Sort_contract (livestream_ranking livestreams' reactionCounts totalTips) sorted →
      getLivestreamStatistics_run db livestreamID
        (JSON StatusOK
           (assembleLivestreamStatistics db livestreamID reactionCounts sorted)).

(** ** The collation of the name column

    [WHERE name = ?] and [WHERE u.name = ?] are evaluated by the database,
    under the collation of [users.name]: two strings that differ as byte
    sequences may be equal there (letter case, trailing blanks).  The table
    definitions are not among the files at hand, so the column's test is a
    parameter, [name_eq stored requested].  The rank loop is Go:
    [entry.Username == username] compares bytewise whatever the column does.
    The definitions below are the user handler with the two tests kept
    apart; at [String.eqb] they are the definitions above. *)

(** [SELECT * FROM users WHERE name = ?] under the column's test.  When
    several rows match, [GetContext] keeps the first row the server sends;
    the first match in table order stands for it. *)
Definition select_user_by_name_collated (name_eq : string → string → bool)
    (db : Database) (username : string) : option UserModel :=
  find (λ u, name_eq (um_Name u) username) (users db).

(** The rows of the favourite-emoji query, [WHERE u.name = ?] under the
    column's test. *)
Definition favorite_emoji_rows_collated (name_eq : string → string → bool)
    (db : Database) (username : string) : list string :=
  u ← users db;
  l ← livestreams_of db (um_ID u);
  r ← filter (λ r, rm_LivestreamID r = lm_ID l) (reactions db);
  if name_eq (um_Name u) username then [rm_EmojiName r] else [].

Definition favorite_emoji_query_collated (name_eq : string → string → bool)
    (db : Database) (username : string) : option string :=
  fst <$> head (merge_sort emoji_order
                  (emoji_groups (favorite_emoji_rows_collated name_eq db username))).

(** [getUserStatisticsHandler]: the user row and the favourite emoji come
    from the database under [name_eq]; the rank loop scans for the request
    string itself. *)
Definition getUserStatisticsHandler_collated (name_eq : string → string → bool)
    (db : Database) (username : string) : Response UserStatistics :=
  match select_user_by_name_collated name_eq db username with
  | None => HTTPError StatusBadRequest "not found user that has the given username"
  | Some user =>
      let reactionCounts := user_reaction_counts db in
      let totalTips := user_total_tips db in
      let ranking := sort_Sort (user_ranking (users db) reactionCounts totalTips) in
      JSON StatusOK
        {| us_Rank := resolve_rank ranking username;
           us_ViewersCount := user_viewers_count db (um_ID user);
           us_TotalReactions := target_reactions (um_ID user) reactionCounts;
           us_TotalLivecomments := user_livecomments_count db (um_ID user);
           us_TotalTip := target_tip (um_ID user) totalTips;
           us_FavoriteEmoji :=
             default EmptyString (favorite_emoji_query_collated name_eq db username) |}
  end.

(** A collation that is not bytewise, for the examples: ASCII letters are
    compared without regard to case. *)
Definition ascii_lower (c : ascii) : ascii :=
  let n := nat_of_ascii c in
  if (Nat.leb 65 n && Nat.leb n 90)%bool then ascii_of_nat (n + 32) else c.

Fixpoint string_lower (s : string) : string :=
  match s with
  | EmptyString => EmptyString
  | String c s' => String (ascii_lower c) (string_lower s')
  end.

Definition name_eq_nocase (stored requested : string) : bool :=
  String.eqb (string_lower stored) (string_lower requested).

(** ** Reference notions the statements compare the code against *)

(** A fact mapping read at an id, 0 when the id has no row. *)
Definition EventCount (reactionCounts : list ReactionCount) (id : Z) : Z :=
  default 0 (rc_ReactionCount <$> find (λ rc, rc_ID rc =? id) reactionCounts).

Definition MonetarySum (totalTips : list TotalTip) (id : Z) : Z :=
  default 0 (tt_TotalTip <$> find (λ ttip, tt_ID ttip =? id) totalTips).

(** The reactions on the livestreams of one user. *)
Definition reactions_on_livestreams_of (db : Database) (userID : Z) : list ReactionModel :=
  filter (λ r, Exists (λ l, lm_ID l = rm_LivestreamID r ∧ lm_UserID l = userID)
                      (livestreams db))
         (reactions db).

(** The tips of the comments on one livestream. *)
Definition tips_on (db : Database) (livestreamID : Z) : list Z :=
  lc_Tip <$> filter (λ c, lc_LivestreamID c = livestreamID) (livecomments db).

(** The spam reports against one livestream. *)
Definition reports_on (db : Database) (livestreamID : Z) : list LivecommentReportModel :=
  filter (λ r, lr_LivestreamID r = livestreamID) (livecomment_reports db).

(** A user none of whose livestreams has a reaction, a comment or a viewer. *)
Definition user_has_no_activity (db : Database) (userID : Z) : Prop :=
  ∀ l, l ∈ livestreams db → lm_UserID l = userID →
       (∀ r, r ∈ reactions db → rm_LivestreamID r ≠ lm_ID l)
       ∧ (∀ c, c ∈ livecomments db → lc_LivestreamID c ≠ lm_ID l)
       ∧ (∀ h, h ∈ livestream_viewers_history db → vh_LivestreamID h ≠ lm_ID l).

(** A livestream without reaction, comment, viewer or report. *)
Definition livestream_has_no_activity (db : Database) (livestreamID : Z) : Prop :=
  (∀ r, r ∈ reactions db → rm_LivestreamID r ≠ livestreamID)
  ∧ (∀ c, c ∈ livecomments db → lc_LivestreamID c ≠ livestreamID)
  ∧ (∀ h, h ∈ livestream_viewers_history db → vh_LivestreamID h ≠ livestreamID)
  ∧ (∀ r, r ∈ livecomment_reports db → lr_LivestreamID r ≠ livestreamID).

(** How often a name occurs in a list of names. *)
Definition occurrences (e : string) (names : list string) : nat :=
  length (filter (λ n, n = e) names).

(** ** Response assembly of [getReactionsHandler] *)

(** A Go statement sequence either runs to its end or panics; the run-time
    panic of an indexed store carries the index and the length. *)
Inductive Outcome (A : Type) :=
  | Done (result : A)
  | PanicIndexOutOfRange (index len : nat).
Arguments Done {A} _.
Arguments PanicIndexOutOfRange {A} _ _.

(** [s[i] = v]: within the length the element is replaced, otherwise the
    run-time panics. *)
Definition slice_store {A : Type} (s : list A) (i : nat) (v : A) : Outcome (list A) :=
  if decide (i < length s)%nat then Done (<[i := v]> s)
  else PanicIndexOutOfRange i (length s).

(** [type ReactionWithDetails struct], local to the handler; a [[]byte]
    column that may be [nil] is an [option]. *)
Record ReactionWithDetails := mkReactionWithDetails {
  rd_ID : Z;
  rd_EmojiName : string;
  rd_CreatedAt : Z;
  rd_UserID : Z;
  rd_UserName : string;
  rd_UserDisplayName : string;
  rd_UserDescription : string;
  rd_UserThemeID : Z;
  rd_UserDarkMode : bool;
  rd_UserIconImage : option (list Byte.byte);
  rd_LivestreamID : Z;
  rd_LivestreamOwnerID : Z;
  rd_LivestreamOwnerName : string;
  rd_LivestreamOwnerDisplayName : string;
  rd_LivestreamOwnerDescription : string;
  rd_LivestreamOwnerThemeID : Z;
  rd_LivestreamOwnerDarkMode : bool;
  rd_LivestreamOwnerIconImage : option (list Byte.byte);
  rd_LivestreamTitle : string;
  rd_LivestreamDescription : string;
  rd_LivestreamPlaylistURL : string;
  rd_LivestreamThumbnailURL : string;
  rd_LivestreamStartAt : Z;
  rd_LivestreamEndAt : Z;
}.

(** Modelled from the spec: the response types [Theme], [User] and
    [Livestream] are declared outside the files at hand; each keeps the fields
    the composite literal of the handler sets. *)
Record Theme := mkTheme { th_ID : Z; th_DarkMode : bool }.

Record User := mkUserResponse {
  u_ID : Z;
  u_Name : string;
  u_DisplayName : string;
  u_Description : string;
  u_Theme : Theme;
  u_IconHash : string;
}.

Record Livestream (Tag : Type) := mkLivestreamResponse {
  l_ID : Z;
  l_Owner : User;
  l_Title : string;
  l_Description : string;
  l_PlaylistUrl : string;
  l_ThumbnailUrl : string;
  l_StartAt : Z;
  l_EndAt : Z;
  l_Tags : list Tag;
}.
Arguments mkLivestreamResponse {Tag} _ _ _ _ _ _ _ _ _.

(** [type Reaction struct] of [reaction_handler.go]. *)
Record Reaction (Tag : Type) := mkReaction {
  r_ID : Z;
  r_EmojiName : string;
  r_User : User;
  r_Livestream : Livestream Tag;
  r_CreatedAt : Z;
}.
Arguments mkReaction {Tag} _ _ _ _ _.

Section GetReactions.
(** [Tag] is declared outside the files at hand and is only passed through;
    [sha256_hex] stands for [fmt.Sprintf("%x", sha256.Sum256(..))]. *)
Context {Tag : Type} (sha256_hex : list Byte.byte → string).

(** The composite literal stored at [reactionsResponse[i]]. *)
Definition reaction_literal (fallbackImageHash : string) (tags : list Tag)
    (row : ReactionWithDetails) : Reaction Tag :=
  let userIconHash :=
    match rd_UserIconImage row with
    | Some image => sha256_hex image
    | None => fallbackImageHash
    end in
  let livestreamOwnerIconHash :=
    match rd_LivestreamOwnerIconImage row with
    | Some image => sha256_hex image
    | None => fallbackImageHash
    end in
  mkReaction (rd_ID row) (rd_EmojiName row)
    (mkUserResponse (rd_UserID row) (rd_UserName row) (rd_UserDisplayName row)
       (rd_UserDescription row)
       (mkTheme (rd_UserThemeID row) (rd_UserDarkMode row)) userIconHash)
    (mkLivestreamResponse (rd_LivestreamID row)
       (mkUserResponse (rd_LivestreamOwnerID row) (rd_LivestreamOwnerName row)
          (rd_LivestreamOwnerDisplayName row) (rd_LivestreamOwnerDescription row)
          (mkTheme (rd_LivestreamOwnerThemeID row) (rd_LivestreamOwnerDarkMode row))
          livestreamOwnerIconHash)
       (rd_LivestreamTitle row) (rd_LivestreamDescription row)
       (rd_LivestreamPlaylistURL row) (rd_LivestreamThumbnailURL row)
       (rd_LivestreamStartAt row) (rd_LivestreamEndAt row) tags)
    (rd_CreatedAt row).

(** [for i := range reactions { ...; reactionsResponse[i] = Reaction{...} }],
    from index [i] on, [rows] being [reactions[i:]]. *)
Fixpoint assemble_from (fallbackImageHash : string) (tags : list Tag)
    (i : nat) (rows : list ReactionWithDetails) (reactionsResponse : list (Reaction Tag))
    : Outcome (list (Reaction Tag)) :=
  match rows with
  | [] => Done reactionsResponse
  | row :: rows' =>
      match slice_store reactionsResponse i (reaction_literal fallbackImageHash tags row) with
      | Done reactionsResponse' =>
          assemble_from fallbackImageHash tags (S i) rows' reactionsResponse'
      | PanicIndexOutOfRange index len => PanicIndexOutOfRange index len
      end
  end.

(** [reactionsResponse := []Reaction{}] followed by the loop. *)
Definition getReactionsHandler_assemble (fallbackImageHash : string) (tags : list Tag)
    (reactions : list ReactionWithDetails) : Outcome (list (Reaction Tag)) :=
  assemble_from fallbackImageHash tags 0 reactions [].

End GetReactions.

(** ** The other methods of [sort.Interface] *)

Section SortInterface.
Context {K : Type}.

(** [func (r Ranking) Len() int { return len(r) }]. *)
Definition Len (r : list (RankingEntry K)) : Z := Z.of_nat (length r).

(** [r[i]] for a Go [int] index: [None] is the run-time panic of an index
    that is negative or not below the length. *)
Definition slice_index (r : list (RankingEntry K)) (i : Z) : option (RankingEntry K) :=
  if decide (0 ≤ i) then r !! Z.to_nat i else None.

(** [func (r Ranking) Swap(i, j int) { r[i], r[j] = r[j], r[i] }]: both
    right-hand sides are read, then both elements are stored; [None] is the
    run-time panic of an index out of range. *)
Definition Swap (r : list (RankingEntry K)) (i j : Z) : option (list (RankingEntry K)) :=
  match slice_index r j, slice_index r i with
  | Some rj, Some ri => Some (<[Z.to_nat j := ri]> (<[Z.to_nat i := rj]> r))
  | _, _ => None
  end.

End SortInterface.

(** ** The write of [postReactionHandler]

    [INSERT INTO reactions (user_id, livestream_id, emoji_name, created_at)
     VALUES (:user_id, :livestream_id, :emoji_name, :created_at)] followed by
    [reactionModel.ID = reactionID]: the table gains the row, whose id is the
    one the database hands back from [LastInsertId]. *)
Definition insert_reaction (db : Database) (reactionModel : ReactionModel)
    (reactionID : Z) : Database :=
  {| users := users db;
     livestreams := livestreams db;
     reactions :=
       reactions db
       ++ [mkReactionModel reactionID (rm_EmojiName reactionModel)
             (rm_UserID reactionModel) (rm_LivestreamID reactionModel)
             (rm_CreatedAt reactionModel)];
     livecomments := livecomments db;
     livestream_viewers_history := livestream_viewers_history db;
     livecomment_reports := livecomment_reports db |}.

(** ** Further reference notions *)

(** Whether a livestream id belongs to a livestream of the user. *)
Definition owned_by (db : Database) (userID : Z) (livestreamID : Z) : Prop :=
  Exists (λ l, lm_ID l = livestreamID ∧ lm_UserID l = userID) (livestreams db).

Global Instance owned_by_dec db userID livestreamID :
  Decision (owned_by db userID livestreamID) :=
  Exists_dec _ _.

(** The comments on the livestreams of one user. *)
Definition livecomments_on_livestreams_of (db : Database) (userID : Z)
    : list LivecommentModel :=
  filter (λ c, owned_by db userID (lc_LivestreamID c)) (livecomments db).

(** The viewer records of the livestreams of one user. *)
Definition viewers_on_livestreams_of (db : Database) (userID : Z)
    : list ViewersHistoryModel :=
  filter (λ h, owned_by db userID (vh_LivestreamID h)) (livestream_viewers_history db).

(** The reactions on one livestream. *)
Definition reactions_on (db : Database) (livestreamID : Z) : list ReactionModel :=
  filter (λ r, rm_LivestreamID r = livestreamID) (reactions db).

(** The viewer records of one livestream. *)
Definition viewers_on (db : Database) (livestreamID : Z) : list ViewersHistoryModel :=
  filter (λ h, vh_LivestreamID h = livestreamID) (livestream_viewers_history db).

(** ** Concrete snapshots used by the examples and counterexamples *)

(** One user "a" whose single livestream received one comment with tip -5. *)
Definition db_negative_tip : Database :=
  {| users := [mkUser 1 "a"];
     livestreams := [mkLivestream 10 1];
     reactions := [];
     livecomments := [mkLivecomment 100 10 (-5)];
     livestream_viewers_history := [];
     livecomment_reports := [] |}.

(** Livestreams 0 and 1, with one comment each, of tips -5 and -3. *)
Definition db_zero_id : Database :=
  {| users := [mkUser 1 "a"];
     livestreams := [mkLivestream 0 1; mkLivestream 1 1];
     reactions := [];
     livecomments := [mkLivecomment 100 0 (-5); mkLivecomment 101 1 (-3)];
     livestream_viewers_history := [];
     livecomment_reports := [] |}.

(** Users "" and "a", whose livestreams received tips of -5 and -3. *)
Definition db_empty_name : Database :=
  {| users := [mkUser 1 EmptyString; mkUser 2 "a"];
     livestreams := [mkLivestream 10 1; mkLivestream 20 2];
     reactions := [];
     livecomments := [mkLivecomment 100 10 (-5); mkLivecomment 101 20 (-3)];
     livestream_viewers_history := [];
     livecomment_reports := [] |}.

(** Three users without any activity. *)
Definition db_three_way_tie : Database :=
  {| users := [mkUser 1 "a"; mkUser 2 "b"; mkUser 3 "c"];
     livestreams := [];
     reactions := [];
     livecomments := [];
     livestream_viewers_history := [];
     livecomment_reports := [] |}.

(** The population of the ranking example: A and B score 10, C scores 5. *)
Definition example_users : list UserModel :=
  [mkUser 1 "A"; mkUser 2 "B"; mkUser 3 "C"].

Definition example_reactionCounts : list ReactionCount :=
  [mkReactionCount 1 4; mkReactionCount 2 10; mkReactionCount 3 2].

Definition example_totalTips : list TotalTip :=
  [mkTotalTip 1 6; mkTotalTip 3 3].

(** A snapshot with an active user "ann" and an idle user "bob". *)
Definition db_idle_user : Database :=
  {| users := [mkUser 1 "ann"; mkUser 2 "bob"];
     livestreams := [mkLivestream 10 1; mkLivestream 20 2];
     reactions := [mkReactionModel 1 "fire" 2 10 1000];
     livecomments := [mkLivecomment 100 10 30];
     livestream_viewers_history := [mkViewersHistory 1 10];
     livecomment_reports := [] |}.

(** The tie of the example: "fire" and "heart" three times each, "clap" once,
    all on the one livestream of "ann". *)
Definition db_fire_heart : Database :=
  {| users := [mkUser 1 "ann"; mkUser 2 "bob"];
     livestreams := [mkLivestream 10 1];
     reactions :=
       [mkReactionModel 1 "fire" 2 10 1000; mkReactionModel 2 "heart" 2 10 1001;
        mkReactionModel 3 "fire" 2 10 1002; mkReactionModel 4 "clap" 2 10 1003;
        mkReactionModel 5 "heart" 1 10 1004; mkReactionModel 6 "heart" 2 10 1005;
        mkReactionModel 7 "fire" 1 10 1006];
     livecomments := [];
     livestream_viewers_history := [];
     livecomment_reports := [] |}.

(** Livestream 1 with comments of tips 100, 50 and 0 (and two reports);
    livestream 2 with a single comment of tip 120. *)
Definition db_tips : Database :=
  {| users := [mkUser 1 "ann"];
     livestreams := [mkLivestream 1 1; mkLivestream 2 1];
     reactions := [];
     livecomments :=
       [mkLivecomment 100 1 100; mkLivecomment 101 2 120;
        mkLivecomment 102 1 50; mkLivecomment 103 1 0];
     livestream_viewers_history := [];
     livecomment_reports := [mkLivecommentReport 7 1; mkLivecommentReport 8 1] |}.

(** * Properties *)

(** Closed decidable facts (distinct keys of a concrete population, order of
    a concrete slice) are settled by evaluating their decision procedure. *)
Ltac decide_closed :=
  match goal with |- ?P => apply (bool_decide_unpack P) end; vm_compute; exact I.

(** ** Machine integers *)

Lemma wrap64_id z : in_int64 z → wrap64 z = z.
Proof.
  unfold in_int64, int64_min, int64_max, wrap64. intros Hz.
  rewrite Z.mod_small; lia.
Qed.

Lemma in_int64_0 : in_int64 0.
Proof. unfold in_int64, int64_min, int64_max. lia. Qed.

(** ** The key orders are strict total orders *)

Lemma ascii_compare_refl (a : ascii) : Ascii.compare a a = Eq.
Proof. unfold Ascii.compare. apply N.compare_refl. Qed.

Lemma ascii_compare_lt_trans (a b c : ascii) :
  Ascii.compare a b = Lt → Ascii.compare b c = Lt → Ascii.compare a c = Lt.
Proof.
  unfold Ascii.compare. rewrite !N.compare_lt_iff. apply N.lt_trans.
Qed.

Lemma string_compare_refl (s : string) : String.compare s s = Eq.
Proof.
  induction s as [|a s IH]; simpl; [done|].
  by rewrite ascii_compare_refl.
Qed.

Lemma string_compare_lt_trans (s1 s2 s3 : string) :
  String.compare s1 s2 = Lt → String.compare s2 s3 = Lt → String.compare s1 s3 = Lt.
Proof.
  revert s2 s3. induction s1 as [|a s1 IH]; intros [|b s2] [|c s3]; simpl; try done.
  destruct (Ascii.compare a b) eqn:Hab; try done.
  - apply Ascii.compare_eq_iff in Hab as ->.
    destruct (Ascii.compare b c) eqn:Hbc; try done. apply IH.
  - destruct (Ascii.compare b c) eqn:Hbc; try done.
    + apply Ascii.compare_eq_iff in Hbc as ->. by rewrite Hab.
    + by rewrite (ascii_compare_lt_trans a b c).
Qed.

Global Instance Username_key_laws : TieBreakKeyLaws string.
Proof.
  split; simpl.
  - apply String.eqb_eq.
  - intros a. unfold String.ltb. by rewrite string_compare_refl.
  - intros a b c. unfold String.ltb.
    destruct (String.compare a b) eqn:Hab; try done.
    destruct (String.compare b c) eqn:Hbc; try done.
    by rewrite (string_compare_lt_trans a b c).
  - intros a b. unfold String.ltb.
    rewrite (String.compare_antisym b a).
    destruct (String.compare a b) eqn:Hab; simpl; auto.
    left. by apply String.compare_eq_iff.
Qed.

Global Instance LivestreamID_key_laws : TieBreakKeyLaws Z.
Proof.
  split; simpl.
  - apply Z.eqb_eq.
  - apply Z.ltb_irrefl.
  - intros a b c. rewrite !Z.ltb_lt. lia.
  - intros a b. rewrite !Z.ltb_lt. lia.
Qed.

(** The zero value of a string is below or equal to every string. *)
Lemma string_ltb_empty_r (s : string) : String.ltb s EmptyString = false.
Proof. by destruct s. Qed.

Lemma string_ltb_empty_l (s : string) : s ≠ EmptyString → String.ltb EmptyString s = true.
Proof. by destruct s. Qed.

(** ** The comparator is a strict total order on entries *)

Section RankingTheory.
Context {K : Type} `{TieBreakKeyLaws K}.

Global Instance key_eq_dec : EqDecision K.
Proof.
  intros a b. destruct (key_eqb a b) eqn:E.
  - left. by apply key_eqb_eq.
  - right. intros Hab. apply key_eqb_eq in Hab. congruence.
Defined.

Lemma key_eqb_neq (a b : K) : key_eqb a b = false ↔ a ≠ b.
Proof.
  rewrite <-key_eqb_eq. destruct (key_eqb a b); naive_solver.
Qed.

Lemma Less_irrefl (a : RankingEntry K) : Less a a = false.
Proof. unfold Less. rewrite Z.eqb_refl. apply key_ltb_irrefl. Qed.

Lemma Less_trans (a b c : RankingEntry K) :
  Less a b = true → Less b c = true → Less a c = true.
Proof.
  unfold Less.
  destruct (Z.eqb_spec (Score a) (Score b)) as [Eab|Nab],
           (Z.eqb_spec (Score b) (Score c)) as [Ebc|Nbc],
           (Z.eqb_spec (Score a) (Score c)) as [Eac|Nac];
    rewrite ?Z.ltb_lt; try lia; try congruence.
  apply key_ltb_trans.
Qed.

Lemma Less_total (a b : RankingEntry K) :
  a = b ∨ Less a b = true ∨ Less b a = true.
Proof.
  unfold Less. destruct a as [ka sa], b as [kb sb]; simpl.
  destruct (Z.eqb_spec sa sb) as [->|Hne].
  - rewrite Z.eqb_refl. destruct (key_ltb_total ka kb) as [->|[?|?]]; auto.
  - destruct (Z.eqb_spec sb sa) as [?|_]; [congruence|].
    rewrite !Z.ltb_lt. lia.
Qed.

Lemma Less_asym (a b : RankingEntry K) : Less a b = true → Less b a = false.
Proof.
  intros Hab. destruct (Less b a) eqn:Hba; [|done].
  pose proof (Less_trans a b a Hab Hba) as Haa.
  rewrite Less_irrefl in Haa. done.
Qed.

Lemma Less_score_le (a b : RankingEntry K) : Less a b = true → Score a ≤ Score b.
Proof.
  unfold Less. destruct (Z.eqb_spec (Score a) (Score b)); rewrite ?Z.ltb_lt; lia.
Qed.

Lemma Less_of_score_lt (a b : RankingEntry K) : Score a < Score b → Less a b = true.
Proof.
  intros Hlt. unfold Less. destruct (Z.eqb_spec (Score a) (Score b)); [lia|].
  by apply Z.ltb_lt.
Qed.

Lemma Less_same_score (a b : RankingEntry K) :
  Score a = Score b → Less a b = key_ltb (Key a) (Key b).
Proof. intros E. unfold Less. rewrite E, Z.eqb_refl. done. Qed.

Global Instance not_after_trans : Transitive (@not_after K _).
Proof.
  intros a b c Hab Hbc. unfold not_after in *.
  destruct (Less c a) eqn:Hca; [|done].
  destruct (Less_total a b) as [->|[Lab|Lba]]; [congruence| |congruence].
  pose proof (Less_trans c a b Hca Lab). congruence.
Qed.

Global Instance not_after_total : Total (@not_after K _).
Proof.
  intros a b. unfold not_after.
  destruct (Less b a) eqn:Hba; [|by left].
  right. by apply Less_asym.
Qed.

Global Instance not_after_antisym : AntiSymm (=) (@not_after K _).
Proof.
  intros a b Hab Hba. unfold not_after in *.
  destruct (Less_total a b) as [?|[?|?]]; [done|congruence..].
Qed.

Lemma not_after_neq_Less (a b : RankingEntry K) :
  not_after a b → a ≠ b → Less a b = true.
Proof.
  unfold not_after. intros Hba Hne.
  destruct (Less_total a b) as [?|[?|?]]; [done|done|congruence].
Qed.

(** ** [sort.Sort]: the model meets the contract, and the contract leaves no
    choice *)

Lemma sort_Sort_meets_contract (l : list (RankingEntry K)) :
  sort_Sort_contract l (sort_Sort l).
Proof.
  split.
  - apply merge_sort_Permutation.
  - apply Sorted_merge_sort, _.
Qed.

Lemma sort_Sort_unique (l l' : list (RankingEntry K)) :
  sort_Sort_contract l l' → l' = sort_Sort l.
Proof.
  intros [Hperm Hsorted].
  apply (Sorted_unique not_after); [done| |].
  - apply Sorted_merge_sort, _.
  - rewrite Hperm. symmetry. apply merge_sort_Permutation.
Qed.

Lemma sort_Sort_Permutation (l : list (RankingEntry K)) : sort_Sort l ≡ₚ l.
Proof. apply merge_sort_Permutation. Qed.

Lemma sort_Sort_perm_eq (l l' : list (RankingEntry K)) :
  l ≡ₚ l' → sort_Sort l = sort_Sort l'.
Proof.
  intros Hperm. symmetry. apply sort_Sort_unique. split.
  - rewrite Hperm. apply merge_sort_Permutation.
  - apply Sorted_merge_sort, _.
Qed.

Lemma sort_Sort_StronglySorted (l : list (RankingEntry K)) :
  StronglySorted not_after (sort_Sort l).
Proof. apply Sorted_StronglySorted; [apply _|]. apply Sorted_merge_sort, _. Qed.

Lemma sort_Sort_length (l : list (RankingEntry K)) : length (sort_Sort l) = length l.
Proof. apply Permutation_length, sort_Sort_Permutation. Qed.

(** ** The backward scan *)

Lemma scan_back_hit (e : RankingEntry K) rest t k :
  Key e = t → scan_back (e :: rest) t k = k.
Proof.
  intros <-. simpl. by rewrite (proj2 (key_eqb_eq _ _) eq_refl).
Qed.

Lemma scan_back_skip (l1 l2 : list (RankingEntry K)) t k :
  Forall (λ e, Key e ≠ t) l1 →
  scan_back (l1 ++ l2) t k = scan_back l2 t (k + Z.of_nat (length l1)).
Proof.
  intros Hl1. revert k. induction Hl1 as [|e l1 He _ IH]; intros k; simpl.
  - f_equal. lia.
  - rewrite (proj2 (key_eqb_neq _ _) He), IH. f_equal. lia.
Qed.

Lemma resolve_rank_split (s1 s2 : list (RankingEntry K)) e t :
  Key e = t → Forall (λ x, Key x ≠ t) s2 →
  resolve_rank (s1 ++ e :: s2) t = 1 + Z.of_nat (length s2).
Proof.
  intros He Hs2. unfold resolve_rank.
  rewrite reverse_app, reverse_cons, <-app_assoc. simpl.
  rewrite scan_back_skip by by apply Forall_reverse.
  rewrite length_reverse. by apply scan_back_hit.
Qed.

Lemma resolve_rank_missing (s : list (RankingEntry K)) t :
  Forall (λ x, Key x ≠ t) s → resolve_rank s t = 1 + Z.of_nat (length s).
Proof.
  intros Hs. unfold resolve_rank.
  rewrite <-(app_nil_r (reverse s)).
  rewrite scan_back_skip by by apply Forall_reverse.
  by rewrite length_reverse.
Qed.

(** Every key that occurs has a last occurrence. *)
Lemma last_occurrence (s : list (RankingEntry K)) t :
  t ∈ Key <$> s →
  ∃ s1 e s2, s = s1 ++ e :: s2 ∧ Key e = t ∧ Forall (λ x, Key x ≠ t) s2.
Proof.
  induction s as [|a s IH]; simpl; intros Hin.
  - by apply elem_of_nil in Hin.
  - destruct (decide (t ∈ Key <$> s)) as [Hs|Hs].
    + destruct (IH Hs) as (s1 & e & s2 & -> & He & Hs2).
      by exists (a :: s1), e, s2.
    + apply elem_of_cons in Hin as [Ha|?]; [|done].
      exists [], a, s. split_and!; [done|done|].
      apply Forall_forall. intros x Hx Hk. apply Hs.
      apply list_elem_of_fmap. by exists x.
Qed.

(** The rank is always between 1 and one more than the slice length. *)
Lemma resolve_rank_bounds (s : list (RankingEntry K)) t :
  1 ≤ resolve_rank s t ≤ 1 + Z.of_nat (length s).
Proof.
  destruct (decide (t ∈ Key <$> s)) as [Hin|Hin].
  - destruct (last_occurrence s t Hin) as (s1 & e & s2 & -> & He & Hs2).
    rewrite resolve_rank_split by done. rewrite length_app. simpl. lia.
  - rewrite resolve_rank_missing; [lia|].
    apply Forall_forall. intros x Hx Hk. apply Hin.
    apply list_elem_of_fmap. by exists x.
Qed.

End RankingTheory.

(** ** Ranks as counts

    In a sorted slice the entries visited before the target is found are
    exactly the entries the comparator puts after it. *)

Section RankCounting.
Context {K : Type} `{TieBreakKeyLaws K}.

Lemma above_perm (e : RankingEntry K) l l' :
  l ≡ₚ l' → length (above e l) = length (above e l').
Proof. intros Hp. unfold above. by rewrite Hp. Qed.

Lemma above_app (e : RankingEntry K) l1 l2 :
  above e (l1 ++ l2) = above e l1 ++ above e l2.
Proof. apply filter_app. Qed.

Lemma above_none (e : RankingEntry K) l :
  Forall (λ x, Less e x = false) l → above e l = [].
Proof.
  intros Hl. unfold above. induction Hl as [|x l Hx _ IH]; [done|].
  rewrite filter_cons_False by congruence. done.
Qed.

Lemma above_all (e : RankingEntry K) l :
  Forall (λ x, Less e x = true) l → above e l = l.
Proof.
  intros Hl. unfold above. induction Hl as [|x l Hx _ IH]; [done|].
  rewrite filter_cons_True by done. by rewrite IH.
Qed.

Lemma above_replicate (e p : RankingEntry K) n :
  length (above e (replicate n p)) = if Less e p then n else 0%nat.
Proof.
  destruct (Less e p) eqn:E.
  - rewrite above_all; [apply length_replicate|].
    apply Forall_replicate. done.
  - rewrite above_none; [done|]. by apply Forall_replicate.
Qed.

Lemma length_filter_split {A} (P Q : A → Prop)
    `{∀ x, Decision (P x)} `{∀ x, Decision (Q x)} (l : list A) :
  (∀ x, Q x → P x) →
  length (filter P l)
  = (length (filter Q l) + length (filter (λ x, P x ∧ ¬ Q x) l))%nat.
Proof.
  intros HQP. induction l as [|a l IH]; [done|].
  rewrite !filter_cons.
  destruct (decide (Q a)) as [HQ|HQ].
  - rewrite decide_True by auto. rewrite decide_False by tauto.
    simpl. lia.
  - destruct (decide (P a)) as [HP|HP].
    + rewrite decide_True by tauto. simpl. lia.
    + rewrite decide_False by tauto. done.
Qed.

(** Strict inclusion of what is above: a later entry has fewer entries above. *)
Lemma above_lt (a b : RankingEntry K) l :
  Less a b = true → b ∈ l → (length (above b l) < length (above a l))%nat.
Proof.
  intros Hab Hb. unfold above.
  rewrite (length_filter_split (λ x, Less a x = true) (λ x, Less b x = true)).
  2:{ intros x Hbx. by apply (Less_trans a b x). }
  assert (b ∈ filter (λ x, Less a x = true ∧ ¬ Less b x = true) l) as Hin.
  { apply list_elem_of_filter. split; [|done]. split; [done|].
    rewrite Less_irrefl. done. }
  destruct (filter (λ x, Less a x = true ∧ ¬ Less b x = true) l);
    [by apply elem_of_nil in Hin|simpl; lia].
Qed.

(** In a sorted slice, what follows the last occurrence of a key is what is
    above that occurrence. *)
Lemma sorted_tail_above (s1 s2 : list (RankingEntry K)) e :
  StronglySorted not_after (s1 ++ e :: s2) →
  Forall (λ x, Key x ≠ Key e) s2 →
  above e (s1 ++ e :: s2) = s2.
Proof.
  intros Hs Hs2.
  apply StronglySorted_app in Hs as (H12 & _ & Hes2).
  apply StronglySorted_cons in Hes2 as [Hes2 _].
  rewrite above_app. unfold above at 2. rewrite filter_cons_False.
  2:{ rewrite Less_irrefl. done. }
  fold (above e s2).
  rewrite above_none, above_all; [done| |].
  - rewrite Forall_forall in Hes2, Hs2. apply Forall_forall. intros x Hx.
    apply not_after_neq_Less; [by apply Hes2|].
    intros ->. by apply (Hs2 _ Hx).
  - apply Forall_forall. intros x Hx. apply H12; [done|left].
Qed.

(** The entry at which the scan over a sorted slice stops: the greatest
    entry carrying the target key. *)
Lemma scan_stops_at_top (l : list (RankingEntry K)) t :
  t ∈ Key <$> l →
  ∃ top, top ∈ l ∧ Key top = t ∧
         (∀ x, x ∈ l → Key x = t → not_after x top) ∧
         resolve_rank (sort_Sort l) t = 1 + Z.of_nat (length (above top l)).
Proof.
  intros Hin.
  assert (t ∈ Key <$> sort_Sort l) as Hin'.
  { by rewrite sort_Sort_Permutation. }
  destruct (last_occurrence _ _ Hin') as (s1 & e & s2 & Hs & He & Hs2).
  pose proof (sort_Sort_StronglySorted l) as Hsorted. rewrite Hs in Hsorted.
  exists e. split_and!.
  - rewrite <-(sort_Sort_Permutation l), Hs. apply elem_of_app. right. left.
  - done.
  - intros x Hx Hk. rewrite <-(sort_Sort_Permutation l), Hs in Hx.
    apply elem_of_app in Hx as [Hx|Hx].
    + apply StronglySorted_app in Hsorted as (H12 & _ & _).
      apply H12; [done|left].
    + apply elem_of_cons in Hx as [->|Hx].
      * unfold not_after. apply Less_irrefl.
      * rewrite Forall_forall in Hs2. by destruct (Hs2 _ Hx).
  - rewrite Hs, resolve_rank_split by done.
    rewrite (above_perm e l (s1 ++ e :: s2)).
    2:{ rewrite <-Hs. symmetry. apply sort_Sort_Permutation. }
    rewrite sorted_tail_above; [done|done|].
    by rewrite He.
Qed.

(** When the greatest entry with the target key is known, so is the rank. *)
Lemma resolve_rank_count (l : list (RankingEntry K)) (top : RankingEntry K) :
  top ∈ l →
  (∀ x, x ∈ l → Key x = Key top → not_after x top) →
  resolve_rank (sort_Sort l) (Key top) = 1 + Z.of_nat (length (above top l)).
Proof.
  intros Hin Hmax.
  destruct (scan_stops_at_top l (Key top)) as (e & He & Hk & Hemax & ->).
  { apply list_elem_of_fmap. by exists top. }
  assert (e = top) as ->; [|done].
  apply (anti_symm not_after); [by apply Hmax|by apply Hemax].
Qed.

(** Two different keys that both occur never get the same rank. *)
Lemma resolve_rank_injective (s : list (RankingEntry K)) a b :
  a ∈ Key <$> s → b ∈ Key <$> s → a ≠ b → resolve_rank s a ≠ resolve_rank s b.
Proof.
  intros Ha Hb Hne Heq.
  destruct (last_occurrence _ _ Ha) as (s1 & e & s2 & Hs & He & Hs2).
  destruct (last_occurrence _ _ Hb) as (s1' & e' & s2' & Hs' & He' & Hs2').
  rewrite Hs in Heq at 1. rewrite Hs' in Heq.
  rewrite !resolve_rank_split in Heq by done.
  assert (length s2 = length s2') as Hlen by lia.
  rewrite Hs in Hs'.
  apply app_inj_2 in Hs' as [_ Hs']; [|simpl; lia].
  congruence.
Qed.

End RankCounting.

(** ** The ranking of a population *)

Section PopulationTheory.
Context {K : Type} `{TieBreakKeyLaws K}.
Context {M : Type} (entity_id : M → Z) (entity_key : M → K).

Local Abbreviation entry_of := (entry_of entity_id entity_key).
Local Abbreviation build_ranking := (build_ranking entity_id entity_key).
Local Abbreviation real_entries := (real_entries entity_id entity_key).
Local Abbreviation compute_rank := (compute_rank entity_id entity_key).
Local Abbreviation rank_among_real := (rank_among_real entity_id entity_key).

(** [append] after [make(.., n)] leaves the [n] zero entries in front. *)
Lemma build_ranking_eq (population : list M) (sm : gmap Z Z) :
  build_ranking population sm
  = make_ranking (length population) ++ real_entries population sm.
Proof.
  unfold build_ranking, real_entries.
  generalize (make_ranking (K:=K) (length population)).
  induction population as [|x population IH]; intros init; simpl.
  - by rewrite app_nil_r.
  - rewrite IH, <-app_assoc. done.
Qed.

Lemma build_ranking_length (population : list M) (sm : gmap Z Z) :
  length (build_ranking population sm) = (2 * length population)%nat.
Proof.
  rewrite build_ranking_eq, length_app. unfold make_ranking, real_entries.
  rewrite length_replicate, length_fmap. lia.
Qed.

Lemma real_entries_keys (population : list M) (sm : gmap Z Z) :
  Key <$> real_entries population sm = entity_key <$> population.
Proof.
  unfold real_entries. rewrite <-list_fmap_compose. done.
Qed.

Lemma entry_of_elem (population : list M) (sm : gmap Z Z) x :
  x ∈ population → entry_of sm x ∈ real_entries population sm.
Proof. intros Hx. apply list_elem_of_fmap. by exists x. Qed.

Lemma NoDup_fmap_elem_inj {A B} (f : A → B) (l : list A) x y :
  NoDup (f <$> l) → x ∈ l → y ∈ l → f x = f y → x = y.
Proof.
  induction l as [|a l IH]; simpl; intros Hnd Hx Hy Hf.
  - by apply elem_of_nil in Hx.
  - apply NoDup_cons in Hnd as [Ha Hnd].
    apply elem_of_cons in Hx as [->|Hx], Hy as [->|Hy]; [done| | |by apply IH].
    + destruct Ha. rewrite Hf. apply list_elem_of_fmap. by exists y.
    + destruct Ha. rewrite <-Hf. apply list_elem_of_fmap. by exists x.
Qed.

(** With distinct keys, the only real entry carrying the key of [x] is the
    entry of [x]. *)
Lemma real_entry_unique (population : list M) (sm : gmap Z Z) x e :
  NoDup (entity_key <$> population) → x ∈ population →
  e ∈ real_entries population sm → Key e = entity_key x → e = entry_of sm x.
Proof.
  intros Hnd Hx He Hk. apply list_elem_of_fmap in He as (y & -> & Hy).
  simpl in Hk. by rewrite (NoDup_fmap_elem_inj entity_key population y x).
Qed.

Lemma rank_among_real_count (population : list M) (sm : gmap Z Z) x :
  NoDup (entity_key <$> population) → x ∈ population →
  rank_among_real population sm (entity_key x)
  = 1 + Z.of_nat (length (above (entry_of sm x) (real_entries population sm))).
Proof.
  intros Hnd Hx. unfold rank_among_real.
  apply (resolve_rank_count (real_entries population sm) (entry_of sm x)).
  - by apply entry_of_elem.
  - intros e He Hk. rewrite (real_entry_unique population sm x e) by done.
    unfold not_after. apply Less_irrefl.
Qed.

(** The rank the handler computes, whenever the zero entries cannot be
    mistaken for the target: the rank among the real entries, plus all the
    zero entries if they sort after the target. *)
Lemma compute_rank_count (population : list M) (sm : gmap Z Z) x :
  NoDup (entity_key <$> population) → x ∈ population →
  entity_key x ≠ key_zero ∨ Less (entry_of sm x) placeholder = false →
  compute_rank population sm (entity_key x)
  = rank_among_real population sm (entity_key x)
    + (if Less (entry_of sm x) placeholder then Z.of_nat (length population) else 0).
Proof.
  intros Hnd Hx Hshadow. rewrite rank_among_real_count by done.
  unfold compute_rank.
  rewrite (resolve_rank_count (build_ranking population sm) (entry_of sm x)).
  - rewrite build_ranking_eq, above_app, length_app.
    unfold make_ranking. rewrite above_replicate.
    destruct (Less (entry_of sm x) placeholder); lia.
  - rewrite build_ranking_eq. apply elem_of_app. right. by apply entry_of_elem.
  - intros e He Hk. rewrite build_ranking_eq in He.
    apply elem_of_app in He as [He|He].
    + apply elem_of_replicate in He as [-> _].
      destruct Hshadow as [Hne|Hle]; [|done].
      simpl in Hk. congruence.
    + rewrite (real_entry_unique population sm x e) by done.
      unfold not_after. apply Less_irrefl.
Qed.

(** An entity whose entry is not below the zero entry gets the rank it has
    among the real entries. *)
Lemma compute_rank_eq_among_real (population : list M) (sm : gmap Z Z) x :
  NoDup (entity_key <$> population) → x ∈ population →
  Less (entry_of sm x) placeholder = false →
  compute_rank population sm (entity_key x)
  = rank_among_real population sm (entity_key x).
Proof.
  intros Hnd Hx Hle. rewrite compute_rank_count by auto.
  rewrite Hle. lia.
Qed.

Lemma rank_among_real_range (population : list M) (sm : gmap Z Z) t :
  t ∈ entity_key <$> population →
  1 ≤ rank_among_real population sm t ≤ Z.of_nat (length population).
Proof.
  intros Ht. unfold rank_among_real.
  assert (t ∈ Key <$> sort_Sort (real_entries population sm)) as Hin.
  { by rewrite sort_Sort_Permutation, real_entries_keys. }
  destruct (last_occurrence _ _ Hin) as (s1 & e & s2 & Hs & He & Hs2).
  rewrite Hs, resolve_rank_split by done.
  assert (length (s1 ++ e :: s2) = length population) as Hlen.
  { rewrite <-Hs, sort_Sort_length. unfold real_entries. apply length_fmap. }
  rewrite length_app in Hlen. simpl in Hlen. lia.
Qed.

(** *** Ranks over a slice with distinct keys enumerate [n, n-1, .., 1] *)

Lemma resolve_rank_cons_other (a : RankingEntry K) s t :
  t ∈ Key <$> s → resolve_rank (a :: s) t = resolve_rank s t.
Proof.
  intros Hin. destruct (last_occurrence _ _ Hin) as (s1 & e & s2 & -> & He & Hs2).
  rewrite (resolve_rank_split s1 s2 e t) by done.
  by rewrite (resolve_rank_split (a :: s1) s2 e t).
Qed.

Lemma resolve_rank_enumerates (s : list (RankingEntry K)) :
  NoDup (Key <$> s) →
  (λ e, resolve_rank s (Key e)) <$> s
  = Z.of_nat <$> reverse (seq 1 (length s)).
Proof.
  induction s as [|a s IH]; [done|]. intros Hnd.
  rewrite fmap_cons in Hnd. apply NoDup_cons in Hnd as [Ha Hnd].
  rewrite fmap_cons. change (length (a :: s)) with (S (length s)).
  rewrite seq_S, reverse_app, reverse_singleton, fmap_app.
  change (Z.of_nat <$> [(1 + length s)%nat]) with [Z.of_nat (1 + length s)].
  change ([Z.of_nat (1 + length s)] ++ (Z.of_nat <$> reverse (seq 1 (length s))))
    with (Z.of_nat (1 + length s) :: (Z.of_nat <$> reverse (seq 1 (length s)))).
  f_equal.
  - rewrite (resolve_rank_split [] s a (Key a)); [lia|done|].
    apply Forall_forall. intros x Hx Hk. apply Ha.
    apply list_elem_of_fmap. by exists x.
  - rewrite <-IH by done. apply list_fmap_ext. intros i x Hx.
    apply resolve_rank_cons_other. apply list_elem_of_fmap. exists x.
    split; [done|]. by apply list_elem_of_lookup_2 in Hx.
Qed.

(** Over the real entries alone, the ranks of a population with distinct
    keys are a rearrangement of [1..n]. *)
Lemma rank_among_real_permutation (population : list M) (sm : gmap Z Z) :
  NoDup (entity_key <$> population) →
  (λ x, rank_among_real population sm (entity_key x)) <$> population
  ≡ₚ Z.of_nat <$> seq 1 (length population).
Proof.
  intros Hnd.
  transitivity ((λ e, rank_among_real population sm (Key e))
                  <$> real_entries population sm).
  { unfold real_entries. rewrite <-list_fmap_compose. done. }
  transitivity ((λ e, rank_among_real population sm (Key e))
                  <$> sort_Sort (real_entries population sm)).
  { by rewrite sort_Sort_Permutation. }
  unfold rank_among_real. rewrite resolve_rank_enumerates.
  - rewrite sort_Sort_length. unfold real_entries. rewrite length_fmap.
    by rewrite reverse_Permutation.
  - rewrite sort_Sort_Permutation, real_entries_keys. done.
Qed.

(** *** Order of ranks *)

Lemma build_ranking_real_elem (population : list M) (sm : gmap Z Z) x :
  x ∈ population → entry_of sm x ∈ build_ranking population sm.
Proof.
  intros Hx. rewrite build_ranking_eq. apply elem_of_app. right.
  by apply entry_of_elem.
Qed.

Lemma build_ranking_keys (population : list M) (sm : gmap Z Z) x :
  x ∈ population → entity_key x ∈ Key <$> build_ranking population sm.
Proof.
  intros Hx. apply list_elem_of_fmap. exists (entry_of sm x).
  split; [done|]. by apply build_ranking_real_elem.
Qed.

(** If the comparator puts [b] before [a], and no zero entry can be
    mistaken for [b], then [a] gets the smaller rank. *)
Lemma compute_rank_Less (population : list M) (sm : gmap Z Z) a b :
  NoDup (entity_key <$> population) → a ∈ population → b ∈ population →
  Less (entry_of sm b) (entry_of sm a) = true →
  entity_key b ≠ key_zero ∨ Less (entry_of sm b) placeholder = false →
  compute_rank population sm (entity_key a) < compute_rank population sm (entity_key b).
Proof.
  intros Hnd Ha Hb Hba Hshadow.
  assert (compute_rank population sm (entity_key b)
          = 1 + Z.of_nat (length (above (entry_of sm b) (build_ranking population sm))))
    as ->.
  { unfold compute_rank.
    apply (resolve_rank_count (build_ranking population sm) (entry_of sm b)).
    - by apply build_ranking_real_elem.
    - intros e He Hk. rewrite build_ranking_eq in He.
      apply elem_of_app in He as [He|He].
      + apply elem_of_replicate in He as [-> _].
        destruct Hshadow as [Hne|Hle]; [|done]. simpl in Hk. congruence.
      + rewrite (real_entry_unique population sm b e) by done.
        unfold not_after. apply Less_irrefl. }
  unfold compute_rank.
  destruct (scan_stops_at_top (build_ranking population sm) (entity_key a))
    as (top & Htop & Hk & Hmax & ->).
  { by apply build_ranking_keys. }
  assert (Less (entry_of sm b) top = true) as Hbtop.
  { pose proof (Hmax (entry_of sm a) (build_ranking_real_elem _ sm a Ha) eq_refl) as Hle.
    destruct (Less_total (entry_of sm a) top) as [<-|[Hlt|Hgt]]; [done| |].
    - by apply (Less_trans _ (entry_of sm a)).
    - unfold not_after in Hle. congruence. }
  pose proof (above_lt _ _ (build_ranking population sm) Hbtop Htop). lia.
Qed.

(** Two entities with different keys never get the same rank, whatever the
    scores. *)
Lemma compute_rank_distinct (population : list M) (sm : gmap Z Z) a b :
  a ∈ population → b ∈ population → entity_key a ≠ entity_key b →
  compute_rank population sm (entity_key a) ≠ compute_rank population sm (entity_key b).
Proof.
  intros Ha Hb Hne. unfold compute_rank. apply resolve_rank_injective; [| |done].
  - rewrite sort_Sort_Permutation. by apply build_ranking_keys.
  - rewrite sort_Sort_Permutation. by apply build_ranking_keys.
Qed.

(** Among the real entries: when nothing lies strictly between [a] and [b],
    [a] gets the rank right after that of [b]. *)
Lemma rank_among_real_next (population : list M) (sm : gmap Z Z) a b :
  NoDup (entity_key <$> population) → a ∈ population → b ∈ population →
  Less (entry_of sm a) (entry_of sm b) = true →
  (∀ z, z ∈ population →
        ¬ (Less (entry_of sm a) (entry_of sm z) = true
           ∧ Less (entry_of sm z) (entry_of sm b) = true)) →
  rank_among_real population sm (entity_key a)
  = rank_among_real population sm (entity_key b) + 1.
Proof.
  intros Hnd Ha Hb Hab Hbetween.
  rewrite !rank_among_real_count by done.
  unfold above.
  rewrite (length_filter_split (λ x, Less (entry_of sm a) x = true)
                               (λ x, Less (entry_of sm b) x = true)).
  2:{ intros x Hbx. by apply (Less_trans _ (entry_of sm b)). }
  set (F := filter (λ x, Less (entry_of sm a) x = true ∧ ¬ Less (entry_of sm b) x = true)
                   (real_entries population sm)).
  assert (length F = 1%nat) as ->; [|lia].
  assert (NoDup F) as HndF.
  { apply NoDup_filter. apply (NoDup_fmap_1 Key).
    by rewrite real_entries_keys. }
  assert (entry_of sm b ∈ F) as HbF.
  { apply list_elem_of_filter. split; [|by apply entry_of_elem].
    split; [done|]. by rewrite Less_irrefl. }
  assert (∀ e, e ∈ F → e = entry_of sm b) as Hall.
  { intros e He. apply list_elem_of_filter in He as [[Hae Hnbe] He].
    apply list_elem_of_fmap in He as (z & -> & Hz).
    destruct (Less_total (entry_of sm z) (entry_of sm b)) as [?|[Hzb|Hbz]];
      [done| |done].
    destruct (Hbetween z Hz). done. }
  destruct F as [|x [|y F]]; [by apply elem_of_nil in HbF|done|].
  apply NoDup_cons in HndF as [Hx _]. destruct Hx.
  rewrite (Hall x), (Hall y); [left|right; left|left].
Qed.

(** *** When every real entry sorts strictly after the zero entry *)

Lemma sort_Sort_placeholders_first (population : list M) (sm : gmap Z Z) :
  Forall (λ e, Less placeholder e = true) (real_entries population sm) →
  sort_Sort (build_ranking population sm)
  = make_ranking (length population) ++ sort_Sort (real_entries population sm).
Proof.
  intros Hreal. symmetry. apply sort_Sort_unique. split.
  - rewrite build_ranking_eq. by rewrite sort_Sort_Permutation.
  - apply StronglySorted_Sorted, StronglySorted_app_2.
    + intros x1 x2 Hx1 Hx2. apply elem_of_replicate in Hx1 as [-> _].
      rewrite sort_Sort_Permutation in Hx2.
      rewrite Forall_forall in Hreal. unfold not_after.
      by apply Less_asym, Hreal.
    + unfold make_ranking. induction (length population) as [|n IH]; simpl.
      * constructor.
      * constructor; [done|]. apply Forall_replicate.
        unfold not_after. apply Less_irrefl.
    + apply sort_Sort_StronglySorted.
Qed.

Lemma compute_rank_placeholders_first (population : list M) (sm : gmap Z Z) t :
  Forall (λ e, Less placeholder e = true) (real_entries population sm) →
  t ∈ entity_key <$> population →
  compute_rank population sm t = rank_among_real population sm t.
Proof.
  intros Hreal Ht. unfold compute_rank, rank_among_real.
  rewrite sort_Sort_placeholders_first by done.
  assert (t ∈ Key <$> sort_Sort (real_entries population sm)) as Hin.
  { by rewrite sort_Sort_Permutation, real_entries_keys. }
  destruct (last_occurrence _ _ Hin) as (s1 & e & s2 & -> & He & Hs2).
  rewrite app_assoc. by rewrite !resolve_rank_split.
Qed.

End PopulationTheory.

(** ** Score aggregation *)

Section FactRows.
Context {A : Type} (row_id : A → Z).

Lemma find_row_None (rows : list A) id :
  id ∉ row_id <$> rows → find (λ r, row_id r =? id) rows = None.
Proof.
  induction rows as [|r rows IH]; simpl; [done|]. intros Hnot.
  apply not_elem_of_cons in Hnot as [Hne Hnot].
  destruct (Z.eqb_spec (row_id r) id); [congruence|]. by apply IH.
Qed.

Lemma find_row_Some (rows : list A) r :
  NoDup (row_id <$> rows) → r ∈ rows →
  find (λ r', row_id r' =? row_id r) rows = Some r.
Proof.
  induction rows as [|r0 rows IH]; simpl; intros Hnd Hr.
  - by apply elem_of_nil in Hr.
  - apply NoDup_cons in Hnd as [Hr0 Hnd].
    destruct (Z.eqb_spec (row_id r0) (row_id r)) as [Heq|Hne].
    + apply elem_of_cons in Hr as [->|Hr]; [done|].
      destruct Hr0. rewrite Heq. apply list_elem_of_fmap. by exists r.
    + apply elem_of_cons in Hr as [->|Hr]; [done|]. by apply IH.
Qed.

Lemma find_row_elem (rows : list A) id r :
  find (λ r', row_id r' =? id) rows = Some r → r ∈ rows ∧ row_id r = id.
Proof.
  induction rows as [|r0 rows IH]; simpl; [done|].
  destruct (Z.eqb_spec (row_id r0) id) as [Heq|Hne].
  - intros [= ->]. split; [left|done].
  - intros Hf. destruct (IH Hf). split; [by right|done].
Qed.

(** With one row per id, the row found for an id does not depend on the
    order of the rows. *)
Lemma find_row_perm (rows rows' : list A) id :
  NoDup (row_id <$> rows) → rows ≡ₚ rows' →
  find (λ r, row_id r =? id) rows = find (λ r, row_id r =? id) rows'.
Proof.
  intros Hnd Hperm.
  destruct (find (λ r, row_id r =? id) rows) as [r|] eqn:Hf.
  - apply find_row_elem in Hf as [Hr <-]. symmetry. apply find_row_Some.
    + by rewrite <-Hperm.
    + by rewrite <-Hperm.
  - symmetry. apply find_row_None. rewrite <-Hperm.
    intros Hin. apply list_elem_of_fmap in Hin as (r & -> & Hr).
    by rewrite find_row_Some in Hf.
Qed.

(** A loop that keeps the value of the row matching [target]. *)
Lemma foldl_keep_match (value : A → Z) (rows : list A) target init :
  NoDup (row_id <$> rows) →
  foldl (λ total r, if row_id r =? target then value r else total) init rows
  = default init (value <$> find (λ r, row_id r =? target) rows).
Proof.
  revert init. induction rows as [|r rows IH]; intros init Hnd; simpl; [done|].
  apply NoDup_cons in Hnd as [Hr Hnd]. rewrite IH by done.
  destruct (Z.eqb_spec (row_id r) target) as [Heq|Hne]; [|done].
  rewrite find_row_None; [done|]. by rewrite <-Heq.
Qed.

End FactRows.

Lemma assign_loop_lookup (reactionCounts : list ReactionCount) (m : gmap Z Z) id :
  NoDup (rc_ID <$> reactionCounts) →
  foldl (λ m rc, <[rc_ID rc := rc_ReactionCount rc]> m) m reactionCounts !! id
  = match find (λ rc, rc_ID rc =? id) reactionCounts with
    | Some rc => Some (rc_ReactionCount rc)
    | None => m !! id
    end.
Proof.
  revert m. induction reactionCounts as [|rc rcs IH]; intros m Hnd; simpl; [done|].
  apply NoDup_cons in Hnd as [Hrc Hnd]. rewrite IH by done.
  destruct (Z.eqb_spec (rc_ID rc) id) as [Heq|Hne].
  - rewrite find_row_None by by rewrite <-Heq.
    rewrite Heq. apply lookup_insert_eq.
  - destruct (find _ rcs); [done|]. by apply lookup_insert_ne.
Qed.

Lemma add_loop_lookup (totalTips : list TotalTip) (m : gmap Z Z) id :
  NoDup (tt_ID <$> totalTips) →
  foldl (λ m ttip, <[tt_ID ttip := int64_add (default 0 (m !! tt_ID ttip)) (tt_TotalTip ttip)]> m)
        m totalTips !! id
  = match find (λ ttip, tt_ID ttip =? id) totalTips with
    | Some ttip => Some (int64_add (default 0 (m !! id)) (tt_TotalTip ttip))
    | None => m !! id
    end.
Proof.
  revert m. induction totalTips as [|ttip tts IH]; intros m Hnd; simpl; [done|].
  apply NoDup_cons in Hnd as [Httip Hnd]. rewrite IH by done.
  destruct (Z.eqb_spec (tt_ID ttip) id) as [Heq|Hne].
  - rewrite find_row_None by by rewrite <-Heq.
    rewrite Heq. apply lookup_insert_eq.
  - destruct (find _ tts); [|by apply lookup_insert_ne].
    by rewrite lookup_insert_ne.
Qed.

(** The score a handler reads for an id, in terms of the two fact mappings. *)
Lemma score_of_aggregate (reactionCounts : list ReactionCount)
    (totalTips : list TotalTip) id :
  NoDup (rc_ID <$> reactionCounts) → NoDup (tt_ID <$> totalTips) →
  score_of (aggregate_scores reactionCounts totalTips) id
  = match find (λ ttip, tt_ID ttip =? id) totalTips with
    | Some ttip => int64_add (EventCount reactionCounts id) (tt_TotalTip ttip)
    | None => EventCount reactionCounts id
    end.
Proof.
  intros Hrc Htt. unfold score_of, aggregate_scores, EventCount.
  rewrite add_loop_lookup, assign_loop_lookup by done.
  rewrite lookup_empty.
  destruct (find _ totalTips), (find _ reactionCounts); done.
Qed.

Lemma EventCount_in_int64 (reactionCounts : list ReactionCount) id :
  Forall (λ rc, in_int64 (rc_ReactionCount rc)) reactionCounts →
  in_int64 (EventCount reactionCounts id).
Proof.
  intros Hall. unfold EventCount.
  destruct (find _ reactionCounts) as [rc|] eqn:Hf; simpl; [|apply in_int64_0].
  apply find_row_elem in Hf as [Hrc _]. rewrite Forall_forall in Hall. by apply Hall.
Qed.

Lemma score_of_aggregate_add (reactionCounts : list ReactionCount)
    (totalTips : list TotalTip) id :
  NoDup (rc_ID <$> reactionCounts) → NoDup (tt_ID <$> totalTips) →
  Forall (λ rc, in_int64 (rc_ReactionCount rc)) reactionCounts →
  score_of (aggregate_scores reactionCounts totalTips) id
  = int64_add (EventCount reactionCounts id) (MonetarySum totalTips id).
Proof.
  intros Hrc Htt Hin. rewrite score_of_aggregate by done. unfold MonetarySum.
  destruct (find _ totalTips); simpl; [done|].
  unfold int64_add. rewrite Z.add_0_r, wrap64_id; [done|].
  by apply EventCount_in_int64.
Qed.

Lemma EventCount_absent (reactionCounts : list ReactionCount) id :
  id ∉ rc_ID <$> reactionCounts → EventCount reactionCounts id = 0.
Proof. intros Hid. unfold EventCount. by rewrite find_row_None. Qed.

Lemma MonetarySum_absent (totalTips : list TotalTip) id :
  id ∉ tt_ID <$> totalTips → MonetarySum totalTips id = 0.
Proof. intros Hid. unfold MonetarySum. by rewrite find_row_None. Qed.

(** The score map does not depend on the order in which the rows arrive. *)
Lemma aggregate_scores_perm (rcs rcs' : list ReactionCount) (tts tts' : list TotalTip) :
  NoDup (rc_ID <$> rcs) → NoDup (tt_ID <$> tts) →
  rcs ≡ₚ rcs' → tts ≡ₚ tts' →
  aggregate_scores rcs tts = aggregate_scores rcs' tts'.
Proof.
  intros Hrc Htt Hprc Hptt. apply map_eq. intros id.
  unfold aggregate_scores.
  rewrite !add_loop_lookup, !assign_loop_lookup; [|by rewrite <-?Hprc, <-?Hptt..].
  rewrite (find_row_perm tt_ID tts tts') by done.
  rewrite (find_row_perm rc_ID rcs rcs') by done.
  done.
Qed.

Lemma target_reactions_EventCount (rcs : list ReactionCount) target :
  NoDup (rc_ID <$> rcs) → target_reactions target rcs = EventCount rcs target.
Proof. intros Hnd. unfold target_reactions. by rewrite (foldl_keep_match rc_ID). Qed.

Lemma target_tip_MonetarySum (tts : list TotalTip) target :
  NoDup (tt_ID <$> tts) → target_tip target tts = MonetarySum tts target.
Proof. intros Hnd. unfold target_tip. by rewrite (foldl_keep_match tt_ID). Qed.

(** ** The zero entry against the entries of the two domains *)

Lemma user_entry_not_below_zero (name : string) (score : Z) :
  0 ≤ score → Less (mkEntry name score) placeholder = false.
Proof.
  intros Hs. unfold Less, placeholder. cbn [Key Score key_zero key_ltb Username_key LivestreamID_key].
  destruct (Z.eqb_spec score 0); [apply string_ltb_empty_r|].
  apply Z.ltb_ge. lia.
Qed.

Lemma user_entry_above_zero (name : string) (score : Z) :
  name ≠ EmptyString → 0 ≤ score → Less placeholder (mkEntry name score) = true.
Proof.
  intros Hn Hs. unfold Less, placeholder. cbn [Key Score key_zero key_ltb Username_key LivestreamID_key].
  destruct (Z.eqb_spec 0 score); [by apply string_ltb_empty_l|].
  apply Z.ltb_lt. lia.
Qed.

Lemma livestream_entry_not_below_zero (id score : Z) :
  0 ≤ id → 0 ≤ score → Less (mkEntry id score) placeholder = false.
Proof.
  intros Hi Hs. unfold Less, placeholder. cbn [Key Score key_zero key_ltb Username_key LivestreamID_key].
  destruct (Z.eqb_spec score 0); apply Z.ltb_ge; lia.
Qed.

Lemma livestream_entry_above_zero (id score : Z) :
  0 < id → 0 ≤ score → Less placeholder (mkEntry id score) = true.
Proof.
  intros Hi Hs. unfold Less, placeholder. cbn [Key Score key_zero key_ltb Username_key LivestreamID_key].
  destruct (Z.eqb_spec 0 score); apply Z.ltb_lt; lia.
Qed.

(** If [a] scores strictly more than [b], and no zero entry can be mistaken
    for [b], then [a] gets the strictly smaller rank. *)
Lemma compute_rank_monotone {K M : Type} `{TieBreakKeyLaws K}
    (entity_id : M → Z) (entity_key : M → K)
    (population : list M) (scoreMap : gmap Z Z) (a b : M) :
  NoDup (entity_key <$> population) → a ∈ population → b ∈ population →
  score_of scoreMap (entity_id b) < score_of scoreMap (entity_id a) →
  entity_key b ≠ key_zero
    ∨ Less (entry_of entity_id entity_key scoreMap b) placeholder = false →
  compute_rank entity_id entity_key population scoreMap (entity_key a)
  < compute_rank entity_id entity_key population scoreMap (entity_key b).
Proof.
  intros Hnd Ha Hb Hlt Hshadow. apply compute_rank_Less; [done..| |done].
  by apply Less_of_score_lt.
Qed.

(** An entity whose entry is below the zero entry, and whose key is not the
    zero key, is ranked after all [n] zero entries: its rank exceeds the
    population size. *)
Lemma compute_rank_below_zero {K M : Type} `{TieBreakKeyLaws K}
    (entity_id : M → Z) (entity_key : M → K)
    (population : list M) (scoreMap : gmap Z Z) (x : M) :
  NoDup (entity_key <$> population) → x ∈ population →
  entity_key x ≠ key_zero →
  Less (entry_of entity_id entity_key scoreMap x) placeholder = true →
  compute_rank entity_id entity_key population scoreMap (entity_key x)
  = rank_among_real entity_id entity_key population scoreMap (entity_key x)
    + Z.of_nat (length population)
  ∧ Z.of_nat (length population)
    < compute_rank entity_id entity_key population scoreMap (entity_key x).
Proof.
  intros Hnd Hx Hkey Hbelow.
  rewrite compute_rank_count by auto. rewrite Hbelow.
  split; [done|].
  assert (1 ≤ rank_among_real entity_id entity_key population scoreMap (entity_key x)
          ≤ Z.of_nat (length population)) as Hrange.
  { apply rank_among_real_range. apply list_elem_of_fmap. by exists x. }
  lia.
Qed.

(** When no real entry is below the zero entry, the computed ranks of a
    population with distinct keys are a rearrangement of [1..n]. *)
Lemma compute_rank_permutation {K M : Type} `{TieBreakKeyLaws K}
    (entity_id : M → Z) (entity_key : M → K)
    (population : list M) (scoreMap : gmap Z Z) :
  NoDup (entity_key <$> population) →
  (∀ x, x ∈ population →
        Less (entry_of entity_id entity_key scoreMap x) placeholder = false) →
  (λ x, compute_rank entity_id entity_key population scoreMap (entity_key x))
    <$> population
  ≡ₚ Z.of_nat <$> seq 1 (length population).
Proof.
  intros Hnd Hreal.
  rewrite <-(rank_among_real_permutation entity_id entity_key population scoreMap Hnd).
  assert ((λ x, compute_rank entity_id entity_key population scoreMap (entity_key x))
            <$> population
          = (λ x, rank_among_real entity_id entity_key population scoreMap (entity_key x))
            <$> population) as ->; [|done].
  apply list_fmap_ext. intros i x Hx.
  apply list_elem_of_lookup_2 in Hx. apply compute_rank_eq_among_real; auto.
Qed.

(** * The claims *)

(** C1, at the failing snapshot: a population of one user with distinct keys,
    whose only entity is reported at rank 2, outside [1..1].  The zero entry
    that [make] left in the slice sorts after the entry of score -5 and is
    counted by the scan. *)
Theorem C1_rank_outside_population_range :
  NoDup (um_Name <$> users db_negative_tip)
  ∧ length (users db_negative_tip) = 1%nat
  ∧ sort_Sort (user_ranking (users db_negative_tip)
                 (user_reaction_counts db_negative_tip)
                 (user_total_tips db_negative_tip))
    = [mkEntry "a"%string (-5); mkEntry EmptyString 0]
  ∧ getUserStatisticsHandler db_negative_tip "a"
    = JSON 200 {| us_Rank := 2; us_ViewersCount := 0; us_TotalReactions := 0;
                  us_TotalLivecomments := 1; us_TotalTip := -5;
                  us_FavoriteEmoji := EmptyString |}.
Proof.
  split_and!.
  - decide_closed.
  - reflexivity.
  - vm_compute. reflexivity.
  - vm_compute. reflexivity.
Qed.

(** C2, the literal reading refuted: with three users tied at score 0, "c"
    has the largest key and rank 1, but "a", the smallest key, is at rank 3
    and not at the rank right after that of "c". *)
Lemma C2_next_rank_counterexample :
  let scoreMap := aggregate_scores (user_reaction_counts db_three_way_tie)
                                   (user_total_tips db_three_way_tie) in
  let rank := compute_rank um_ID um_Name (users db_three_way_tie) scoreMap in
  score_of scoreMap 1 = score_of scoreMap 3
  ∧ String.ltb "a" "c" = true
  ∧ rank "c"%string = 1
  ∧ rank "a"%string = 3
  ∧ rank "a"%string ≠ rank "c"%string + 1.
Proof. vm_compute. split_and!; try reflexivity. discriminate. Qed.

(** C2, as amended.  For a population with pairwise distinct keys and two
    entities of equal, non-negative score (livestream ids non-negative as
    well): the one with the larger key gets the strictly smaller rank; the
    one with the smaller key gets exactly the next rank when no entity of the
    same score has its key strictly between the two.  Two entities with
    different keys never share a rank, whatever the scores.  For the
    population {A: 10, B: 10, C: 5}: rank(B) = 1, rank(A) = 2, rank(C) = 3. *)
Theorem C2_tie_break_order :
  (∀ (users : list UserModel) (scoreMap : gmap Z Z) (a b : UserModel),
     NoDup (um_Name <$> users) → a ∈ users → b ∈ users →
     score_of scoreMap (um_ID a) = score_of scoreMap (um_ID b) →
     0 ≤ score_of scoreMap (um_ID a) →
     String.ltb (um_Name a) (um_Name b) = true →
     let rank := compute_rank um_ID um_Name users scoreMap in
     rank (um_Name b) < rank (um_Name a)
     ∧ ((∀ z, z ∈ users →
              score_of scoreMap (um_ID z) = score_of scoreMap (um_ID a) →
              ¬ (String.ltb (um_Name a) (um_Name z) = true
                 ∧ String.ltb (um_Name z) (um_Name b) = true)) →
        rank (um_Name a) = rank (um_Name b) + 1))
  ∧ (∀ (users : list UserModel) (scoreMap : gmap Z Z) (a b : UserModel),
       a ∈ users → b ∈ users → um_Name a ≠ um_Name b →
       compute_rank um_ID um_Name users scoreMap (um_Name a)
       ≠ compute_rank um_ID um_Name users scoreMap (um_Name b))
  ∧ (∀ (livestreams : list LivestreamModel) (scoreMap : gmap Z Z)
       (a b : LivestreamModel),
       NoDup (lm_ID <$> livestreams) → a ∈ livestreams → b ∈ livestreams →
       score_of scoreMap (lm_ID a) = score_of scoreMap (lm_ID b) →
       0 ≤ score_of scoreMap (lm_ID a) →
       0 ≤ lm_ID a → lm_ID a < lm_ID b →
       let rank := compute_rank lm_ID lm_ID livestreams scoreMap in
       rank (lm_ID b) < rank (lm_ID a)
       ∧ ((∀ z, z ∈ livestreams →
                score_of scoreMap (lm_ID z) = score_of scoreMap (lm_ID a) →
                ¬ (lm_ID a < lm_ID z < lm_ID b)) →
          rank (lm_ID a) = rank (lm_ID b) + 1))
  ∧ (∀ (livestreams : list LivestreamModel) (scoreMap : gmap Z Z)
       (a b : LivestreamModel),
       a ∈ livestreams → b ∈ livestreams → lm_ID a ≠ lm_ID b →
       compute_rank lm_ID lm_ID livestreams scoreMap (lm_ID a)
       ≠ compute_rank lm_ID lm_ID livestreams scoreMap (lm_ID b))
  ∧ (let scoreMap := aggregate_scores example_reactionCounts example_totalTips in
     let rank := compute_rank um_ID um_Name example_users scoreMap in
     score_of scoreMap 1 = 10 ∧ score_of scoreMap 2 = 10 ∧ score_of scoreMap 3 = 5
     ∧ rank "B"%string = 1 ∧ rank "A"%string = 2 ∧ rank "C"%string = 3).
Proof.
  split_and!.
  - intros users scoreMap a b Hnd Ha Hb Heq Hpos Hlt rank. subst rank.
    assert (Less (entry_of um_ID um_Name scoreMap a) (entry_of um_ID um_Name scoreMap b)
            = true) as Hab.
    { rewrite Less_same_score by exact Heq. exact Hlt. }
    split.
    + apply compute_rank_Less; [done..|].
      right. by apply user_entry_not_below_zero.
    + intros Hbetween.
      rewrite (compute_rank_eq_among_real um_ID um_Name users scoreMap a);
        [|done|done|by apply user_entry_not_below_zero].
      rewrite (compute_rank_eq_among_real um_ID um_Name users scoreMap b);
        [|done|done|apply user_entry_not_below_zero; lia].
      apply rank_among_real_next; [done..|].
      intros z Hz [Haz Hzb].
      assert (score_of scoreMap (um_ID z) = score_of scoreMap (um_ID a)) as Hsz.
      { apply Less_score_le in Haz, Hzb. simpl in Haz, Hzb. lia. }
      rewrite Less_same_score in Haz by (simpl; lia).
      rewrite Less_same_score in Hzb by (simpl; lia).
      by apply (Hbetween z).
  - intros users scoreMap a b Ha Hb Hne. by apply compute_rank_distinct.
  - intros livestreams scoreMap a b Hnd Ha Hb Heq Hpos Hida Hlt rank. subst rank.
    assert (Less (entry_of lm_ID lm_ID scoreMap a) (entry_of lm_ID lm_ID scoreMap b)
            = true) as Hab.
    { rewrite Less_same_score by exact Heq. by apply Z.ltb_lt. }
    split.
    + apply compute_rank_Less; [done..|].
      right. by apply livestream_entry_not_below_zero.
    + intros Hbetween.
      rewrite (compute_rank_eq_among_real lm_ID lm_ID livestreams scoreMap a);
        [|done|done|by apply livestream_entry_not_below_zero].
      rewrite (compute_rank_eq_among_real lm_ID lm_ID livestreams scoreMap b);
        [|done|done|apply livestream_entry_not_below_zero; lia].
      apply rank_among_real_next; [done..|].
      intros z Hz [Haz Hzb].
      assert (score_of scoreMap (lm_ID z) = score_of scoreMap (lm_ID a)) as Hsz.
      { apply Less_score_le in Haz, Hzb. simpl in Haz, Hzb. lia. }
      rewrite Less_same_score in Haz by (simpl; lia).
      rewrite Less_same_score in Hzb by (simpl; lia).
      apply (Hbetween z Hz Hsz). simpl in Haz, Hzb.
      apply Z.ltb_lt in Haz, Hzb. lia.
  - intros livestreams scoreMap a b Ha Hb Hne. by apply compute_rank_distinct.
  - vm_compute. split_and!; reflexivity.
Qed.

(** C2, instantiated: users "ann" < "bob" tied at score 7, "cy" at score 1. *)
Lemma C2_tie_break_order_witness :
  compute_rank um_ID um_Name
    [mkUser 1 "ann"; mkUser 2 "bob"; mkUser 3 "cy"]
    (aggregate_scores [mkReactionCount 1 7; mkReactionCount 2 7; mkReactionCount 3 1] [])
    "bob"%string
  < compute_rank um_ID um_Name
      [mkUser 1 "ann"; mkUser 2 "bob"; mkUser 3 "cy"]
      (aggregate_scores [mkReactionCount 1 7; mkReactionCount 2 7; mkReactionCount 3 1] [])
      "ann"%string.
Proof.
  refine (proj1 (proj1 C2_tie_break_order
                   [mkUser 1 "ann"; mkUser 2 "bob"; mkUser 3 "cy"]
                   (aggregate_scores
                      [mkReactionCount 1 7; mkReactionCount 2 7; mkReactionCount 3 1] [])
                   (mkUser 1 "ann") (mkUser 2 "bob") _ _ _ _ _ _)).
  - decide_closed.
  - set_solver.
  - set_solver.
  - vm_compute. reflexivity.
  - vm_compute. discriminate.
  - vm_compute. reflexivity.
Defined.

(** C3, at the failing snapshots: livestream 1 scores -3, livestream 0 scores
    -5, yet livestream 0 is reported at rank 1 and livestream 1 at rank 3.
    The scan for id 0 stops at a zero entry left by [make], whose
    [LivestreamID] is 0 as well.  The user handler does the same with the
    usernames "" (tips -5, rank 1) and "a" (tips -3, rank 3). *)
Theorem C3_higher_score_gets_worse_rank :
  let scoreMap := aggregate_scores (livestream_reaction_counts db_zero_id)
                                   (livestream_total_tips db_zero_id) in
  NoDup (lm_ID <$> livestreams db_zero_id)
  ∧ score_of scoreMap 0 = -5
  ∧ score_of scoreMap 1 = -3
  ∧ sort_Sort (livestream_ranking (livestreams db_zero_id)
                 (livestream_reaction_counts db_zero_id)
                 (livestream_total_tips db_zero_id))
    = [mkEntry 0 (-5); mkEntry 1 (-3); mkEntry 0 0; mkEntry 0 0]
  ∧ getLivestreamStatisticsHandler db_zero_id 0
    = JSON 200 {| ls_Rank := 1; ls_ViewersCount := 0; ls_TotalReactions := 0;
                  ls_TotalReports := 0; ls_MaxTip := -5 |}
  ∧ getLivestreamStatisticsHandler db_zero_id 1
    = JSON 200 {| ls_Rank := 3; ls_ViewersCount := 0; ls_TotalReactions := 0;
                  ls_TotalReports := 0; ls_MaxTip := -3 |}
  ∧ NoDup (um_Name <$> users db_empty_name)
  ∧ getUserStatisticsHandler db_empty_name EmptyString
    = JSON 200 {| us_Rank := 1; us_ViewersCount := 0; us_TotalReactions := 0;
                  us_TotalLivecomments := 1; us_TotalTip := -5;
                  us_FavoriteEmoji := EmptyString |}
  ∧ getUserStatisticsHandler db_empty_name "a"
    = JSON 200 {| us_Rank := 3; us_ViewersCount := 0; us_TotalReactions := 0;
                  us_TotalLivecomments := 1; us_TotalTip := -3;
                  us_FavoriteEmoji := EmptyString |}.
Proof.
  split_and!;
    [decide_closed|vm_compute; reflexivity..|decide_closed
     |vm_compute; reflexivity|vm_compute; reflexivity].
Qed.

(** C4, as stated, refuted: the only username is non-empty, but the entry of
    "a" has score -5, so the zero entry does not sort below it, and the
    reported rank 2 differs from the rank 1 among the real entries alone. *)
Lemma C4_placeholder_counterexample :
  let users := users db_negative_tip in
  let scoreMap := aggregate_scores (user_reaction_counts db_negative_tip)
                                   (user_total_tips db_negative_tip) in
  Forall (λ u, um_Name u ≠ EmptyString) users
  ∧ Less (placeholder (K:=string)) (entry_of um_ID um_Name scoreMap (mkUser 1 "a")) = false
  ∧ compute_rank um_ID um_Name users scoreMap "a"%string = 2
  ∧ rank_among_real um_ID um_Name users scoreMap "a"%string = 1.
Proof.
  split_and!; [|vm_compute; reflexivity..].
  repeat constructor. discriminate.
Qed.

(** C4, as amended.  The slice handed to [sort.Sort] is [n] zero entries
    followed by the [n] real entries.  If every real username is non-empty
    (resp. every real livestream id is positive) and every real score is
    non-negative, then every zero entry sorts strictly below every real
    entry, the sorted slice is the [n] zero entries followed by the sorted
    real entries, and for every key of the population the scan stops within
    the last [n] entries: the reported rank is the rank over the real
    entries alone and lies in [1..n]. *)
Theorem C4_placeholders_sort_below_real_entries :
  (∀ (users : list UserModel) (scoreMap : gmap Z Z),
     (∀ u, u ∈ users → um_Name u ≠ EmptyString) →
     (∀ u, u ∈ users → 0 ≤ score_of scoreMap (um_ID u)) →
     build_ranking um_ID um_Name users scoreMap
     = make_ranking (length users) ++ real_entries um_ID um_Name users scoreMap
     ∧ (∀ e, e ∈ real_entries um_ID um_Name users scoreMap →
             Less placeholder e = true)
     ∧ sort_Sort (build_ranking um_ID um_Name users scoreMap)
       = make_ranking (length users)
         ++ sort_Sort (real_entries um_ID um_Name users scoreMap)
     ∧ (∀ t, t ∈ um_Name <$> users →
             compute_rank um_ID um_Name users scoreMap t
             = rank_among_real um_ID um_Name users scoreMap t
             ∧ 1 ≤ compute_rank um_ID um_Name users scoreMap t
                 ≤ Z.of_nat (length users)))
  ∧ (∀ (livestreams : list LivestreamModel) (scoreMap : gmap Z Z),
       (∀ l, l ∈ livestreams → 0 < lm_ID l) →
       (∀ l, l ∈ livestreams → 0 ≤ score_of scoreMap (lm_ID l)) →
       build_ranking lm_ID lm_ID livestreams scoreMap
       = make_ranking (length livestreams) ++ real_entries lm_ID lm_ID livestreams scoreMap
       ∧ (∀ e, e ∈ real_entries lm_ID lm_ID livestreams scoreMap →
               Less placeholder e = true)
       ∧ sort_Sort (build_ranking lm_ID lm_ID livestreams scoreMap)
         = make_ranking (length livestreams)
           ++ sort_Sort (real_entries lm_ID lm_ID livestreams scoreMap)
       ∧ (∀ t, t ∈ lm_ID <$> livestreams →
               compute_rank lm_ID lm_ID livestreams scoreMap t
               = rank_among_real lm_ID lm_ID livestreams scoreMap t
               ∧ 1 ≤ compute_rank lm_ID lm_ID livestreams scoreMap t
                   ≤ Z.of_nat (length livestreams))).
Proof.
  split.
  - intros users scoreMap Hname Hscore.
    assert (Forall (λ e, Less placeholder e = true)
                   (real_entries um_ID um_Name users scoreMap)) as Hreal.
    { apply Forall_forall. intros e He.
      apply list_elem_of_fmap in He as (u & -> & Hu).
      apply user_entry_above_zero; auto. }
    split_and!.
    + apply build_ranking_eq.
    + by apply Forall_forall.
    + by apply sort_Sort_placeholders_first.
    + intros t Ht.
      rewrite compute_rank_placeholders_first by done.
      split; [done|]. by apply rank_among_real_range.
  - intros livestreams scoreMap Hid Hscore.
    assert (Forall (λ e, Less placeholder e = true)
                   (real_entries lm_ID lm_ID livestreams scoreMap)) as Hreal.
    { apply Forall_forall. intros e He.
      apply list_elem_of_fmap in He as (l & -> & Hl).
      apply livestream_entry_above_zero; auto. }
    split_and!.
    + apply build_ranking_eq.
    + by apply Forall_forall.
    + by apply sort_Sort_placeholders_first.
    + intros t Ht.
      rewrite compute_rank_placeholders_first by done.
      split; [done|]. by apply rank_among_real_range.
Qed.

(** C4, instantiated at the example population {A: 10, B: 10, C: 5}. *)
Lemma C4_placeholders_sort_below_real_entries_witness :
  sort_Sort (build_ranking um_ID um_Name example_users
               (aggregate_scores example_reactionCounts example_totalTips))
  = make_ranking (length example_users)
    ++ sort_Sort (real_entries um_ID um_Name example_users
                    (aggregate_scores example_reactionCounts example_totalTips)).
Proof.
  refine (proj1 (proj2 (proj2
            (proj1 C4_placeholders_sort_below_real_entries example_users
               (aggregate_scores example_reactionCounts example_totalTips) _ _)))).
  - intros u Hu. apply list_elem_of_In in Hu. simpl in Hu.
    destruct Hu as [<-|[<-|[<-|[]]]]; discriminate.
  - intros u Hu. apply list_elem_of_In in Hu. simpl in Hu.
    destruct Hu as [<-|[<-|[<-|[]]]]; vm_compute; discriminate.
Defined.

(** C5.  With one row per id in each fact mapping, the score read for an id
    is the [int64] sum of its event count and its monetary sum, each read as
    0 when the id has no row; it is their mathematical sum whenever that fits
    an [int64].  Every entity of the population gets one real entry carrying
    that score in the slice that is ranked, in both handlers, and the score
    of an id absent from both mappings is 0. *)
Theorem C5_score_is_count_plus_sum
    (reactionCounts : list ReactionCount) (totalTips : list TotalTip) :
  NoDup (rc_ID <$> reactionCounts) → NoDup (tt_ID <$> totalTips) →
  Forall (λ rc, in_int64 (rc_ReactionCount rc)) reactionCounts →
  let scoreMap := aggregate_scores reactionCounts totalTips in
  let score id := int64_add (EventCount reactionCounts id) (MonetarySum totalTips id) in
  (∀ id, score_of scoreMap id = score id)
  ∧ (∀ id, in_int64 (EventCount reactionCounts id + MonetarySum totalTips id) →
           score_of scoreMap id = EventCount reactionCounts id + MonetarySum totalTips id)
  ∧ (∀ id, id ∉ rc_ID <$> reactionCounts → EventCount reactionCounts id = 0)
  ∧ (∀ id, id ∉ tt_ID <$> totalTips → MonetarySum totalTips id = 0)
  ∧ (∀ id, id ∉ rc_ID <$> reactionCounts → id ∉ tt_ID <$> totalTips →
           score_of scoreMap id = 0)
  ∧ (∀ users : list UserModel,
       user_ranking users reactionCounts totalTips
       = make_ranking (length users)
         ++ ((λ u, mkEntry (um_Name u) (score (um_ID u))) <$> users))
  ∧ (∀ livestreams : list LivestreamModel,
       livestream_ranking livestreams reactionCounts totalTips
       = make_ranking (length livestreams)
         ++ ((λ l, mkEntry (lm_ID l) (score (lm_ID l))) <$> livestreams)).
Proof.
  intros Hrc Htt Hin scoreMap score.
  assert (∀ id, score_of scoreMap id = score id) as Hscore.
  { intros id. by apply score_of_aggregate_add. }
  split_and!.
  - done.
  - intros id Hfit. rewrite Hscore. unfold score, int64_add. by apply wrap64_id.
  - apply EventCount_absent.
  - apply MonetarySum_absent.
  - intros id Hc Ht. rewrite Hscore. unfold score.
    rewrite EventCount_absent, MonetarySum_absent by done. reflexivity.
  - intros users. unfold user_ranking. rewrite build_ranking_eq. f_equal.
    apply list_fmap_ext. intros i u _. unfold entry_of. f_equal. apply Hscore.
  - intros livestreams. unfold livestream_ranking. rewrite build_ranking_eq. f_equal.
    apply list_fmap_ext. intros i l _. unfold entry_of. f_equal. apply Hscore.
Qed.

(** C5, instantiated at the example mappings: user 1 has 4 reactions and
    tips of 6, user 2 has 10 reactions and no tip row. *)
Lemma C5_score_is_count_plus_sum_witness :
  score_of (aggregate_scores example_reactionCounts example_totalTips) 2
  = int64_add (EventCount example_reactionCounts 2) (MonetarySum example_totalTips 2).
Proof.
  refine (proj1 (C5_score_is_count_plus_sum example_reactionCounts example_totalTips
                   _ _ _) 2).
  - decide_closed.
  - decide_closed.
  - decide_closed.
Defined.

(** ** Joins and groups *)

Section Joins.
Context {A B : Type}.

Lemma bind_all_nil (f : A → list B) (l : list A) :
  (∀ x, x ∈ l → f x = []) → l ≫= f = [].
Proof.
  induction l as [|a l IH]; intros Hall; [done|].
  rewrite bind_cons, Hall by left. simpl. apply IH. intros x Hx. apply Hall. by right.
Qed.

Lemma bind_ext_elem (f g : A → list B) (l : list A) :
  (∀ x, x ∈ l → f x = g x) → l ≫= f = l ≫= g.
Proof.
  induction l as [|a l IH]; intros Hall; [done|].
  rewrite !bind_cons, Hall by left. f_equal. apply IH. intros x Hx. apply Hall. by right.
Qed.

(** A join on a unique key keeps the rows of the one matching row. *)
Lemma bind_unique {C} (key : A → C) (f : A → list B) (l : list A) x :
  NoDup (key <$> l) → x ∈ l →
  (∀ y, y ∈ l → key y ≠ key x → f y = []) →
  l ≫= f = f x.
Proof.
  induction l as [|a l IH]; intros Hnd Hx Hother.
  - by apply elem_of_nil in Hx.
  - rewrite fmap_cons in Hnd. apply NoDup_cons in Hnd as [Ha Hnd].
    rewrite bind_cons. apply elem_of_cons in Hx as [->|Hx].
    + rewrite bind_all_nil; [by rewrite app_nil_r|].
      intros y Hy. apply Hother; [by right|].
      intros Heq. apply Ha. rewrite <-Heq. apply list_elem_of_fmap. by exists y.
    + rewrite Hother; [|left|].
      * simpl. apply IH; [done..|]. intros y Hy. apply Hother. by right.
      * intros Heq. apply Ha. rewrite Heq. apply list_elem_of_fmap. by exists x.
Qed.

Lemma bind_filter (P : A → Prop) `{∀ x, Decision (P x)} (f : A → list B) (l : list A) :
  filter P l ≫= f = l ≫= (λ x, if decide (P x) then f x else []).
Proof.
  induction l as [|a l IH]; [done|].
  rewrite filter_cons, bind_cons. destruct (decide (P a)).
  - rewrite bind_cons. by f_equal.
  - done.
Qed.

Lemma bind_if_fmap (P : A → Prop) `{∀ x, Decision (P x)} (g : A → B) (l : list A) :
  l ≫= (λ x, if decide (P x) then [g x] else []) = g <$> filter P l.
Proof.
  induction l as [|a l IH]; [done|].
  rewrite bind_cons, filter_cons, IH. by destruct (decide (P a)).
Qed.

Lemma bind_singleton_fmap (g : A → B) (l : list A) : l ≫= (λ x, [g x]) = g <$> l.
Proof.
  induction l as [|a l IH]; [done|]. rewrite bind_cons, IH. done.
Qed.

Lemma bind_app_perm (f g : A → list B) (l : list A) :
  l ≫= (λ x, f x ++ g x) ≡ₚ (l ≫= f) ++ (l ≫= g).
Proof.
  induction l as [|a l IH]; [done|].
  rewrite !bind_cons, IH. solve_Permutation.
Qed.

End Joins.

(** The nesting order of a join does not matter up to the order of rows. *)
Lemma bind_swap_perm {A B C} (f : A → B → list C) (la : list A) (lb : list B) :
  la ≫= (λ a, lb ≫= f a) ≡ₚ lb ≫= (λ b, la ≫= (λ a, f a b)).
Proof.
  induction la as [|a la IH].
  - transitivity (@nil C); [done|].
    rewrite (bind_all_nil _ lb); [done|]. by intros.
  - rewrite bind_cons, IH.
    rewrite <-bind_app_perm. apply eq_subrelation; [apply _|].
    apply bind_ext_elem. intros b _. by rewrite bind_cons.
Qed.

Lemma filter_none {A} (P : A → Prop) `{∀ x, Decision (P x)} (l : list A) :
  (∀ x, x ∈ l → ¬ P x) → filter P l = [].
Proof.
  induction l as [|a l IH]; intros Hall; [done|].
  rewrite filter_cons, decide_False by (apply Hall; left).
  apply IH. intros x Hx. apply Hall. by right.
Qed.

Lemma filter_unique {A C} (key : A → C) `{EqDecision C} (l : list A) x :
  NoDup (key <$> l) → x ∈ l → filter (λ y, key y = key x) l = [x].
Proof.
  induction l as [|a l IH]; intros Hnd Hx.
  - by apply elem_of_nil in Hx.
  - rewrite fmap_cons in Hnd. apply NoDup_cons in Hnd as [Ha Hnd].
    rewrite filter_cons. apply elem_of_cons in Hx as [->|Hx].
    + rewrite decide_True by done. f_equal. apply filter_none.
      intros y Hy Heq. apply Ha. rewrite <-Heq. apply list_elem_of_fmap. by exists y.
    + rewrite decide_False; [by apply IH|].
      intros Heq. apply Ha. rewrite Heq. apply list_elem_of_fmap. by exists x.
Qed.

(** ** What the queries return *)

Lemma group_count_ids (ids : list Z) : rc_ID <$> group_count ids = remove_dups ids.
Proof.
  unfold group_count. rewrite <-list_fmap_compose.
  rewrite <-(list_fmap_id (remove_dups ids)) at 2. done.
Qed.

Lemma group_sum_ids (rows : list (Z * Z)) :
  tt_ID <$> group_sum rows = remove_dups (fst <$> rows).
Proof.
  unfold group_sum. rewrite <-list_fmap_compose.
  rewrite <-(list_fmap_id (remove_dups (fst <$> rows))) at 2. done.
Qed.

Lemma user_reaction_counts_NoDup db : NoDup (rc_ID <$> user_reaction_counts db).
Proof. unfold user_reaction_counts. rewrite group_count_ids. apply NoDup_remove_dups. Qed.

Lemma user_total_tips_NoDup db : NoDup (tt_ID <$> user_total_tips db).
Proof. unfold user_total_tips. rewrite group_sum_ids. apply NoDup_remove_dups. Qed.

Lemma livestream_reaction_counts_NoDup db :
  NoDup (rc_ID <$> livestream_reaction_counts db).
Proof.
  unfold livestream_reaction_counts. rewrite group_count_ids. apply NoDup_remove_dups.
Qed.

Lemma livestream_total_tips_NoDup db : NoDup (tt_ID <$> livestream_total_tips db).
Proof.
  unfold livestream_total_tips. rewrite group_sum_ids. apply NoDup_remove_dups.
Qed.

Lemma select_user_None db username :
  select_user_by_name db username = None ↔ username ∉ um_Name <$> users db.
Proof.
  unfold select_user_by_name. split.
  - intros Hf Hin. apply list_elem_of_fmap in Hin as (u & -> & Hu).
    apply list_elem_of_In in Hu.
    pose proof (find_none _ _ Hf u Hu) as Hneq. simpl in Hneq.
    by rewrite String.eqb_refl in Hneq.
  - intros Hnot. destruct (find _ (users db)) as [u|] eqn:Hf; [|done].
    apply find_some in Hf as [Hu Heq]. destruct Hnot.
    apply String.eqb_eq in Heq as <-.
    apply list_elem_of_fmap. exists u. split; [done|]. by apply list_elem_of_In.
Qed.

Lemma select_user_Some db username user :
  select_user_by_name db username = Some user →
  user ∈ users db ∧ um_Name user = username.
Proof.
  unfold select_user_by_name. intros Hf. apply find_some in Hf as [Hu Heq].
  split; [by apply list_elem_of_In|by apply String.eqb_eq].
Qed.

Lemma select_user_unique db user :
  NoDup (um_Name <$> users db) → user ∈ users db →
  select_user_by_name db (um_Name user) = Some user.
Proof.
  intros Hnd Hu.
  destruct (select_user_by_name db (um_Name user)) as [u|] eqn:Hf.
  - apply select_user_Some in Hf as [Hu' Heq].
    by rewrite (NoDup_fmap_elem_inj um_Name (users db) u user).
  - apply select_user_None in Hf. destruct Hf.
    apply list_elem_of_fmap. by exists user.
Qed.

Lemma getLivestream_None db livestreamID :
  getLivestream db livestreamID = None ↔ livestreamID ∉ lm_ID <$> livestreams db.
Proof.
  unfold getLivestream. split.
  - intros Hf Hin. apply list_elem_of_fmap in Hin as (l & -> & Hl).
    apply list_elem_of_In in Hl.
    pose proof (find_none _ _ Hf l Hl) as Hneq. simpl in Hneq.
    by rewrite Z.eqb_refl in Hneq.
  - apply (find_row_None lm_ID).
Qed.

(** *** A user without activity *)

Section NoUserActivity.
Context (db : Database) (user : UserModel).
Context (Hidle : user_has_no_activity db (um_ID user)).

Lemma idle_user_no_reaction_row : um_ID user ∉ rc_ID <$> user_reaction_counts db.
Proof.
  unfold user_reaction_counts. rewrite group_count_ids, elem_of_remove_dups.
  intros Hin.
  apply list_elem_of_bind in Hin as (u & Hin & Hu).
  apply list_elem_of_bind in Hin as (l & Hin & Hl).
  apply list_elem_of_bind in Hin as (r & Hin & Hr).
  apply list_elem_of_singleton in Hin.
  apply list_elem_of_filter in Hl as [Hlu Hl].
  apply list_elem_of_filter in Hr as [Hrl Hr].
  destruct (Hidle l Hl) as (Hnr & _ & _); [congruence|].
  by apply (Hnr r).
Qed.

Lemma idle_user_no_tip_row : um_ID user ∉ tt_ID <$> user_total_tips db.
Proof.
  unfold user_total_tips. rewrite group_sum_ids, elem_of_remove_dups.
  intros Hin. apply list_elem_of_fmap in Hin as ([id tip] & Hid & Hin).
  simpl in Hid. subst id.
  apply list_elem_of_bind in Hin as (u & Hin & Hu).
  apply list_elem_of_bind in Hin as (l & Hin & Hl).
  apply list_elem_of_bind in Hin as (c & Hin & Hc).
  apply list_elem_of_singleton in Hin. injection Hin as Hid Htip.
  apply list_elem_of_filter in Hl as [Hlu Hl].
  apply list_elem_of_filter in Hc as [Hcl Hc].
  destruct (Hidle l Hl) as (_ & Hnc & _); [congruence|].
  by apply (Hnc c).
Qed.

Lemma idle_user_livecomments_count : user_livecomments_count db (um_ID user) = 0.
Proof.
  unfold user_livecomments_count. rewrite bind_all_nil; [done|].
  intros c Hc. apply bind_all_nil. intros l Hl.
  apply list_elem_of_filter in Hl as [Hcl Hl].
  destruct (decide (lm_UserID l = um_ID user)) as [Hu|]; [|done].
  destruct (Hidle l Hl Hu) as (_ & Hnc & _). by destruct (Hnc c Hc).
Qed.

Lemma idle_user_viewers_count : user_viewers_count db (um_ID user) = 0.
Proof.
  unfold user_viewers_count. rewrite bind_all_nil; [done|].
  intros h Hh. apply bind_all_nil. intros l Hl.
  apply list_elem_of_filter in Hl as [Hhl Hl].
  destruct (decide (lm_UserID l = um_ID user)) as [Hu|]; [|done].
  destruct (Hidle l Hl Hu) as (_ & _ & Hnh). by destruct (Hnh h Hh).
Qed.

Lemma idle_user_no_emoji_rows :
  NoDup (um_Name <$> users db) → user ∈ users db →
  favorite_emoji_rows db (um_Name user) = [].
Proof.
  intros Hnd Huser. unfold favorite_emoji_rows.
  apply bind_all_nil. intros u Hu.
  apply bind_all_nil. intros l Hl.
  apply bind_all_nil. intros r Hr.
  destruct (String.eqb_spec (um_Name u) (um_Name user)) as [Heq|]; [|done].
  assert (u = user) as -> by by apply (NoDup_fmap_elem_inj um_Name (users db)).
  apply list_elem_of_filter in Hl as [Hlu Hl].
  apply list_elem_of_filter in Hr as [Hrl Hr].
  destruct (Hidle l Hl Hlu) as (Hnr & _ & _). by destruct (Hnr r Hr).
Qed.

End NoUserActivity.

(** *** A livestream without activity *)

Section NoLivestreamActivity.
Context (db : Database) (livestreamID : Z).
Context (Hidle : livestream_has_no_activity db livestreamID).

Lemma idle_livestream_no_reaction_row :
  livestreamID ∉ rc_ID <$> livestream_reaction_counts db.
Proof.
  unfold livestream_reaction_counts. rewrite group_count_ids, elem_of_remove_dups.
  intros Hin.
  apply list_elem_of_bind in Hin as (l & Hin & Hl).
  apply list_elem_of_bind in Hin as (r & Hin & Hr).
  apply list_elem_of_singleton in Hin.
  apply list_elem_of_filter in Hr as [Hrl Hr].
  destruct Hidle as (Hnr & _). apply (Hnr r Hr). congruence.
Qed.

Lemma idle_livestream_no_tip_row :
  livestreamID ∉ tt_ID <$> livestream_total_tips db.
Proof.
  unfold livestream_total_tips. rewrite group_sum_ids, elem_of_remove_dups.
  intros Hin. apply list_elem_of_fmap in Hin as ([id tip] & Hid & Hin).
  simpl in Hid. subst id.
  apply list_elem_of_bind in Hin as (l & Hin & Hl).
  apply list_elem_of_bind in Hin as (c & Hin & Hc).
  apply list_elem_of_singleton in Hin. injection Hin as Hid Htip.
  apply list_elem_of_filter in Hc as [Hcl Hc].
  destruct Hidle as (_ & Hnc & _). apply (Hnc c Hc). congruence.
Qed.

Lemma idle_livestream_viewers_count : livestream_viewers_count db livestreamID = 0.
Proof.
  unfold livestream_viewers_count. rewrite bind_all_nil; [done|].
  intros l Hl. apply list_elem_of_filter in Hl as [Hid Hl].
  apply bind_all_nil. intros h Hh.
  apply list_elem_of_filter in Hh as [Hhl Hh].
  destruct Hidle as (_ & _ & Hnh & _). destruct (Hnh h Hh). congruence.
Qed.

Lemma idle_livestream_max_tip : livestream_max_tip db livestreamID = 0.
Proof.
  unfold livestream_max_tip. rewrite bind_all_nil; [done|].
  intros l Hl. apply list_elem_of_filter in Hl as [Hid Hl].
  apply bind_all_nil. intros c Hc.
  apply list_elem_of_filter in Hc as [Hcl Hc].
  destruct Hidle as (_ & Hnc & _). destruct (Hnc c Hc). congruence.
Qed.

Lemma idle_livestream_total_reports : livestream_total_reports db livestreamID = 0.
Proof.
  unfold livestream_total_reports. rewrite bind_all_nil; [done|].
  intros l Hl. apply list_elem_of_filter in Hl as [Hid Hl].
  apply bind_all_nil. intros r Hr.
  apply list_elem_of_filter in Hr as [Hrl Hr].
  destruct Hidle as (_ & _ & _ & Hnr). destruct (Hnr r Hr). congruence.
Qed.

End NoLivestreamActivity.

Lemma length_filter_fmap {A B} (P : B → Prop) `{∀ y, Decision (P y)}
    (f : A → B) (l : list A) :
  length (filter P (f <$> l)) = length (filter (λ x, P (f x)) l).
Proof.
  induction l as [|a l IH]; [done|].
  rewrite fmap_cons, !filter_cons. destruct (decide (P (f a))); simpl; lia.
Qed.

(** ** The user lookup under a collation *)

Lemma select_user_collated_None name_eq db username :
  select_user_by_name_collated name_eq db username = None
  ↔ ¬ ∃ u, u ∈ users db ∧ name_eq (um_Name u) username = true.
Proof.
  unfold select_user_by_name_collated. split.
  - intros Hf (u & Hu & Heq). apply list_elem_of_In in Hu.
    pose proof (find_none _ _ Hf u Hu) as Hneq. simpl in Hneq. congruence.
  - intros Hnot. destruct (find _ (users db)) as [u|] eqn:Hf; [|done].
    apply find_some in Hf as [Hu Heq]. destruct Hnot.
    exists u. split; [by apply list_elem_of_In|done].
Qed.

Lemma select_user_collated_Some name_eq db username user :
  select_user_by_name_collated name_eq db username = Some user →
  user ∈ users db ∧ name_eq (um_Name user) username = true.
Proof.
  unfold select_user_by_name_collated. intros Hf. apply find_some in Hf as [Hu Heq].
  split; [by apply list_elem_of_In|done].
Qed.

Section ExactName.
Variable name_eq : string → string → bool.
Variable db : Database.
Variable user : UserModel.
Hypothesis name_eq_refl : ∀ s, name_eq s s = true.
Hypothesis names_distinct : NoDup (um_Name <$> users db).
Hypothesis name_not_merged :
  ∀ u, u ∈ users db → name_eq (um_Name u) (um_Name user) = true →
       um_Name u = um_Name user.
Hypothesis user_in : user ∈ users db.

(** Requested by the stored name of a user that the collation equates with
    no other stored name, the column's test and the bytewise test pick the
    same rows. *)
Lemma name_eq_exact u :
  u ∈ users db → name_eq (um_Name u) (um_Name user) = String.eqb (um_Name u) (um_Name user).
Proof using name_eq_refl name_not_merged.
  intros Hu. destruct (String.eqb_spec (um_Name u) (um_Name user)) as [->|Hne].
  - apply name_eq_refl.
  - destruct (name_eq (um_Name u) (um_Name user)) eqn:Heq; [|done].
    destruct Hne. by apply name_not_merged.
Qed.

Lemma select_user_collated_exact :
  select_user_by_name_collated name_eq db (um_Name user) = Some user.
Proof using All.
  destruct (select_user_by_name_collated name_eq db (um_Name user)) as [u|] eqn:Hf.
  - apply select_user_collated_Some in Hf as [Hu Heq].
    apply name_not_merged in Heq; [|done].
    by rewrite (NoDup_fmap_elem_inj um_Name (users db) u user).
  - apply select_user_collated_None in Hf. destruct Hf.
    exists user. split; [done|apply name_eq_refl].
Qed.

Lemma favorite_emoji_rows_collated_exact :
  favorite_emoji_rows_collated name_eq db (um_Name user)
  = favorite_emoji_rows db (um_Name user).
Proof using name_eq_refl name_not_merged.
  unfold favorite_emoji_rows_collated, favorite_emoji_rows.
  apply Forall_bind_ext, Forall_forall. intros u Hu.
  by rewrite name_eq_exact.
Qed.

(** There the handler answers what the bytewise definition answers. *)
Lemma getUserStatisticsHandler_collated_exact :
  getUserStatisticsHandler_collated name_eq db (um_Name user)
  = getUserStatisticsHandler db (um_Name user).
Proof using All.
  unfold getUserStatisticsHandler_collated, getUserStatisticsHandler.
  rewrite select_user_collated_exact, select_user_unique by done.
  unfold assembleUserStatistics, favorite_emoji_query_collated, favorite_emoji_query.
  by rewrite favorite_emoji_rows_collated_exact.
Qed.

End ExactName.

(** Under a binary collation the two definitions are one. *)
Lemma getUserStatisticsHandler_collated_binary db username :
  getUserStatisticsHandler_collated String.eqb db username
  = getUserStatisticsHandler db username.
Proof. reflexivity. Qed.

Lemma name_eq_nocase_refl s : name_eq_nocase s s = true.
Proof. apply String.eqb_refl. Qed.

(** ** What the rank of an entity counts *)

Lemma Less_true_iff {K : Type} `{TieBreakKey K} (a b : RankingEntry K) :
  Less a b = true
  ↔ Score a < Score b ∨ (Score a = Score b ∧ key_ltb (Key a) (Key b) = true).
Proof.
  unfold Less. destruct (Z.eqb_spec (Score a) (Score b)) as [E|E].
  - split; [by right|]. intros [Hlt|[_ Hk]]; [lia|done].
  - rewrite Z.ltb_lt. split; [by left|]. intros [Hlt|[Heq _]]; [done|lia].
Qed.

(** The rank of an entity of score 0 whose entry cannot be mistaken for a
    zero entry: one more than the number of entities that score more than
    0, or score 0 with a larger key, plus the zero entries when they sort
    after its own entry. *)
Lemma compute_rank_zero_score {K M : Type} `{TieBreakKeyLaws K}
    (entity_id : M → Z) (entity_key : M → K)
    (population : list M) (sm : gmap Z Z) (x : M) :
  NoDup (entity_key <$> population) → x ∈ population →
  score_of sm (entity_id x) = 0 →
  entity_key x ≠ key_zero ∨ key_ltb (entity_key x) key_zero = false →
  compute_rank entity_id entity_key population sm (entity_key x)
  = 1 + Z.of_nat (length
          (filter (λ y, 0 < score_of sm (entity_id y)
                        ∨ (score_of sm (entity_id y) = 0
                           ∧ key_ltb (entity_key x) (entity_key y) = true))
                  population))
    + (if key_ltb (entity_key x) key_zero then Z.of_nat (length population) else 0).
Proof.
  intros Hnd Hx Hscore Hshadow.
  assert (Less (entry_of entity_id entity_key sm x) placeholder
          = key_ltb (entity_key x) key_zero) as Hbelow.
  { rewrite Less_same_score; [done|]. simpl. by rewrite Hscore. }
  rewrite compute_rank_count; [|done|done|by rewrite Hbelow].
  rewrite rank_among_real_count by done.
  rewrite Hbelow. unfold above, real_entries. rewrite length_filter_fmap.
  do 4 f_equal. apply list_filter_iff. intros y.
  rewrite Less_true_iff. simpl. rewrite Hscore.
  split; (intros [?|[? ?]]; [by left|by right]).
Qed.



(** ** The favourite emoji *)

(** With unique usernames and unique livestream ids, the rows the
    favourite-emoji query groups are, up to order, the emoji names of the
    reactions on the livestreams of the user. *)
Lemma favorite_emoji_rows_perm (db : Database) (user : UserModel) :
  NoDup (um_Name <$> users db) → NoDup (lm_ID <$> livestreams db) →
  user ∈ users db →
  favorite_emoji_rows db (um_Name user)
  ≡ₚ rm_EmojiName <$> reactions_on_livestreams_of db (um_ID user).
Proof.
  intros Hnames Hids Huser.
  set (F := λ (l : LivestreamModel) (r : ReactionModel),
         if decide (lm_UserID l = um_ID user ∧ rm_LivestreamID r = lm_ID l)
         then [rm_EmojiName r] else []).
  assert (favorite_emoji_rows db (um_Name user)
          = livestreams db ≫= (λ l, reactions db ≫= F l)) as ->.
  { unfold favorite_emoji_rows.
    rewrite (bind_unique um_Name _ (users db) user Hnames Huser).
    2:{ intros y Hy Hne. apply bind_all_nil. intros l _.
        apply bind_all_nil. intros r _.
        by destruct (String.eqb_spec (um_Name y) (um_Name user)). }
    rewrite String.eqb_refl. unfold livestreams_of. rewrite bind_filter.
    apply bind_ext_elem. intros l _.
    destruct (decide (lm_UserID l = um_ID user)) as [Hu|Hu].
    - rewrite bind_filter. apply bind_ext_elem. intros r _. unfold F.
      destruct (decide (rm_LivestreamID r = lm_ID l)).
      + by rewrite decide_True.
      + by rewrite decide_False by tauto.
    - symmetry. apply bind_all_nil. intros r _. unfold F.
      by rewrite decide_False by tauto. }
  rewrite bind_swap_perm.
  unfold reactions_on_livestreams_of. rewrite <-bind_if_fmap.
  apply eq_subrelation; [apply _|].
  apply bind_ext_elem. intros r _.
  destruct (decide (Exists (λ l, lm_ID l = rm_LivestreamID r ∧ lm_UserID l = um_ID user)
                           (livestreams db))) as [Hex|Hex].
  - apply Exists_exists in Hex as (l & Hl & Hid & Hu).
    rewrite (bind_unique lm_ID _ (livestreams db) l Hids Hl).
    + unfold F. by rewrite decide_True.
    + intros y Hy Hne. unfold F. rewrite decide_False; [done|].
      intros [_ Heq]. congruence.
  - apply bind_all_nil. intros l Hl. unfold F. rewrite decide_False; [done|].
    intros [Hu Heq]. apply Hex. apply Exists_exists. by exists l.
Qed.

Global Instance emoji_order_trans : Transitive emoji_order.
Proof.
  intros [a na] [b nb] [c nc]. unfold emoji_order. simpl.
  intros [Hab|[Eab Hab]] [Hbc|[Ebc Hbc]]; [left; lia..|].
  right. split; [lia|].
  destruct (String.ltb a c) eqn:Hac; [|done].
  destruct (key_ltb_total (K:=string) a b) as [->|[Hlt|Hlt]]; simpl in *;
    [congruence|congruence|].
  pose proof (key_ltb_trans (K:=string) b a c Hlt Hac). simpl in *. congruence.
Qed.

Global Instance emoji_order_total : Total emoji_order.
Proof.
  intros [a na] [b nb]. unfold emoji_order. simpl.
  destruct (lt_eq_lt_dec na nb) as [[Hlt|Heq]|Hgt]; [right; left; lia| |left; left; lia].
  destruct (String.ltb a b) eqn:Hab.
  - right. right. split; [done|].
    destruct (String.ltb b a) eqn:Hba; [|done].
    pose proof (key_ltb_trans (K:=string) a b a Hab Hba) as Haa. simpl in Haa.
    pose proof (key_ltb_irrefl (K:=string) a) as Hirr. simpl in Hirr. congruence.
  - left. right. done.
Qed.

Lemma emoji_groups_elem (names : list string) (g : string * nat) :
  g ∈ emoji_groups names ↔ g.1 ∈ names ∧ g.2 = occurrences g.1 names.
Proof.
  unfold emoji_groups, occurrences. rewrite list_elem_of_fmap. split.
  - intros (e & -> & He). rewrite elem_of_remove_dups in He. simpl. by split.
  - intros [He Hn]. exists g.1. split; [|by apply elem_of_remove_dups].
    destruct g; simpl in *; congruence.
Qed.

Lemma occurrences_perm (e : string) (names names' : list string) :
  names ≡ₚ names' → occurrences e names = occurrences e names'.
Proof. intros Hp. unfold occurrences. by rewrite Hp. Qed.

(** What [ORDER BY COUNT( * ) DESC, emoji_name DESC LIMIT 1] picks. *)
Lemma favorite_of_rows (rows : list string) :
  match fst <$> head (merge_sort emoji_order (emoji_groups rows)) with
  | None => rows = []
  | Some fav =>
      fav ∈ rows
      ∧ ∀ e, e ∈ rows →
             (occurrences e rows < occurrences fav rows)%nat
             ∨ (occurrences e rows = occurrences fav rows ∧ String.ltb fav e = false)
  end.
Proof.
  pose proof (merge_sort_Permutation emoji_order (emoji_groups rows)) as Hperm.
  pose proof (Sorted_merge_sort emoji_order (emoji_groups rows)) as Hsorted.
  apply (Sorted_StronglySorted emoji_order) in Hsorted.
  destruct (merge_sort emoji_order (emoji_groups rows)) as [|g S]; simpl.
  - destruct rows as [|e rows]; [done|]. exfalso.
    assert ((e, occurrences e (e :: rows)) ∈ emoji_groups (e :: rows)) as Hin.
    { apply emoji_groups_elem. split; [left|done]. }
    rewrite <-Hperm in Hin. by apply elem_of_nil in Hin.
  - assert (g ∈ emoji_groups rows) as Hg by (rewrite <-Hperm; left).
    apply emoji_groups_elem in Hg as [Hg1 Hg2]. split; [done|].
    intros e He.
    assert ((e, occurrences e rows) ∈ g :: S) as Hin.
    { rewrite Hperm. apply emoji_groups_elem. done. }
    apply StronglySorted_cons in Hsorted as [Hall _].
    assert (emoji_order g (e, occurrences e rows)) as Hord.
    { apply elem_of_cons in Hin as [<-|Hin].
      - right. split; [done|]. unfold String.ltb. by rewrite string_compare_refl.
      - rewrite Forall_forall in Hall. by apply Hall. }
    unfold emoji_order in Hord. simpl in Hord. rewrite Hg2 in Hord.
    destruct Hord as [?|[? ?]]; [left; lia|right; split; [lia|done]].
Qed.

(** C7.  In a snapshot with unique usernames and unique livestream ids, the
    favourite emoji reported for a user is empty when there is no reaction on
    the user's livestreams; otherwise it is an emoji name occurring among
    those reactions such that every name there occurs less often, or equally
    often without being lexicographically larger.  With "fire" and "heart"
    three times each, "heart" is reported. *)
Theorem C7_favorite_emoji :
  (∀ (db : Database) (user : UserModel),
     NoDup (um_Name <$> users db) → NoDup (lm_ID <$> livestreams db) →
     user ∈ users db →
     let names := rm_EmojiName <$> reactions_on_livestreams_of db (um_ID user) in
     ∃ stats,
       getUserStatisticsHandler db (um_Name user) = JSON StatusOK stats
       ∧ (names = [] → us_FavoriteEmoji stats = EmptyString)
       ∧ (names ≠ [] →
          us_FavoriteEmoji stats ∈ names
          ∧ ∀ e, e ∈ names →
                 (occurrences e names < occurrences (us_FavoriteEmoji stats) names)%nat
                 ∨ (occurrences e names = occurrences (us_FavoriteEmoji stats) names
                    ∧ String.ltb (us_FavoriteEmoji stats) e = false)))
  ∧ (let names := rm_EmojiName <$> reactions_on_livestreams_of db_fire_heart 1 in
     occurrences "fire" names = 3%nat
     ∧ occurrences "heart" names = 3%nat
     ∧ ∃ stats, getUserStatisticsHandler db_fire_heart "ann" = JSON StatusOK stats
                ∧ us_FavoriteEmoji stats = "heart"%string).
Proof.
  split.
  - intros db user Hnames Hids Huser names.
    unfold getUserStatisticsHandler. rewrite select_user_unique by done.
    eexists. split; [reflexivity|]. simpl.
    pose proof (favorite_emoji_rows_perm db user Hnames Hids Huser) as Hperm.
    fold names in Hperm.
    pose proof (favorite_of_rows (favorite_emoji_rows db (um_Name user))) as Hfav.
    unfold favorite_emoji_query.
    destruct (fst <$> head (merge_sort emoji_order
                              (emoji_groups (favorite_emoji_rows db (um_Name user)))))
      as [fav|]; simpl.
    + destruct Hfav as [Hin Hmax]. split.
      * intros Hnil. rewrite Hperm, Hnil in Hin. by apply elem_of_nil in Hin.
      * intros _. split; [by rewrite <-Hperm|].
        intros e He. rewrite <-Hperm in He.
        rewrite <-!(occurrences_perm _ _ _ Hperm). by apply Hmax.
    + split; [done|]. intros Hne. destruct Hne.
      rewrite Hfav in Hperm. by apply Permutation_nil in Hperm.
  - vm_compute. split_and!; [reflexivity..|]. eexists. split; reflexivity.
Qed.

(** C7, instantiated at "ann" in [db_fire_heart]. *)
Lemma C7_favorite_emoji_witness :
  ∃ stats,
    getUserStatisticsHandler db_fire_heart "ann" = JSON StatusOK stats
    ∧ (rm_EmojiName <$> reactions_on_livestreams_of db_fire_heart 1 = [] →
       us_FavoriteEmoji stats = EmptyString)
    ∧ (rm_EmojiName <$> reactions_on_livestreams_of db_fire_heart 1 ≠ [] →
       us_FavoriteEmoji stats ∈ rm_EmojiName <$> reactions_on_livestreams_of db_fire_heart 1
       ∧ ∀ e, e ∈ rm_EmojiName <$> reactions_on_livestreams_of db_fire_heart 1 →
              (occurrences e (rm_EmojiName <$> reactions_on_livestreams_of db_fire_heart 1)
               < occurrences (us_FavoriteEmoji stats)
                   (rm_EmojiName <$> reactions_on_livestreams_of db_fire_heart 1))%nat
              ∨ (occurrences e (rm_EmojiName <$> reactions_on_livestreams_of db_fire_heart 1)
                 = occurrences (us_FavoriteEmoji stats)
                     (rm_EmojiName <$> reactions_on_livestreams_of db_fire_heart 1)
                 ∧ String.ltb (us_FavoriteEmoji stats) e = false)).
Proof.
  refine (proj1 C7_favorite_emoji db_fire_heart (mkUser 1 "ann") _ _ _).
  - decide_closed.
  - decide_closed.
  - set_solver.
Defined.

(** ** Maximum tip and reports of a livestream *)

Lemma foldl_max_spec (zs : list Z) (z0 : Z) :
  foldl Z.max z0 zs ∈ z0 :: zs ∧ ∀ z, z ∈ z0 :: zs → z ≤ foldl Z.max z0 zs.
Proof.
  revert z0. induction zs as [|z1 zs IH]; intros z0; simpl.
  - split; [left|]. intros z Hz. apply list_elem_of_singleton in Hz. lia.
  - destruct (IH (Z.max z0 z1)) as [Hin Hmax]. split.
    + apply elem_of_cons in Hin as [Heq|Hin]; [|by do 2 right].
      rewrite Heq. destruct (Z.max_spec z0 z1) as [[_ ->]|[_ ->]]; [right|]; left.
    + intros z Hz. apply elem_of_cons in Hz as [->|Hz].
      * transitivity (Z.max z0 z1); [lia|]. apply Hmax. left.
      * apply elem_of_cons in Hz as [->|Hz].
        -- transitivity (Z.max z0 z1); [lia|]. apply Hmax. left.
        -- apply Hmax. by right.
Qed.

Lemma sql_max_spec (zs : list Z) :
  match sql_max zs with
  | None => zs = []
  | Some m => m ∈ zs ∧ ∀ z, z ∈ zs → z ≤ m
  end.
Proof. destruct zs as [|z zs]; simpl; [done|]. apply foldl_max_spec. Qed.

Section OneLivestream.
Context (db : Database) (livestreamID : Z).
Context (Hids : NoDup (lm_ID <$> livestreams db)).
Context (Hin : livestreamID ∈ lm_ID <$> livestreams db).

(** [WHERE l.id = ?] selects one row. *)
Lemma livestream_row_unique :
  ∃ l, lm_ID l = livestreamID
       ∧ filter (λ l, lm_ID l = livestreamID) (livestreams db) = [l].
Proof.
  apply list_elem_of_fmap in Hin as (l & Hid & Hl). exists l. split; [done|].
  rewrite Hid. by apply (filter_unique lm_ID).
Qed.

Lemma livestream_max_tip_tips_on :
  livestream_max_tip db livestreamID = default 0 (sql_max (tips_on db livestreamID)).
Proof.
  unfold livestream_max_tip, tips_on.
  destruct livestream_row_unique as (l & Hid & ->).
  rewrite bind_singleton, bind_singleton_fmap, Hid. done.
Qed.

Lemma livestream_total_reports_reports_on :
  livestream_total_reports db livestreamID
  = Z.of_nat (length (reports_on db livestreamID)).
Proof.
  unfold livestream_total_reports, reports_on.
  destruct livestream_row_unique as (l & Hid & ->).
  rewrite bind_singleton, bind_singleton_fmap, length_fmap, Hid. done.
Qed.

End OneLivestream.

(** C8.  In a snapshot with unique livestream ids, the statistics of an
    existing livestream report as max tip the largest tip among the comments
    on that livestream, 0 when it has no comment, and as total reports the
    number of spam reports against it.  The max tip is a function of those
    tips alone.  With tips 100, 50 and 0 the max tip is 100, while their sum
    150 is the livestream's score. *)
Theorem C8_max_tip_and_reports :
  (∀ (db : Database) (livestreamID : Z),
     NoDup (lm_ID <$> livestreams db) →
     livestreamID ∈ lm_ID <$> livestreams db →
     ∃ stats,
       getLivestreamStatisticsHandler db livestreamID = JSON StatusOK stats
       ∧ ls_MaxTip stats = default 0 (sql_max (tips_on db livestreamID))
       ∧ (tips_on db livestreamID = [] → ls_MaxTip stats = 0)
       ∧ (tips_on db livestreamID ≠ [] →
          ls_MaxTip stats ∈ tips_on db livestreamID
          ∧ ∀ t, t ∈ tips_on db livestreamID → t ≤ ls_MaxTip stats)
       ∧ ls_TotalReports stats = Z.of_nat (length (reports_on db livestreamID)))
  ∧ (tips_on db_tips 1 = [100; 50; 0]
     ∧ score_of (aggregate_scores (livestream_reaction_counts db_tips)
                                  (livestream_total_tips db_tips)) 1 = 150
     ∧ ∃ stats, getLivestreamStatisticsHandler db_tips 1 = JSON StatusOK stats
                ∧ ls_MaxTip stats = 100
                ∧ ls_TotalReports stats = 2).
Proof.
  split.
  - intros db livestreamID Hids Hin.
    unfold getLivestreamStatisticsHandler.
    destruct (getLivestream db livestreamID) as [l|] eqn:Hf.
    2:{ by apply getLivestream_None in Hf. }
    eexists. split; [reflexivity|]. simpl.
    rewrite livestream_max_tip_tips_on, livestream_total_reports_reports_on by done.
    pose proof (sql_max_spec (tips_on db livestreamID)) as Hmax.
    destruct (sql_max (tips_on db livestreamID)) as [m|]; simpl.
    + split_and!; [done| |done|done].
      intros Hnil. destruct Hmax as [Hm _]. rewrite Hnil in Hm.
      by apply elem_of_nil in Hm.
    + split_and!; done.
  - vm_compute. split_and!; [reflexivity..|].
    eexists. split_and!; reflexivity.
Qed.

(** C8, instantiated at livestream 1 of [db_tips]. *)
Lemma C8_max_tip_and_reports_witness :
  ∃ stats,
    getLivestreamStatisticsHandler db_tips 1 = JSON StatusOK stats
    ∧ ls_MaxTip stats = default 0 (sql_max (tips_on db_tips 1))
    ∧ (tips_on db_tips 1 = [] → ls_MaxTip stats = 0)
    ∧ (tips_on db_tips 1 ≠ [] →
       ls_MaxTip stats ∈ tips_on db_tips 1
       ∧ ∀ t, t ∈ tips_on db_tips 1 → t ≤ ls_MaxTip stats)
    ∧ ls_TotalReports stats = Z.of_nat (length (reports_on db_tips 1)).
Proof.
  refine (proj1 C8_max_tip_and_reports db_tips 1 _ _).
  - decide_closed.
  - decide_closed.
Defined.

(** ** Determinism of the handlers *)

Lemma build_ranking_perm {K M : Type} `{TieBreakKey K}
    (entity_id : M → Z) (entity_key : M → K)
    (population population' : list M) (scoreMap : gmap Z Z) :
  population' ≡ₚ population →
  build_ranking entity_id entity_key population' scoreMap
  ≡ₚ build_ranking entity_id entity_key population scoreMap.
Proof.
  intros Hperm. rewrite !build_ranking_eq. unfold real_entries.
  rewrite (Permutation_length Hperm).
  apply Permutation_app; [done|]. by apply fmap_Permutation.
Qed.

Lemma EventCount_perm (rcs rcs' : list ReactionCount) id :
  NoDup (rc_ID <$> rcs) → rcs ≡ₚ rcs' → EventCount rcs id = EventCount rcs' id.
Proof. intros Hnd Hp. unfold EventCount. by rewrite (find_row_perm rc_ID rcs rcs'). Qed.

Lemma MonetarySum_perm (tts tts' : list TotalTip) id :
  NoDup (tt_ID <$> tts) → tts ≡ₚ tts' → MonetarySum tts id = MonetarySum tts' id.
Proof. intros Hnd Hp. unfold MonetarySum. by rewrite (find_row_perm tt_ID tts tts'). Qed.

(** Whatever order the rows arrive in and whatever arrangement [sort.Sort]
    picks, the run answers what the executable handler answers. *)
Lemma getUserStatistics_run_handler db username response :
  NoDup (um_Name <$> users db) →
  getUserStatistics_run db username response →
  response = getUserStatisticsHandler db username.
Proof.
  intros Hnames
    [Hnone|user users' rcs tts sorted Huser Hname Husers Hrcs Htts Hsorted];
    unfold getUserStatisticsHandler.
  - apply select_user_None in Hnone. by rewrite Hnone.
  - subst username. rewrite select_user_unique by done. f_equal.
    assert (NoDup (rc_ID <$> rcs)) as Hndrc.
    { rewrite Hrcs. apply user_reaction_counts_NoDup. }
    assert (NoDup (tt_ID <$> tts)) as Hndtt.
    { rewrite Htts. apply user_total_tips_NoDup. }
    apply sort_Sort_unique in Hsorted. subst sorted.
    unfold assembleUserStatistics. f_equal.
    + f_equal. apply sort_Sort_perm_eq. unfold user_ranking.
      rewrite (aggregate_scores_perm rcs (user_reaction_counts db)
                 tts (user_total_tips db)) by done.
      by apply build_ranking_perm.
    + rewrite !target_reactions_EventCount
        by (done || apply user_reaction_counts_NoDup).
      by apply EventCount_perm.
    + rewrite !target_tip_MonetarySum by (done || apply user_total_tips_NoDup).
      by apply MonetarySum_perm.
Qed.

Lemma getLivestreamStatistics_run_handler db livestreamID response :
  getLivestreamStatistics_run db livestreamID response →
  response = getLivestreamStatisticsHandler db livestreamID.
Proof.
  intros [Hnone|livestreams' rcs tts sorted Hin Hls Hrcs Htts Hsorted];
    unfold getLivestreamStatisticsHandler.
  - apply getLivestream_None in Hnone. by rewrite Hnone.
  - destruct (getLivestream db livestreamID) as [l|] eqn:Hsel.
    2:{ by apply getLivestream_None in Hsel. }
    f_equal.
    assert (NoDup (rc_ID <$> rcs)) as Hndrc.
    { rewrite Hrcs. apply livestream_reaction_counts_NoDup. }
    assert (NoDup (tt_ID <$> tts)) as Hndtt.
    { rewrite Htts. apply livestream_total_tips_NoDup. }
    apply sort_Sort_unique in Hsorted. subst sorted.
    unfold assembleLivestreamStatistics. f_equal.
    + f_equal. apply sort_Sort_perm_eq. unfold livestream_ranking.
      rewrite (aggregate_scores_perm rcs (livestream_reaction_counts db)
                 tts (livestream_total_tips db)) by done.
      by apply build_ranking_perm.
    + rewrite !target_reactions_EventCount
        by (done || apply livestream_reaction_counts_NoDup).
      by apply EventCount_perm.
Qed.

Lemma getUserStatisticsHandler_run db username :
  getUserStatistics_run db username (getUserStatisticsHandler db username).
Proof.
  unfold getUserStatisticsHandler.
  destruct (select_user_by_name db username) as [user|] eqn:Hsel.
  - apply select_user_Some in Hsel as [Huser Hname].
    apply (user_run_ok db username user (users db)
             (user_reaction_counts db) (user_total_tips db)
             (sort_Sort (user_ranking (users db) (user_reaction_counts db)
                           (user_total_tips db)))); [done..|].
    apply sort_Sort_meets_contract.
  - apply user_run_not_found. by apply select_user_None.
Qed.

Lemma getLivestreamStatisticsHandler_run db livestreamID :
  getLivestreamStatistics_run db livestreamID
    (getLivestreamStatisticsHandler db livestreamID).
Proof.
  unfold getLivestreamStatisticsHandler.
  destruct (getLivestream db livestreamID) as [l|] eqn:Hsel.
  - apply (livestream_run_ok db livestreamID (livestreams db)
             (livestream_reaction_counts db) (livestream_total_tips db)
             (sort_Sort (livestream_ranking (livestreams db)
                           (livestream_reaction_counts db)
                           (livestream_total_tips db)))); [|done..|].
    + destruct (decide (livestreamID ∈ lm_ID <$> livestreams db)) as [|Hnot]; [done|].
      apply getLivestream_None in Hnot. congruence.
    + apply sort_Sort_meets_contract.
  - apply livestream_run_not_found. by apply getLivestream_None.
Qed.

(** C9.  On one snapshot (usernames being unique) and one target, any two
    runs of a statistics handler answer the same: neither the order in which
    the unordered queries return their rows nor the arrangement the unstable
    sort picks can change the statistics, the rank included; and the handler
    does answer (the executable handler is such a run). *)
Theorem C9_statistics_deterministic :
  (∀ (db : Database) (username : string) (r1 r2 : Response UserStatistics),
     NoDup (um_Name <$> users db) →
     getUserStatistics_run db username r1 →
     getUserStatistics_run db username r2 → r1 = r2)
  ∧ (∀ (db : Database) (username : string),
       getUserStatistics_run db username (getUserStatisticsHandler db username))
  ∧ (∀ (db : Database) (livestreamID : Z) (r1 r2 : Response LivestreamStatistics),
       getLivestreamStatistics_run db livestreamID r1 →
       getLivestreamStatistics_run db livestreamID r2 → r1 = r2)
  ∧ (∀ (db : Database) (livestreamID : Z),
       getLivestreamStatistics_run db livestreamID
         (getLivestreamStatisticsHandler db livestreamID)).
Proof.
  split_and!.
  - intros db username r1 r2 Hnames H1 H2.
    rewrite (getUserStatistics_run_handler db username r1 Hnames H1).
    by rewrite (getUserStatistics_run_handler db username r2 Hnames H2).
  - apply getUserStatisticsHandler_run.
  - intros db livestreamID r1 r2 H1 H2.
    rewrite (getLivestreamStatistics_run_handler db livestreamID r1 H1).
    by rewrite (getLivestreamStatistics_run_handler db livestreamID r2 H2).
  - apply getLivestreamStatisticsHandler_run.
Qed.

(** C9, instantiated: a run on [db_idle_user] that receives the users in
    the other order, against the executable handler. *)
Lemma C9_statistics_deterministic_witness :
  JSON StatusOK
    (assembleUserStatistics db_idle_user "ann" (mkUser 1 "ann")
       (user_reaction_counts db_idle_user) (user_total_tips db_idle_user)
       [mkEntry EmptyString 0; mkEntry EmptyString 0;
        mkEntry "bob"%string 0; mkEntry "ann"%string 31])
  = getUserStatisticsHandler db_idle_user "ann".
Proof.
  refine (proj1 C9_statistics_deterministic db_idle_user "ann"%string _ _ _ _ _).
  - decide_closed.
  - apply (user_run_ok db_idle_user "ann" (mkUser 1 "ann")
             [mkUser 2 "bob"; mkUser 1 "ann"]
             (user_reaction_counts db_idle_user) (user_total_tips db_idle_user)).
    + set_solver.
    + reflexivity.
    + apply perm_swap.
    + reflexivity.
    + reflexivity.
    + split; [|decide_closed].
      vm_compute. reflexivity.
  - apply (proj1 (proj2 C9_statistics_deterministic)).
Defined.

(** ** Response assembly of [getReactionsHandler] *)

Section GetReactionsTheory.
Context {Tag : Type} (sha256_hex : list Byte.byte → string).
Context (fallbackImageHash : string) (tags : list Tag).

(** The loop runs to its end whenever the slice it stores into is long
    enough for every index it uses. *)
Lemma assemble_from_in_bounds (i : nat) (rows : list ReactionWithDetails)
    (reactionsResponse : list (Reaction Tag)) :
  (i + length rows ≤ length reactionsResponse)%nat →
  ∃ out, assemble_from sha256_hex fallbackImageHash tags i rows reactionsResponse = Done out
         ∧ length out = length reactionsResponse.
Proof.
  revert i reactionsResponse. induction rows as [|row rows IH]; intros i resp Hlen.
  - by exists resp.
  - simpl in *. unfold slice_store. rewrite decide_True by lia.
    destruct (IH (S i) (<[i := reaction_literal sha256_hex fallbackImageHash tags row]> resp))
      as (out & -> & Hout).
    { rewrite length_insert. lia. }
    exists out. split; [done|]. by rewrite Hout, length_insert.
Qed.

(** The first store outside the slice stops the loop with a panic. *)
Lemma assemble_from_out_of_bounds (i : nat) (row : ReactionWithDetails)
    (rows : list ReactionWithDetails) (reactionsResponse : list (Reaction Tag)) :
  (length reactionsResponse ≤ i)%nat →
  assemble_from sha256_hex fallbackImageHash tags i (row :: rows) reactionsResponse
  = PanicIndexOutOfRange i (length reactionsResponse).
Proof.
  intros Hlen. simpl. unfold slice_store. by rewrite decide_False by lia.
Qed.

(** C10, on the code: [reactionsResponse] is created empty and never grown,
    so for every non-empty list of rows the very first store, at index 0, is
    outside the slice (length 0) and the handler panics; only the empty list
    of rows is assembled. *)
Theorem C10_first_store_out_of_range :
  (∀ (row : ReactionWithDetails) (rows : list ReactionWithDetails),
     getReactionsHandler_assemble sha256_hex fallbackImageHash tags (row :: rows)
     = PanicIndexOutOfRange 0 0)
  ∧ getReactionsHandler_assemble sha256_hex fallbackImageHash tags [] = Done [].
Proof.
  split; [|reflexivity].
  intros row rows. unfold getReactionsHandler_assemble.
  by apply assemble_from_out_of_bounds.
Qed.

End GetReactionsTheory.

(** * Further properties of the code *)

(** ** The comparators and the sort *)

(** X1.  [UserRanking.Less] and [LivestreamRanking.Less] are strict total
    orders on entries: no entry is less than itself, the relation is
    transitive, and of two different entries exactly one is less than the
    other.  Entries that compare equal both ways are the same entry. *)
Theorem X1_Less_strict_total_order :
  ((∀ a, UserRanking_Less a a = false)
   ∧ (∀ a b c, UserRanking_Less a b = true → UserRanking_Less b c = true →
               UserRanking_Less a c = true)
   ∧ (∀ a b, UserRanking_Less a b = true → UserRanking_Less b a = false)
   ∧ (∀ a b, UserRanking_Less a b = false → UserRanking_Less b a = false → a = b))
  ∧ ((∀ a, LivestreamRanking_Less a a = false)
     ∧ (∀ a b c, LivestreamRanking_Less a b = true → LivestreamRanking_Less b c = true →
                 LivestreamRanking_Less a c = true)
     ∧ (∀ a b, LivestreamRanking_Less a b = true → LivestreamRanking_Less b a = false)
     ∧ (∀ a b, LivestreamRanking_Less a b = false →
               LivestreamRanking_Less b a = false → a = b)).
Proof.
  unfold UserRanking_Less, LivestreamRanking_Less.
  split; (split_and!;
    [apply Less_irrefl|apply Less_trans|apply Less_asym|]);
    intros a b Hab Hba; destruct (Less_total a b) as [?|[?|?]]; congruence.
Qed.

(** X1, instantiated: ("ann", 3) < ("bob", 3) < ("ann", 4). *)
Lemma X1_Less_strict_total_order_witness :
  UserRanking_Less (mkEntry "ann"%string 3) (mkEntry "ann"%string 4) = true.
Proof.
  refine (proj1 (proj2 (proj1 X1_Less_strict_total_order))
            (mkEntry "ann"%string 3) (mkEntry "bob"%string 3) (mkEntry "ann"%string 4) _ _);
    reflexivity.
Defined.

(** X2.  For a given slice, all arrangements that meet the contract of
    [sort.Sort] (a rearrangement of the slice in which no later entry is
    [Less] than an earlier one) are one and the same list: that the library
    sort is not stable cannot be observed on a ranking. *)
Theorem X2_sorted_arrangement_unique :
  (∀ ranking out1 out2 : list UserRankingEntry,
     sort_Sort_contract ranking out1 → sort_Sort_contract ranking out2 → out1 = out2)
  ∧ (∀ ranking out1 out2 : list LivestreamRankingEntry,
       sort_Sort_contract ranking out1 → sort_Sort_contract ranking out2 → out1 = out2).
Proof.
  split; intros ranking out1 out2 H1 H2;
    rewrite (sort_Sort_unique ranking out1 H1);
    by rewrite (sort_Sort_unique ranking out2 H2).
Qed.

(** X2, instantiated: a hand-sorted arrangement against the merge sort. *)
Lemma X2_sorted_arrangement_unique_witness :
  [mkEntry 2 0; mkEntry 1 5; mkEntry 3 5]
  = sort_Sort [mkEntry 3 5; mkEntry 2 0; mkEntry 1 5].
Proof.
  refine (proj2 X2_sorted_arrangement_unique
            [mkEntry 3 5; mkEntry 2 0; mkEntry 1 5] _ _ _ _).
  - split; [|decide_closed].
    change ([mkEntry 2 0; mkEntry 1 5] ++ [mkEntry 3 5]
            ≡ₚ [mkEntry 3 5] ++ [mkEntry 2 0; mkEntry 1 5]).
    apply Permutation_app_comm.
  - apply sort_Sort_meets_contract.
Defined.

(** ** The rank loop *)

Section RankLoop.
Context {K : Type} `{TieBreakKeyLaws K}.

Lemma resolve_rank_present (s : list (RankingEntry K)) (t : K) :
  t ∈ Key <$> s → 1 ≤ resolve_rank s t ≤ Z.of_nat (length s).
Proof.
  intros Ht. destruct (last_occurrence s t Ht) as (s1 & e & s2 & -> & He & Hs2).
  rewrite resolve_rank_split by done. rewrite length_app. simpl. lia.
Qed.

(** X3.  The backward scan never fails: when no entry carries the target
    key it runs off the slice and reports [len + 1], and it reports
    [len + 1] only then; when the key occurs, the rank is the distance of
    its last occurrence from the end of the slice, counted from 1, and so
    lies in [1..len]. *)
Theorem X3_scan_reports_position_or_len_plus_one (s : list (RankingEntry K)) (t : K) :
  (resolve_rank s t = 1 + Z.of_nat (length s) ↔ t ∉ Key <$> s)
  ∧ (t ∈ Key <$> s → 1 ≤ resolve_rank s t ≤ Z.of_nat (length s))
  ∧ (∀ i e, s !! i = Some e → Key e = t →
            Forall (λ x, Key x ≠ t) (drop (S i) s) →
            resolve_rank s t = Z.of_nat (length s) - Z.of_nat i).
Proof.
  pose proof (resolve_rank_present s t) as Hin.
  split_and!.
  - split.
    + intros Heq Ht. specialize (Hin Ht). lia.
    + intros Hnot. apply resolve_rank_missing.
      apply Forall_forall. intros x Hx Hk. apply Hnot.
      apply list_elem_of_fmap. by exists x.
  - done.
  - intros i e Hi He Hrest.
    pose proof (lookup_lt_Some _ _ _ Hi) as Hlt.
    rewrite <-(take_drop_middle s i e Hi) at 1.
    rewrite resolve_rank_split by done.
    rewrite length_drop. lia.
Qed.

End RankLoop.

(** X3, instantiated: the second of three entries is the last with key 7. *)
Lemma X3_scan_reports_position_or_len_plus_one_witness :
  resolve_rank [mkEntry 7 1; mkEntry 7 2; mkEntry 9 3] 7 = 3 - 1.
Proof.
  refine (proj2 (proj2 (X3_scan_reports_position_or_len_plus_one
                          [mkEntry 7 1; mkEntry 7 2; mkEntry 9 3] 7))
            1%nat (mkEntry 7 2) _ _ _).
  - reflexivity.
  - reflexivity.
  - decide_closed.
Defined.

(** ** What the reported rank counts *)

(** X4.  The rank either handler reports for an entity whose key is not the
    zero key, or whose entry is not below the zero entry, is one more than
    the number of entities of the population that the comparator places
    strictly after it, plus the population size when its own entry is below
    the zero entry (negative score, or score 0 with a negative id).  In
    particular an entity not below the zero entry that no other entity beats
    is reported at rank 1. *)
Theorem X4_rank_counts_better_entities :
  (∀ (users : list UserModel) (scoreMap : gmap Z Z) (x : UserModel),
     NoDup (um_Name <$> users) → x ∈ users →
     um_Name x ≠ EmptyString
       ∨ Less (entry_of um_ID um_Name scoreMap x) placeholder = false →
     let better :=
       filter (λ y, Less (entry_of um_ID um_Name scoreMap x)
                         (entry_of um_ID um_Name scoreMap y) = true) users in
     compute_rank um_ID um_Name users scoreMap (um_Name x)
     = 1 + Z.of_nat (length better)
       + (if Less (entry_of um_ID um_Name scoreMap x) placeholder
          then Z.of_nat (length users) else 0)
     ∧ (better = [] → 0 ≤ score_of scoreMap (um_ID x) →
        compute_rank um_ID um_Name users scoreMap (um_Name x) = 1))
  ∧ (∀ (livestreams : list LivestreamModel) (scoreMap : gmap Z Z) (x : LivestreamModel),
       NoDup (lm_ID <$> livestreams) → x ∈ livestreams →
       lm_ID x ≠ 0 ∨ Less (entry_of lm_ID lm_ID scoreMap x) placeholder = false →
       let better :=
         filter (λ y, Less (entry_of lm_ID lm_ID scoreMap x)
                           (entry_of lm_ID lm_ID scoreMap y) = true) livestreams in
       compute_rank lm_ID lm_ID livestreams scoreMap (lm_ID x)
       = 1 + Z.of_nat (length better)
         + (if Less (entry_of lm_ID lm_ID scoreMap x) placeholder
            then Z.of_nat (length livestreams) else 0)
       ∧ (better = [] → 0 ≤ score_of scoreMap (lm_ID x) → 0 ≤ lm_ID x →
          compute_rank lm_ID lm_ID livestreams scoreMap (lm_ID x) = 1)).
Proof.
  split.
  - intros users scoreMap x Hnd Hx Hshadow better.
    assert (compute_rank um_ID um_Name users scoreMap (um_Name x)
            = 1 + Z.of_nat (length better)
              + (if Less (entry_of um_ID um_Name scoreMap x) placeholder
                 then Z.of_nat (length users) else 0)) as Hrank.
    { rewrite compute_rank_count by done.
      rewrite rank_among_real_count by done.
      unfold above, real_entries, better. by rewrite length_filter_fmap. }
    split; [done|].
    intros Hnone Hscore. rewrite Hrank, Hnone.
    assert (Less (entry_of um_ID um_Name scoreMap x) placeholder = false) as ->
      by by apply user_entry_not_below_zero.
    reflexivity.
  - intros livestreams scoreMap x Hnd Hx Hshadow better.
    assert (compute_rank lm_ID lm_ID livestreams scoreMap (lm_ID x)
            = 1 + Z.of_nat (length better)
              + (if Less (entry_of lm_ID lm_ID scoreMap x) placeholder
                 then Z.of_nat (length livestreams) else 0)) as Hrank.
    { rewrite compute_rank_count by done.
      rewrite rank_among_real_count by done.
      unfold above, real_entries, better. by rewrite length_filter_fmap. }
    split; [done|].
    intros Hnone Hscore Hid. rewrite Hrank, Hnone.
    assert (Less (entry_of lm_ID lm_ID scoreMap x) placeholder = false) as ->
      by by apply livestream_entry_not_below_zero.
    reflexivity.
Qed.

(** X4, instantiated at user "A" of the example population: only "B" is
    placed after "A". *)
Lemma X4_rank_counts_better_entities_witness :
  compute_rank um_ID um_Name example_users
    (aggregate_scores example_reactionCounts example_totalTips) "A"%string
  = 1 + Z.of_nat (length
          (filter (λ y, Less (entry_of um_ID um_Name
                                (aggregate_scores example_reactionCounts example_totalTips)
                                (mkUser 1 "A"))
                             (entry_of um_ID um_Name
                                (aggregate_scores example_reactionCounts example_totalTips)
                                y) = true)
                  example_users))
    + (if Less (entry_of um_ID um_Name
                  (aggregate_scores example_reactionCounts example_totalTips)
                  (mkUser 1 "A")) placeholder
       then Z.of_nat (length example_users) else 0).
Proof.
  refine (proj1 (proj1 X4_rank_counts_better_entities example_users
                   (aggregate_scores example_reactionCounts example_totalTips)
                   (mkUser 1 "A") _ _ _)).
  - decide_closed.
  - set_solver.
  - left. discriminate.
Defined.

(** The keys of the slice: the zero key of each entry [make] created, and
    the key of each entity. *)
Lemma build_ranking_key_iff {K M : Type} `{TieBreakKeyLaws K}
    (entity_id : M → Z) (entity_key : M → K)
    (population : list M) (sm : gmap Z Z) (t : K) :
  t ∈ Key <$> build_ranking entity_id entity_key population sm
  ↔ (population ≠ [] ∧ t = key_zero) ∨ t ∈ entity_key <$> population.
Proof.
  rewrite build_ranking_eq, fmap_app, real_entries_keys, elem_of_app.
  unfold make_ranking. rewrite fmap_replicate. simpl.
  split; (intros [Hz|Hr]; [left|by right]).
  - apply elem_of_replicate in Hz as [-> Hn]. split; [|done].
    intros ->. by apply Hn.
  - destruct Hz as [Hne ->]. apply elem_of_replicate. split; [done|].
    by destruct population.
Qed.

(** The scan runs off the front of the slice exactly when the key is
    missing. *)
Lemma resolve_rank_off_the_front {K : Type} `{TieBreakKeyLaws K}
    (s : list (RankingEntry K)) (t : K) :
  t ∉ Key <$> s → resolve_rank s t = 1 + Z.of_nat (length s).
Proof.
  intros Hin. apply resolve_rank_missing, Forall_forall.
  intros x Hx Hk. apply Hin, list_elem_of_fmap. by exists x.
Qed.

(** X5.  Whenever a statistics handler answers 200, the rank in the answer
    is at least 1.  For a livestream it is at most twice the population size
    (the slice that is scanned holds the population and as many zero
    entries, and the requested id is among them).  For a user the same bound
    holds when the requested string is empty or is, byte for byte, the name
    of a user, hence always under a binary collation; when the column
    equates the requested string with a stored name although no stored name
    has its bytes, the scan finds no entry and the rank is twice the
    population size plus one. *)
Theorem X5_reported_rank_bounds :
  (∀ (name_eq : string → string → bool) (db : Database) (username : string)
     (stats : UserStatistics),
     getUserStatisticsHandler_collated name_eq db username = JSON StatusOK stats →
     1 ≤ us_Rank stats ≤ 2 * Z.of_nat (length (users db)) + 1
     ∧ (username = EmptyString ∨ username ∈ um_Name <$> users db →
        us_Rank stats ≤ 2 * Z.of_nat (length (users db)))
     ∧ (username ≠ EmptyString → username ∉ um_Name <$> users db →
        us_Rank stats = 2 * Z.of_nat (length (users db)) + 1))
  ∧ (∀ (db : Database) (username : string) (stats : UserStatistics),
       getUserStatisticsHandler_collated String.eqb db username = JSON StatusOK stats →
       1 ≤ us_Rank stats ≤ 2 * Z.of_nat (length (users db)))
  ∧ (∀ (db : Database) (livestreamID : Z) (stats : LivestreamStatistics),
       getLivestreamStatisticsHandler db livestreamID = JSON StatusOK stats →
       1 ≤ ls_Rank stats ≤ 2 * Z.of_nat (length (livestreams db))).
Proof.
  assert (∀ (name_eq : string → string → bool) (db : Database) (username : string)
            (stats : UserStatistics),
            getUserStatisticsHandler_collated name_eq db username = JSON StatusOK stats →
            1 ≤ us_Rank stats ≤ 2 * Z.of_nat (length (users db)) + 1
            ∧ (username = EmptyString ∨ username ∈ um_Name <$> users db →
               us_Rank stats ≤ 2 * Z.of_nat (length (users db)))
            ∧ (username ≠ EmptyString → username ∉ um_Name <$> users db →
               us_Rank stats = 2 * Z.of_nat (length (users db)) + 1)) as Huser.
  { intros name_eq db username stats. unfold getUserStatisticsHandler_collated.
    destruct (select_user_by_name_collated name_eq db username) as [user|] eqn:Hsel;
      [|discriminate].
    intros [= <-]. simpl.
    apply select_user_collated_Some in Hsel as [Huser _].
    set (sorted := sort_Sort (user_ranking (users db) (user_reaction_counts db)
                                (user_total_tips db))).
    assert (length sorted = (2 * length (users db))%nat) as Hlen.
    { unfold sorted, user_ranking. by rewrite sort_Sort_length, build_ranking_length. }
    assert (username ∈ Key <$> sorted
            ↔ (users db ≠ [] ∧ username = EmptyString)
              ∨ username ∈ um_Name <$> users db) as Hkeys.
    { unfold sorted, user_ranking. rewrite sort_Sort_Permutation.
      exact (build_ranking_key_iff um_ID um_Name (users db) _ username). }
    assert (users db ≠ []) as Hne.
    { intros Hnil. rewrite Hnil in Huser. by apply elem_of_nil in Huser. }
    pose proof (resolve_rank_bounds sorted username) as Hb.
    split; [|split].
    - lia.
    - intros Hin.
      assert (username ∈ Key <$> sorted) as Hk.
      { apply Hkeys. destruct Hin as [->|Hin]; [by left|by right]. }
      pose proof (resolve_rank_present sorted username Hk). lia.
    - intros Hnz Hnot.
      rewrite resolve_rank_off_the_front; [lia|].
      intros Hk. apply Hkeys in Hk as [[_ ?]|?]; done. }
  split; [|split].
  - exact Huser.
  - intros db username stats Hok.
    destruct (Huser String.eqb db username stats Hok) as (Hb & Hle & _).
    split; [lia|]. apply Hle. right.
    unfold getUserStatisticsHandler_collated in Hok.
    destruct (select_user_by_name_collated String.eqb db username) as [user|] eqn:Hsel;
      [|discriminate].
    apply select_user_collated_Some in Hsel as [Hu Heq].
    apply String.eqb_eq in Heq as <-.
    apply list_elem_of_fmap. by exists user.
  - intros db livestreamID stats. unfold getLivestreamStatisticsHandler.
    destruct (getLivestream db livestreamID) as [l|] eqn:Hsel; [|discriminate].
    intros [= <-]. simpl.
    apply (find_row_elem lm_ID) in Hsel as [Hl Hid].
    pose proof (resolve_rank_present
                  (sort_Sort (livestream_ranking (livestreams db)
                                (livestream_reaction_counts db)
                                (livestream_total_tips db))) livestreamID) as Hin.
    rewrite sort_Sort_length in Hin. unfold livestream_ranking in Hin.
    rewrite build_ranking_length in Hin.
    unfold livestream_ranking.
    assert (livestreamID ∈ Key <$> sort_Sort
              (build_ranking lm_ID lm_ID (livestreams db)
                 (aggregate_scores (livestream_reaction_counts db)
                                   (livestream_total_tips db))))
      as Hkey.
    { rewrite sort_Sort_Permutation, <-Hid. by apply (build_ranking_keys lm_ID lm_ID). }
    specialize (Hin Hkey). lia.
Qed.

(** X5, instantiated under the collation that ignores letter case: the
    request "BOB" finds the idle user "bob" of [db_idle_user], and the scan
    finds no entry among the four of the slice. *)
Lemma X5_reported_rank_bounds_witness :
  us_Rank {| us_Rank := 5; us_ViewersCount := 0; us_TotalReactions := 0;
             us_TotalLivecomments := 0; us_TotalTip := 0;
             us_FavoriteEmoji := EmptyString |}
  = 2 * Z.of_nat (length (users db_idle_user)) + 1.
Proof.
  refine (proj2 (proj2 (proj1 X5_reported_rank_bounds name_eq_nocase db_idle_user
                          "BOB"%string
                          {| us_Rank := 5; us_ViewersCount := 0; us_TotalReactions := 0;
                             us_TotalLivecomments := 0; us_TotalTip := 0;
                             us_FavoriteEmoji := EmptyString |} _)) _ _).
  - vm_compute. reflexivity.
  - discriminate.
  - decide_closed.
Defined.

(** ** [Len] and [Swap] *)

Section SwapTheory.
Context {K : Type}.
Implicit Types r : list (RankingEntry K).

Lemma slice_index_Some r (i : Z) e :
  slice_index r i = Some e ↔ 0 ≤ i ∧ r !! Z.to_nat i = Some e.
Proof.
  unfold slice_index. destruct (decide (0 ≤ i)) as [Hi|Hi].
  - split; [by split|by intros [_ ?]].
  - split; [done|]. by intros [? _].
Qed.

Lemma slice_index_is_Some r (i : Z) :
  is_Some (slice_index r i) ↔ 0 ≤ i < Len r.
Proof.
  unfold slice_index, Len. destruct (decide (0 ≤ i)) as [Hi|Hi].
  - rewrite lookup_lt_is_Some. lia.
  - split; [by intros [? ?]|lia].
Qed.

Lemma insert_head_perm {A} (l : list A) (k : nat) (x b : A) :
  l !! k = Some b → b :: <[k := x]> l ≡ₚ x :: l.
Proof.
  revert k. induction l as [|y l IH]; intros [|k] Hk; simpl in *; try discriminate.
  - injection Hk as ->. apply perm_swap.
  - etransitivity; [apply perm_swap|].
    etransitivity; [apply perm_skip, (IH k Hk)|apply perm_swap].
Qed.

Lemma insert_swap_perm {A} (l : list A) (i j : nat) (a b : A) :
  l !! i = Some a → l !! j = Some b → i ≠ j →
  <[j := a]> (<[i := b]> l) ≡ₚ l.
Proof.
  revert i j. induction l as [|x l IH]; intros [|i] [|j] Hi Hj Hne;
    simpl in *; try discriminate; try done.
  - injection Hi as ->. by apply insert_head_perm.
  - injection Hj as ->. by apply insert_head_perm.
  - apply perm_skip, IH; [done..|]. congruence.
Qed.

(** X6.  [Swap(i, j)] runs without panic exactly when both indices are
    within [0..Len); it then exchanges the entries at [i] and [j], leaves
    every other position, the length and the multiset of entries unchanged,
    and swapping the same two indices again restores the slice. *)
Theorem X6_Swap_exchanges_two_entries r (i j : Z) :
  (is_Some (Swap r i j) ↔ 0 ≤ i < Len r ∧ 0 ≤ j < Len r)
  ∧ (∀ r', Swap r i j = Some r' →
           Len r' = Len r
           ∧ r' ≡ₚ r
           ∧ slice_index r' i = slice_index r j
           ∧ slice_index r' j = slice_index r i
           ∧ (∀ k, k ≠ i → k ≠ j → slice_index r' k = slice_index r k)
           ∧ Swap r' i j = Some r).
Proof.
  split.
  - unfold Swap. rewrite <-!slice_index_is_Some.
    destruct (slice_index r j), (slice_index r i); split;
      intros H; try (by destruct H as [[? ?] [? ?]]); try (by destruct H);
      try (split; by eexists); by eexists.
  - intros r' Hswap. unfold Swap in Hswap.
    destruct (slice_index r j) as [rj|] eqn:Hj; [|done].
    destruct (slice_index r i) as [ri|] eqn:Hi; [|done].
    injection Hswap as <-.
    apply slice_index_Some in Hi as [Hi0 Hi], Hj as [Hj0 Hj].
    pose proof (lookup_lt_Some _ _ _ Hi) as Hilt.
    pose proof (lookup_lt_Some _ _ _ Hj) as Hjlt.
    assert (slice_index (<[Z.to_nat j := ri]> (<[Z.to_nat i := rj]> r)) i = Some rj
            ∧ slice_index (<[Z.to_nat j := ri]> (<[Z.to_nat i := rj]> r)) j = Some ri)
      as [Hi' Hj'].
    { rewrite !slice_index_Some. split; (split; [done|]).
      - destruct (decide (Z.to_nat j = Z.to_nat i)) as [Heq|Hne].
        + rewrite Heq, list_lookup_insert_eq by (rewrite length_insert; lia).
          rewrite Heq in Hj. congruence.
        + rewrite list_lookup_insert_ne by done.
          by apply list_lookup_insert_eq.
      - apply list_lookup_insert_eq. rewrite length_insert. lia. }
    split_and!.
    + unfold Len. by rewrite !length_insert.
    + destruct (decide (Z.to_nat i = Z.to_nat j)) as [Heq|Hne].
      * rewrite Heq in Hi |- *. assert (ri = rj) as -> by congruence.
        rewrite list_insert_insert_eq. by rewrite list_insert_id.
      * by apply insert_swap_perm.
    + by rewrite Hi'.
    + by rewrite Hj'.
    + intros k Hki Hkj. unfold slice_index.
      destruct (decide (0 ≤ k)); [|done].
      rewrite !list_lookup_insert_ne by lia. done.
    + unfold Swap. rewrite Hj', Hi'. f_equal.
      destruct (decide (Z.to_nat i = Z.to_nat j)) as [Heq|Hne].
      * rewrite Heq in Hi |- *. assert (ri = rj) as -> by congruence.
        rewrite !list_insert_insert_eq. by rewrite list_insert_id.
      * rewrite (list_insert_insert_ne _ (Z.to_nat i) (Z.to_nat j)) by done.
        rewrite !list_insert_insert_eq.
        rewrite (list_insert_id r (Z.to_nat i) ri) by done.
        by rewrite list_insert_id.
Qed.

End SwapTheory.

(** X6, instantiated: swapping the first and the last of three entries. *)
Lemma X6_Swap_exchanges_two_entries_witness :
  [mkEntry "c"%string 3; mkEntry "b"%string 2; mkEntry "a"%string 1]
  ≡ₚ [mkEntry "a"%string 1; mkEntry "b"%string 2; mkEntry "c"%string 3].
Proof.
  refine (proj1 (proj2 (proj2 (X6_Swap_exchanges_two_entries
            [mkEntry "a"%string 1; mkEntry "b"%string 2; mkEntry "c"%string 3] 0 2) _ _))).
  reflexivity.
Defined.

(** ** The metrics of a response in terms of the tables *)

Lemma EventCount_group_count (ids : list Z) (id : Z) :
  EventCount (group_count ids) id = Z.of_nat (length (filter (λ i, i = id) ids)).
Proof.
  destruct (decide (id ∈ ids)) as [Hin|Hnot].
  - unfold EventCount.
    rewrite (find_row_Some rc_ID (group_count ids)
               (mkReactionCount id (Z.of_nat (length (filter (λ i, i = id) ids))))).
    + done.
    + rewrite group_count_ids. apply NoDup_remove_dups.
    + unfold group_count. apply list_elem_of_fmap. exists id.
      split; [done|]. by apply elem_of_remove_dups.
  - rewrite EventCount_absent.
    + rewrite filter_none; [done|]. intros x Hx ->. done.
    + by rewrite group_count_ids, elem_of_remove_dups.
Qed.

Lemma MonetarySum_group_sum (rows : list (Z * Z)) (id : Z) :
  MonetarySum (group_sum rows) id
  = sum_list_Z (snd <$> filter (λ r, r.1 = id) rows).
Proof.
  destruct (decide (id ∈ fst <$> rows)) as [Hin|Hnot].
  - unfold MonetarySum.
    rewrite (find_row_Some tt_ID (group_sum rows)
               (mkTotalTip id (sum_list_Z (snd <$> filter (λ r, r.1 = id) rows)))).
    + done.
    + rewrite group_sum_ids. apply NoDup_remove_dups.
    + unfold group_sum. apply list_elem_of_fmap. exists id.
      split; [done|]. by apply elem_of_remove_dups.
  - rewrite MonetarySum_absent.
    + rewrite filter_none; [done|]. intros x Hx Heq. apply Hnot.
      apply list_elem_of_fmap. by exists x.
    + by rewrite group_sum_ids, elem_of_remove_dups.
Qed.

Lemma sum_list_Z_perm (zs zs' : list Z) : zs ≡ₚ zs' → sum_list_Z zs = sum_list_Z zs'.
Proof.
  unfold sum_list_Z. induction 1; simpl; lia.
Qed.

Lemma filter_bind {A B} (P : B → Prop) `{∀ y, Decision (P y)}
    (f : A → list B) (l : list A) :
  filter P (l ≫= f) = l ≫= (λ x, filter P (f x)).
Proof.
  induction l as [|a l IH]; [done|].
  by rewrite !bind_cons, filter_app, IH.
Qed.

Section ChildTables.
Context {C B : Type} (child_ls : C → Z) (g : C → B) (children : list C).
Context (db : Database) (userID : Z).
Context (Hids : NoDup (lm_ID <$> livestreams db)).

(** For one child row, the livestreams it joins to that belong to the user:
    one if the row is on a livestream of the user, none otherwise. *)
Lemma join_one_child (c : C) :
  livestreams db ≫= (λ l, if decide (lm_UserID l = userID ∧ child_ls c = lm_ID l)
                           then [g c] else [])
  = if decide (owned_by db userID (child_ls c)) then [g c] else [].
Proof.
  destruct (decide (owned_by db userID (child_ls c))) as [Hex|Hex].
  - apply Exists_exists in Hex as (l & Hl & Hid & Hu).
    rewrite (bind_unique lm_ID _ (livestreams db) l Hids Hl).
    + by rewrite decide_True.
    + intros y Hy Hne. rewrite decide_False; [done|].
      intros [_ Heq]. congruence.
  - apply bind_all_nil. intros l Hl. rewrite decide_False; [done|].
    intros [Hu Heq]. apply Hex. apply Exists_exists. by exists l.
Qed.

(** [FROM child c INNER JOIN livestreams ls ON c.livestream_id = ls.id
     WHERE ls.user_id = ?]. *)
Lemma child_first_join :
  children ≫= (λ c, filter (λ ls, child_ls c = lm_ID ls) (livestreams db)
                     ≫= (λ ls, if decide (lm_UserID ls = userID) then [g c] else []))
  = g <$> filter (λ c, owned_by db userID (child_ls c)) children.
Proof.
  rewrite <-bind_if_fmap. apply bind_ext_elem. intros c _.
  rewrite bind_filter, <-join_one_child.
  apply bind_ext_elem. intros l _.
  destruct (decide (child_ls c = lm_ID l)), (decide (lm_UserID l = userID));
    [by rewrite decide_True|by rewrite decide_False by tauto..].
Qed.

(** [FROM livestreams l INNER JOIN child c ON c.livestream_id = l.id], over
    the livestreams of the user. *)
Lemma parent_first_join :
  livestreams_of db userID
    ≫= (λ l, filter (λ c, child_ls c = lm_ID l) children ≫= (λ c, [g c]))
  ≡ₚ g <$> filter (λ c, owned_by db userID (child_ls c)) children.
Proof.
  transitivity
    (livestreams db ≫= (λ l, children ≫= (λ c,
       if decide (lm_UserID l = userID ∧ child_ls c = lm_ID l) then [g c] else []))).
  { apply eq_subrelation; [apply _|].
    unfold livestreams_of. rewrite bind_filter.
    apply bind_ext_elem. intros l _.
    destruct (decide (lm_UserID l = userID)) as [Hu|Hu].
    - rewrite bind_filter. apply bind_ext_elem. intros c _.
      destruct (decide (child_ls c = lm_ID l));
        [by rewrite decide_True|by rewrite decide_False by tauto].
    - symmetry. apply bind_all_nil. intros c _. by rewrite decide_False by tauto. }
  rewrite bind_swap_perm, <-bind_if_fmap.
  apply eq_subrelation; [apply _|].
  apply bind_ext_elem. intros c _. apply join_one_child.
Qed.

End ChildTables.

Lemma filter_all {A} (P : A → Prop) `{∀ x, Decision (P x)} (l : list A) :
  (∀ x, x ∈ l → P x) → filter P l = l.
Proof.
  induction l as [|a l IH]; intros Hall; [done|].
  rewrite filter_cons, decide_True by (apply Hall; left).
  f_equal. apply IH. intros x Hx. apply Hall. by right.
Qed.

Section UserMetrics.
Context (db : Database) (user : UserModel).
Context (Huids : NoDup (um_ID <$> users db)).
Context (Hlids : NoDup (lm_ID <$> livestreams db)).
Context (Huser : user ∈ users db).

Lemma user_reaction_count_table :
  EventCount (user_reaction_counts db) (um_ID user)
  = Z.of_nat (length (reactions_on_livestreams_of db (um_ID user))).
Proof.
  unfold user_reaction_counts. rewrite EventCount_group_count, filter_bind.
  rewrite (bind_unique um_ID _ (users db) user Huids Huser).
  - rewrite filter_all.
    + rewrite (parent_first_join rm_LivestreamID (λ _, um_ID user)) by done.
      by rewrite length_fmap.
    + intros x Hx.
      apply list_elem_of_bind in Hx as (l & Hx & _).
      apply list_elem_of_bind in Hx as (r & Hx & _).
      by apply list_elem_of_singleton in Hx.
  - intros y Hy Hne. apply filter_none. intros x Hx ->.
    apply list_elem_of_bind in Hx as (l & Hx & _).
    apply list_elem_of_bind in Hx as (r & Hx & _).
    apply list_elem_of_singleton in Hx. congruence.
Qed.

Lemma user_total_tip_table :
  MonetarySum (user_total_tips db) (um_ID user)
  = sum_list_Z (lc_Tip <$> livecomments_on_livestreams_of db (um_ID user)).
Proof.
  unfold user_total_tips. rewrite MonetarySum_group_sum, filter_bind.
  rewrite (bind_unique um_ID _ (users db) user Huids Huser).
  - rewrite filter_all.
    + apply sum_list_Z_perm.
      rewrite (parent_first_join lc_LivestreamID (λ c, (um_ID user, lc_Tip c))) by done.
      rewrite <-list_fmap_compose. done.
    + intros x Hx.
      apply list_elem_of_bind in Hx as (l & Hx & _).
      apply list_elem_of_bind in Hx as (c & Hx & _).
      apply list_elem_of_singleton in Hx. by subst x.
  - intros y Hy Hne. apply filter_none. intros x Hx Heq.
    apply list_elem_of_bind in Hx as (l & Hx & _).
    apply list_elem_of_bind in Hx as (c & Hx & _).
    apply list_elem_of_singleton in Hx. subst x. simpl in Heq. congruence.
Qed.

Lemma user_livecomments_count_table :
  user_livecomments_count db (um_ID user)
  = Z.of_nat (length (livecomments_on_livestreams_of db (um_ID user))).
Proof.
  unfold user_livecomments_count.
  rewrite (child_first_join lc_LivestreamID lc_ID) by done.
  by rewrite length_fmap.
Qed.

Lemma user_viewers_count_table :
  user_viewers_count db (um_ID user)
  = Z.of_nat (length (viewers_on_livestreams_of db (um_ID user))).
Proof.
  unfold user_viewers_count.
  rewrite (child_first_join vh_LivestreamID vh_ID) by done.
  by rewrite length_fmap.
Qed.

End UserMetrics.

(** A snapshot with two users, three livestreams and activity on each. *)
Definition db_two_streamers : Database :=
  {| users := [mkUser 1 "ann"; mkUser 2 "bob"];
     livestreams := [mkLivestream 10 1; mkLivestream 11 1; mkLivestream 20 2];
     reactions :=
       [mkReactionModel 1 "fire" 2 10 1000; mkReactionModel 2 "clap" 1 20 1001;
        mkReactionModel 3 "fire" 2 11 1002];
     livecomments :=
       [mkLivecomment 100 10 30; mkLivecomment 101 20 7; mkLivecomment 102 11 12];
     livestream_viewers_history :=
       [mkViewersHistory 1 10; mkViewersHistory 2 20; mkViewersHistory 3 20];
     livecomment_reports := [mkLivecommentReport 7 20] |}.

(** X7.  In a snapshot with unique user ids, usernames and livestream ids,
    the user statistics of an existing user report: as total reactions the
    number of reactions on the user's livestreams, as total tip the sum of
    the tips of the comments on them, as total livecomments the number of
    those comments, and as viewers count the number of viewer records of
    those livestreams. *)
Theorem X7_user_metrics_count_the_tables (db : Database) (user : UserModel) :
  NoDup (um_ID <$> users db) → NoDup (um_Name <$> users db) →
  NoDup (lm_ID <$> livestreams db) → user ∈ users db →
  ∃ stats,
    getUserStatisticsHandler db (um_Name user) = JSON StatusOK stats
    ∧ us_TotalReactions stats
      = Z.of_nat (length (reactions_on_livestreams_of db (um_ID user)))
    ∧ us_TotalTip stats
      = sum_list_Z (lc_Tip <$> livecomments_on_livestreams_of db (um_ID user))
    ∧ us_TotalLivecomments stats
      = Z.of_nat (length (livecomments_on_livestreams_of db (um_ID user)))
    ∧ us_ViewersCount stats
      = Z.of_nat (length (viewers_on_livestreams_of db (um_ID user))).
Proof.
  intros Huids Hnames Hlids Huser.
  unfold getUserStatisticsHandler. rewrite select_user_unique by done.
  eexists. split; [reflexivity|]. simpl.
  rewrite target_reactions_EventCount by apply user_reaction_counts_NoDup.
  rewrite target_tip_MonetarySum by apply user_total_tips_NoDup.
  rewrite user_reaction_count_table, user_total_tip_table,
    user_livecomments_count_table, user_viewers_count_table by done.
  done.
Qed.

(** X7, instantiated at "ann" of [db_two_streamers]. *)
Lemma X7_user_metrics_count_the_tables_witness :
  ∃ stats,
    getUserStatisticsHandler db_two_streamers "ann" = JSON StatusOK stats
    ∧ us_TotalReactions stats
      = Z.of_nat (length (reactions_on_livestreams_of db_two_streamers 1))
    ∧ us_TotalTip stats
      = sum_list_Z (lc_Tip <$> livecomments_on_livestreams_of db_two_streamers 1)
    ∧ us_TotalLivecomments stats
      = Z.of_nat (length (livecomments_on_livestreams_of db_two_streamers 1))
    ∧ us_ViewersCount stats
      = Z.of_nat (length (viewers_on_livestreams_of db_two_streamers 1)).
Proof.
  refine (X7_user_metrics_count_the_tables db_two_streamers (mkUser 1 "ann") _ _ _ _).
  - decide_closed.
  - decide_closed.
  - decide_closed.
  - set_solver.
Defined.

Section LivestreamMetrics.
Context (db : Database) (livestreamID : Z).
Context (Hlids : NoDup (lm_ID <$> livestreams db)).
Context (Hin : livestreamID ∈ lm_ID <$> livestreams db).

Lemma livestream_reaction_count_table :
  EventCount (livestream_reaction_counts db) livestreamID
  = Z.of_nat (length (reactions_on db livestreamID)).
Proof.
  apply list_elem_of_fmap in Hin as (l0 & Hid & Hl0).
  unfold livestream_reaction_counts. rewrite EventCount_group_count, filter_bind.
  rewrite (bind_unique lm_ID _ (livestreams db) l0 Hlids Hl0).
  - rewrite filter_all.
    + rewrite bind_singleton_fmap, length_fmap. unfold reactions_on.
      f_equal. f_equal. apply list_filter_iff. intros r. split; congruence.
    + intros x Hx.
      apply list_elem_of_bind in Hx as (r & Hx & _).
      apply list_elem_of_singleton in Hx. congruence.
  - intros y Hy Hne. apply filter_none. intros x Hx ->.
    apply list_elem_of_bind in Hx as (r & Hx & _).
    apply list_elem_of_singleton in Hx. congruence.
Qed.

Lemma livestream_total_tip_table :
  MonetarySum (livestream_total_tips db) livestreamID
  = sum_list_Z (tips_on db livestreamID).
Proof.
  apply list_elem_of_fmap in Hin as (l0 & Hid & Hl0).
  unfold livestream_total_tips. rewrite MonetarySum_group_sum, filter_bind.
  rewrite (bind_unique lm_ID _ (livestreams db) l0 Hlids Hl0).
  - rewrite filter_all.
    + rewrite bind_singleton_fmap, <-list_fmap_compose. unfold tips_on.
      f_equal. f_equal. apply list_filter_iff. intros c. split; congruence.
    + intros x Hx.
      apply list_elem_of_bind in Hx as (c & Hx & _).
      apply list_elem_of_singleton in Hx. subst x. simpl. congruence.
  - intros y Hy Hne. apply filter_none. intros x Hx Heq.
    apply list_elem_of_bind in Hx as (c & Hx & _).
    apply list_elem_of_singleton in Hx. subst x. simpl in Heq. congruence.
Qed.

Lemma livestream_viewers_count_table :
  livestream_viewers_count db livestreamID
  = Z.of_nat (length (viewers_on db livestreamID)).
Proof.
  unfold livestream_viewers_count, viewers_on.
  destruct (livestream_row_unique db livestreamID Hlids Hin) as (l & Hid & ->).
  rewrite bind_singleton, bind_singleton_fmap, length_fmap, Hid. done.
Qed.

End LivestreamMetrics.

(** X8.  In a snapshot with unique livestream ids, the statistics of an
    existing livestream report as total reactions the number of reactions on
    that livestream and as viewers count the number of its viewer records. *)
Theorem X8_livestream_metrics_count_the_tables (db : Database) (livestreamID : Z) :
  NoDup (lm_ID <$> livestreams db) →
  livestreamID ∈ lm_ID <$> livestreams db →
  ∃ stats,
    getLivestreamStatisticsHandler db livestreamID = JSON StatusOK stats
    ∧ ls_TotalReactions stats = Z.of_nat (length (reactions_on db livestreamID))
    ∧ ls_ViewersCount stats = Z.of_nat (length (viewers_on db livestreamID)).
Proof.
  intros Hlids Hin. unfold getLivestreamStatisticsHandler.
  destruct (getLivestream db livestreamID) as [l|] eqn:Hf.
  2:{ by apply getLivestream_None in Hf. }
  eexists. split; [reflexivity|]. simpl.
  rewrite target_reactions_EventCount by apply livestream_reaction_counts_NoDup.
  rewrite livestream_reaction_count_table, livestream_viewers_count_table by done.
  done.
Qed.

(** X8, instantiated at livestream 20 of [db_two_streamers]. *)
Lemma X8_livestream_metrics_count_the_tables_witness :
  ∃ stats,
    getLivestreamStatisticsHandler db_two_streamers 20 = JSON StatusOK stats
    ∧ ls_TotalReactions stats = Z.of_nat (length (reactions_on db_two_streamers 20))
    ∧ ls_ViewersCount stats = Z.of_nat (length (viewers_on db_two_streamers 20)).
Proof.
  refine (X8_livestream_metrics_count_the_tables db_two_streamers 20 _ _);
    decide_closed.
Defined.

Lemma score_of_aggregate_add_at (rcs : list ReactionCount) (tts : list TotalTip) id :
  NoDup (rc_ID <$> rcs) → NoDup (tt_ID <$> tts) →
  in_int64 (EventCount rcs id) →
  score_of (aggregate_scores rcs tts) id
  = int64_add (EventCount rcs id) (MonetarySum tts id).
Proof.
  intros Hrc Htt Hin. rewrite score_of_aggregate by done. unfold MonetarySum.
  destruct (find _ tts); simpl; [done|].
  unfold int64_add. by rewrite Z.add_0_r, wrap64_id.
Qed.

Lemma user_score_table (db : Database) (user : UserModel) :
  NoDup (um_ID <$> users db) → NoDup (lm_ID <$> livestreams db) →
  user ∈ users db →
  in_int64 (Z.of_nat (length (reactions_on_livestreams_of db (um_ID user)))) →
  score_of (aggregate_scores (user_reaction_counts db) (user_total_tips db))
           (um_ID user)
  = int64_add
      (Z.of_nat (length (reactions_on_livestreams_of db (um_ID user))))
      (sum_list_Z (lc_Tip <$> livecomments_on_livestreams_of db (um_ID user))).
Proof.
  intros Huids Hlids Huser Hfit.
  rewrite score_of_aggregate_add_at.
  - by rewrite user_reaction_count_table, user_total_tip_table.
  - apply user_reaction_counts_NoDup.
  - apply user_total_tips_NoDup.
  - by rewrite user_reaction_count_table.
Qed.

Lemma livestream_score_table (db : Database) (livestreamID : Z) :
  NoDup (lm_ID <$> livestreams db) →
  livestreamID ∈ lm_ID <$> livestreams db →
  in_int64 (Z.of_nat (length (reactions_on db livestreamID))) →
  score_of (aggregate_scores (livestream_reaction_counts db)
                             (livestream_total_tips db)) livestreamID
  = int64_add (Z.of_nat (length (reactions_on db livestreamID)))
              (sum_list_Z (tips_on db livestreamID)).
Proof.
  intros Hlids Hin Hfit.
  rewrite score_of_aggregate_add_at.
  - by rewrite livestream_reaction_count_table, livestream_total_tip_table.
  - apply livestream_reaction_counts_NoDup.
  - apply livestream_total_tips_NoDup.
  - by rewrite livestream_reaction_count_table.
Qed.

(** X9.  The score by which an existing entity is ranked is, in [int64]
    arithmetic, the number of reactions plus the sum of the tips on its
    livestreams (for a user) or on itself (for a livestream), provided ids
    are unique and the reaction count fits an [int64]. *)
Theorem X9_score_from_the_tables :
  (∀ (db : Database) (user : UserModel),
     NoDup (um_ID <$> users db) → NoDup (lm_ID <$> livestreams db) →
     user ∈ users db →
     in_int64 (Z.of_nat (length (reactions_on_livestreams_of db (um_ID user)))) →
     score_of (aggregate_scores (user_reaction_counts db) (user_total_tips db))
              (um_ID user)
     = int64_add
         (Z.of_nat (length (reactions_on_livestreams_of db (um_ID user))))
         (sum_list_Z (lc_Tip <$> livecomments_on_livestreams_of db (um_ID user))))
  ∧ (∀ (db : Database) (livestreamID : Z),
       NoDup (lm_ID <$> livestreams db) →
       livestreamID ∈ lm_ID <$> livestreams db →
       in_int64 (Z.of_nat (length (reactions_on db livestreamID))) →
       score_of (aggregate_scores (livestream_reaction_counts db)
                                  (livestream_total_tips db)) livestreamID
       = int64_add (Z.of_nat (length (reactions_on db livestreamID)))
                   (sum_list_Z (tips_on db livestreamID))).
Proof.
  split.
  - apply user_score_table.
  - apply livestream_score_table.
Qed.

(** X9, instantiated at "ann" of [db_two_streamers]: 2 reactions, tips 42. *)
Lemma X9_score_from_the_tables_witness :
  score_of (aggregate_scores (user_reaction_counts db_two_streamers)
                             (user_total_tips db_two_streamers)) 1
  = int64_add
      (Z.of_nat (length (reactions_on_livestreams_of db_two_streamers 1)))
      (sum_list_Z (lc_Tip <$> livecomments_on_livestreams_of db_two_streamers 1)).
Proof.
  refine (proj1 X9_score_from_the_tables db_two_streamers (mkUser 1 "ann") _ _ _ _).
  - decide_closed.
  - decide_closed.
  - set_solver.
  - decide_closed.
Defined.

(** ** Raising one score *)

Lemma length_filter_mono {A} (P Q : A → Prop)
    `{∀ x, Decision (P x)} `{∀ x, Decision (Q x)} (l : list A) :
  (∀ x, x ∈ l → P x → Q x) →
  (length (filter P l) ≤ length (filter Q l))%nat.
Proof.
  induction l as [|a l IH]; intros Himp; [done|].
  assert (length (filter P l) ≤ length (filter Q l))%nat as Hle.
  { apply IH. intros x Hx. apply Himp. by right. }
  rewrite !filter_cons. destruct (decide (P a)) as [HP|HP].
  - rewrite decide_True by (apply Himp; [left|done]). simpl. lia.
  - destruct (decide (Q a)); simpl; lia.
Qed.

Section OwnScore.
Context {K M : Type} `{TieBreakKeyLaws K}.
Context (entity_id : M → Z) (entity_key : M → K).

Lemma not_after_Less_trans (a b c : RankingEntry K) :
  not_after a b → Less b c = true → Less a c = true.
Proof.
  intros Hab Hbc. destruct (Less_total a b) as [->|[Hlt|Hgt]]; [done| |].
  - by apply (Less_trans a b c).
  - unfold not_after in Hab. congruence.
Qed.

(** Raising the score of one entity, all other scores being equal, never
    makes its rank numerically larger. *)
Lemma compute_rank_own_score_monotone
    (population : list M) (scoreMap scoreMap' : gmap Z Z) (x : M) :
  NoDup (entity_key <$> population) → x ∈ population →
  score_of scoreMap (entity_id x) ≤ score_of scoreMap' (entity_id x) →
  (∀ y, y ∈ population → entity_key y ≠ entity_key x →
        score_of scoreMap' (entity_id y) = score_of scoreMap (entity_id y)) →
  compute_rank entity_id entity_key population scoreMap' (entity_key x)
  ≤ compute_rank entity_id entity_key population scoreMap (entity_key x).
Proof.
  intros Hnd Hx Hscore Hothers. unfold compute_rank.
  set (e := entry_of entity_id entity_key scoreMap x).
  set (e' := entry_of entity_id entity_key scoreMap' x).
  destruct (scan_stops_at_top (build_ranking entity_id entity_key population scoreMap)
              (entity_key x)) as (top & Htop & Hk & Hmax & ->).
  { by apply build_ranking_keys. }
  destruct (scan_stops_at_top (build_ranking entity_id entity_key population scoreMap')
              (entity_key x)) as (top' & Htop' & Hk' & Hmax' & ->).
  { by apply build_ranking_keys. }
  assert (not_after e e') as Hee'.
  { unfold not_after, Less, e, e'. simpl.
    destruct (Z.eqb_spec (score_of scoreMap' (entity_id x))
                         (score_of scoreMap (entity_id x))).
    - apply key_ltb_irrefl.
    - apply Z.ltb_ge. lia. }
  assert (not_after e' top') as He'top'.
  { apply Hmax'; [by apply build_ranking_real_elem|done]. }
  assert (not_after top top') as Htt'.
  { rewrite build_ranking_eq in Htop. apply elem_of_app in Htop as [Hph|Hreal].
    - apply elem_of_replicate in Hph as [-> Hn].
      apply Hmax'; [|done].
      rewrite build_ranking_eq. apply elem_of_app. left.
      by apply elem_of_replicate.
    - rewrite (real_entry_unique entity_id entity_key population scoreMap x top)
        by done.
      by transitivity e'. }
  rewrite !build_ranking_eq, !above_app, !length_app.
  unfold make_ranking. rewrite !above_replicate.
  assert ((if Less top' placeholder then length population else 0)
          ≤ (if Less top placeholder then length population else 0))%nat as Hph.
  { destruct (Less top' placeholder) eqn:Hlt; [|lia].
    by rewrite (not_after_Less_trans top top' placeholder). }
  assert (length (above top' (real_entries entity_id entity_key population scoreMap'))
          ≤ length (above top (real_entries entity_id entity_key population scoreMap)))%nat
    as Hreal.
  { unfold above, real_entries. rewrite !length_filter_fmap.
    apply length_filter_mono. intros y Hy Hlt.
    destruct (decide (entity_key y = entity_key x)) as [Heq|Hne].
    - assert (y = x) as -> by by apply (NoDup_fmap_elem_inj entity_key population).
      unfold not_after in He'top'. fold e' in Hlt. congruence.
    - apply (not_after_Less_trans top top'); [done|].
      unfold entry_of in *. by rewrite <-(Hothers y Hy Hne). }
  lia.
Qed.

End OwnScore.

(** X10.  In either handler's pipeline, raising the score of one entity
    while every other entity of the population keeps its score never makes
    that entity's rank numerically larger, whatever the scores are. *)
Theorem X10_rank_monotone_in_own_score :
  (∀ (users : list UserModel) (scoreMap scoreMap' : gmap Z Z) (x : UserModel),
     NoDup (um_Name <$> users) → x ∈ users →
     score_of scoreMap (um_ID x) ≤ score_of scoreMap' (um_ID x) →
     (∀ y, y ∈ users → um_Name y ≠ um_Name x →
           score_of scoreMap' (um_ID y) = score_of scoreMap (um_ID y)) →
     compute_rank um_ID um_Name users scoreMap' (um_Name x)
     ≤ compute_rank um_ID um_Name users scoreMap (um_Name x))
  ∧ (∀ (livestreams : list LivestreamModel) (scoreMap scoreMap' : gmap Z Z)
       (x : LivestreamModel),
       NoDup (lm_ID <$> livestreams) → x ∈ livestreams →
       score_of scoreMap (lm_ID x) ≤ score_of scoreMap' (lm_ID x) →
       (∀ y, y ∈ livestreams → lm_ID y ≠ lm_ID x →
             score_of scoreMap' (lm_ID y) = score_of scoreMap (lm_ID y)) →
       compute_rank lm_ID lm_ID livestreams scoreMap' (lm_ID x)
       ≤ compute_rank lm_ID lm_ID livestreams scoreMap (lm_ID x)).
Proof.
  split; intros; by apply compute_rank_own_score_monotone.
Qed.

(** X10, instantiated: user "C" of the example population with 9 more
    reactions, which lifts its score from 5 to 14. *)
Lemma X10_rank_monotone_in_own_score_witness :
  compute_rank um_ID um_Name example_users
    (aggregate_scores
       [mkReactionCount 1 4; mkReactionCount 2 10; mkReactionCount 3 11]
       example_totalTips) "C"%string
  ≤ compute_rank um_ID um_Name example_users
      (aggregate_scores example_reactionCounts example_totalTips) "C"%string.
Proof.
  refine (proj1 X10_rank_monotone_in_own_score example_users
            (aggregate_scores example_reactionCounts example_totalTips)
            (aggregate_scores
               [mkReactionCount 1 4; mkReactionCount 2 10; mkReactionCount 3 11]
               example_totalTips)
            (mkUser 3 "C") _ _ _ _).
  - decide_closed.
  - set_solver.
  - vm_compute. discriminate.
  - intros y Hy Hne. apply list_elem_of_In in Hy. simpl in Hy.
    destruct Hy as [<-|[<-|[<-|[]]]]; [reflexivity|reflexivity|by destruct Hne].
Defined.

(** ** A reaction more *)

Section OneMoreReaction.
Context (db : Database) (reactionModel : ReactionModel) (reactionID : Z).
Context (Hlids : NoDup (lm_ID <$> livestreams db)).

Local Abbreviation db' := (insert_reaction db reactionModel reactionID).

Lemma reactions_on_insert (livestreamID : Z) :
  length (reactions_on db' livestreamID)
  = (length (reactions_on db livestreamID)
     + if decide (rm_LivestreamID reactionModel = livestreamID) then 1 else 0)%nat.
Proof.
  unfold reactions_on. simpl. rewrite filter_app, length_app. f_equal.
  rewrite filter_cons, filter_nil. simpl.
  by destruct (decide (rm_LivestreamID reactionModel = livestreamID)).
Qed.

Lemma livestream_score_insert_other (livestreamID : Z) :
  livestreamID ∈ lm_ID <$> livestreams db →
  livestreamID ≠ rm_LivestreamID reactionModel →
  score_of (aggregate_scores (livestream_reaction_counts db')
                             (livestream_total_tips db')) livestreamID
  = score_of (aggregate_scores (livestream_reaction_counts db)
                               (livestream_total_tips db)) livestreamID.
Proof.
  intros Hin Hne.
  rewrite !score_of_aggregate
    by (apply livestream_reaction_counts_NoDup || apply livestream_total_tips_NoDup).
  rewrite (livestream_reaction_count_table db') by done.
  rewrite (livestream_reaction_count_table db) by done.
  rewrite reactions_on_insert, decide_False by done.
  rewrite Nat.add_0_r. done.
Qed.

End OneMoreReaction.

(** X11.  Inserting one reaction row for an existing livestream (ids being
    unique) raises the total reactions reported for that livestream by
    exactly one and leaves its viewers count, max tip and total reports as
    they were; the total reactions of every other livestream are unchanged;
    and, as long as the score does not leave the [int64] range, the rank of
    the livestream does not get numerically larger. *)
Theorem X11_reaction_insert_raises_total_reactions
    (db : Database) (reactionModel : ReactionModel) (reactionID : Z) :
  NoDup (lm_ID <$> livestreams db) →
  rm_LivestreamID reactionModel ∈ lm_ID <$> livestreams db →
  let target := rm_LivestreamID reactionModel in
  let db' := insert_reaction db reactionModel reactionID in
  let n := Z.of_nat (length (reactions_on db target)) in
  let t := sum_list_Z (tips_on db target) in
  (∃ stats stats',
     getLivestreamStatisticsHandler db target = JSON StatusOK stats
     ∧ getLivestreamStatisticsHandler db' target = JSON StatusOK stats'
     ∧ ls_TotalReactions stats' = ls_TotalReactions stats + 1
     ∧ ls_ViewersCount stats' = ls_ViewersCount stats
     ∧ ls_MaxTip stats' = ls_MaxTip stats
     ∧ ls_TotalReports stats' = ls_TotalReports stats
     ∧ (in_int64 (n + 1) → in_int64 (n + t) → in_int64 (n + 1 + t) →
        ls_Rank stats' ≤ ls_Rank stats))
  ∧ (∀ other, other ∈ lm_ID <$> livestreams db → other ≠ target →
       ∃ stats stats',
         getLivestreamStatisticsHandler db other = JSON StatusOK stats
         ∧ getLivestreamStatisticsHandler db' other = JSON StatusOK stats'
         ∧ ls_TotalReactions stats' = ls_TotalReactions stats).
Proof.
  intros Hlids Hin target db' n t.
  assert (∀ id, id ∈ lm_ID <$> livestreams db →
                target_reactions id (livestream_reaction_counts db')
                = Z.of_nat (length (reactions_on db id))
                  + (if decide (target = id) then 1 else 0)) as Hcount'.
  { intros id Hid.
    rewrite target_reactions_EventCount by apply livestream_reaction_counts_NoDup.
    rewrite (livestream_reaction_count_table db') by done.
    unfold db'. rewrite reactions_on_insert. fold target.
    destruct (decide (target = id)); lia. }
  assert (∀ id, id ∈ lm_ID <$> livestreams db →
                target_reactions id (livestream_reaction_counts db)
                = Z.of_nat (length (reactions_on db id))) as Hcount.
  { intros id Hid.
    rewrite target_reactions_EventCount by apply livestream_reaction_counts_NoDup.
    by apply livestream_reaction_count_table. }
  split.
  - unfold getLivestreamStatisticsHandler.
    change (getLivestream db' target) with (getLivestream db target).
    destruct (getLivestream db target) as [l|] eqn:Hf.
    2:{ by apply getLivestream_None in Hf. }
    do 2 eexists. split; [reflexivity|]. split; [reflexivity|]. simpl.
    rewrite Hcount', Hcount by done. rewrite decide_True by done.
    split_and!; [done..|].
    intros Hn1 Hnt Hn1t.
    apply (find_row_elem lm_ID) in Hf as [Hl Hid]. rewrite <-Hid.
    apply (compute_rank_own_score_monotone lm_ID lm_ID (livestreams db)); [done|done| |].
    + rewrite Hid.
      pose proof livestream_score_table as Hscore.
      rewrite (Hscore db target), (Hscore db' target); [|done|done|..|done|done|].
      * unfold db'. rewrite reactions_on_insert. fold target.
        rewrite decide_True by done. fold n.
        change (tips_on (insert_reaction db reactionModel reactionID) target)
          with (tips_on db target). fold t.
        unfold int64_add. rewrite !wrap64_id; [lia| |done].
        replace (Z.of_nat (length (reactions_on db target) + 1) + t)
          with (n + 1 + t) by (unfold n; lia). done.
      * unfold db'. rewrite reactions_on_insert. fold target.
        rewrite decide_True by done.
        replace (Z.of_nat (length (reactions_on db target) + 1)) with (n + 1)
          by (unfold n; lia). done.
      * unfold in_int64, int64_min, int64_max in *. fold n. lia.
    + intros y Hy Hne. apply livestream_score_insert_other; [done| |].
      * apply list_elem_of_fmap. by exists y.
      * fold target. congruence.
  - intros other Hother Hne.
    unfold getLivestreamStatisticsHandler.
    change (getLivestream db' other) with (getLivestream db other).
    destruct (getLivestream db other) as [l|] eqn:Hf.
    2:{ by apply getLivestream_None in Hf. }
    do 2 eexists. split; [reflexivity|]. split; [reflexivity|]. simpl.
    rewrite Hcount', Hcount by done. rewrite decide_False by congruence. lia.
Qed.

(** X11, instantiated: a reaction on livestream 20 of [db_two_streamers]
    seen from livestream 10. *)
Lemma X11_reaction_insert_raises_total_reactions_witness :
  ∃ stats stats',
    getLivestreamStatisticsHandler db_two_streamers 10 = JSON StatusOK stats
    ∧ getLivestreamStatisticsHandler
        (insert_reaction db_two_streamers (mkReactionModel 0 "tada" 1 20 2000) 4) 10
      = JSON StatusOK stats'
    ∧ ls_TotalReactions stats' = ls_TotalReactions stats.
Proof.
  refine (proj2 (X11_reaction_insert_raises_total_reactions db_two_streamers
                   (mkReactionModel 0 "tada" 1 20 2000) 4 _ _) 10 _ _).
  - decide_closed.
  - decide_closed.
  - decide_closed.
  - discriminate.
Defined.

Section OneMoreReactionForUser.
Context (db : Database) (reactionModel : ReactionModel) (reactionID : Z).
Context (Huids : NoDup (um_ID <$> users db)).
Context (Hlids : NoDup (lm_ID <$> livestreams db)).

Local Abbreviation db' := (insert_reaction db reactionModel reactionID).

Lemma reactions_on_livestreams_of_insert (userID : Z) :
  length (reactions_on_livestreams_of db' userID)
  = (length (reactions_on_livestreams_of db userID)
     + if decide (owned_by db userID (rm_LivestreamID reactionModel)) then 1 else 0)%nat.
Proof.
  unfold reactions_on_livestreams_of. simpl. rewrite filter_app, length_app. f_equal.
  rewrite filter_cons, filter_nil. simpl. unfold owned_by.
  by destruct (decide (Exists _ (livestreams db))).
Qed.

(** A livestream has one owner. *)
Lemma owned_by_unique (userID userID' livestreamID : Z) :
  owned_by db userID livestreamID → owned_by db userID' livestreamID →
  userID = userID'.
Proof.
  intros H1 H2. apply Exists_exists in H1 as (l1 & Hl1 & Hid1 & Hu1).
  apply Exists_exists in H2 as (l2 & Hl2 & Hid2 & Hu2).
  assert (l1 = l2) as -> by (apply (NoDup_fmap_elem_inj lm_ID (livestreams db));
                             [done..|congruence]).
  congruence.
Qed.

Lemma user_score_insert_other (user : UserModel) :
  user ∈ users db →
  ¬ owned_by db (um_ID user) (rm_LivestreamID reactionModel) →
  score_of (aggregate_scores (user_reaction_counts db') (user_total_tips db'))
           (um_ID user)
  = score_of (aggregate_scores (user_reaction_counts db) (user_total_tips db))
             (um_ID user).
Proof.
  intros Huser Hnot.
  rewrite !score_of_aggregate
    by (apply user_reaction_counts_NoDup || apply user_total_tips_NoDup).
  rewrite (user_reaction_count_table db') by done.
  rewrite (user_reaction_count_table db) by done.
  rewrite reactions_on_livestreams_of_insert, decide_False by done.
  rewrite Nat.add_0_r. done.
Qed.

End OneMoreReactionForUser.

(** X12.  Inserting one reaction row on a livestream of an existing user
    (user ids, usernames and livestream ids being unique) raises the total
    reactions reported for that user by exactly one and leaves the user's
    total tip, total livecomments and viewers count as they were; the total
    reactions of every user who does not own that livestream are unchanged;
    and, as long as the score does not leave the [int64] range, the rank of
    the owner does not get numerically larger. *)
Theorem X12_reaction_insert_raises_owner_total
    (db : Database) (reactionModel : ReactionModel) (reactionID : Z)
    (owner : UserModel) :
  NoDup (um_ID <$> users db) → NoDup (um_Name <$> users db) →
  NoDup (lm_ID <$> livestreams db) → owner ∈ users db →
  owned_by db (um_ID owner) (rm_LivestreamID reactionModel) →
  let db' := insert_reaction db reactionModel reactionID in
  let n := Z.of_nat (length (reactions_on_livestreams_of db (um_ID owner))) in
  let t := sum_list_Z (lc_Tip <$> livecomments_on_livestreams_of db (um_ID owner)) in
  (∃ stats stats',
     getUserStatisticsHandler db (um_Name owner) = JSON StatusOK stats
     ∧ getUserStatisticsHandler db' (um_Name owner) = JSON StatusOK stats'
     ∧ us_TotalReactions stats' = us_TotalReactions stats + 1
     ∧ us_TotalTip stats' = us_TotalTip stats
     ∧ us_TotalLivecomments stats' = us_TotalLivecomments stats
     ∧ us_ViewersCount stats' = us_ViewersCount stats
     ∧ (in_int64 (n + 1) → in_int64 (n + t) → in_int64 (n + 1 + t) →
        us_Rank stats' ≤ us_Rank stats))
  ∧ (∀ other, other ∈ users db → um_Name other ≠ um_Name owner →
       ∃ stats stats',
         getUserStatisticsHandler db (um_Name other) = JSON StatusOK stats
         ∧ getUserStatisticsHandler db' (um_Name other) = JSON StatusOK stats'
         ∧ us_TotalReactions stats' = us_TotalReactions stats).
Proof.
  intros Huids Hnames Hlids Howner Howned db' n t.
  assert (∀ u, u ∈ users db →
               target_reactions (um_ID u) (user_reaction_counts db')
               = Z.of_nat (length (reactions_on_livestreams_of db (um_ID u)))
                 + (if decide (owned_by db (um_ID u) (rm_LivestreamID reactionModel))
                    then 1 else 0)) as Hcount'.
  { intros u Hu.
    rewrite target_reactions_EventCount by apply user_reaction_counts_NoDup.
    rewrite (user_reaction_count_table db') by done.
    unfold db'. rewrite reactions_on_livestreams_of_insert.
    destruct (decide (owned_by db (um_ID u) (rm_LivestreamID reactionModel))); lia. }
  assert (∀ u, u ∈ users db →
               target_reactions (um_ID u) (user_reaction_counts db)
               = Z.of_nat (length (reactions_on_livestreams_of db (um_ID u)))) as Hcount.
  { intros u Hu.
    rewrite target_reactions_EventCount by apply user_reaction_counts_NoDup.
    by apply user_reaction_count_table. }
  assert (∀ u, u ∈ users db → um_Name u ≠ um_Name owner →
               ¬ owned_by db (um_ID u) (rm_LivestreamID reactionModel)) as Hnotowned.
  { intros u Hu Hne Hown. apply Hne. f_equal.
    apply (NoDup_fmap_elem_inj um_ID (users db)); [done..|].
    by apply (owned_by_unique db Hlids _ _ (rm_LivestreamID reactionModel)). }
  split.
  - unfold getUserStatisticsHandler.
    change (select_user_by_name db' (um_Name owner))
      with (select_user_by_name db (um_Name owner)).
    rewrite select_user_unique by done.
    do 2 eexists. split; [reflexivity|]. split; [reflexivity|]. simpl.
    rewrite Hcount', Hcount by done. rewrite decide_True by done.
    split_and!; [done..|].
    intros Hn1 Hnt Hn1t.
    apply (compute_rank_own_score_monotone um_ID um_Name (users db)); [done|done| |].
    + pose proof user_score_table as Hscore.
      rewrite (Hscore db owner), (Hscore db' owner); [|done|done|done|..|done|done|done|].
      * unfold db'. rewrite reactions_on_livestreams_of_insert.
        rewrite decide_True by done. fold n.
        change (livecomments_on_livestreams_of
                  (insert_reaction db reactionModel reactionID) (um_ID owner))
          with (livecomments_on_livestreams_of db (um_ID owner)). fold t.
        unfold int64_add. rewrite !wrap64_id; [lia| |done].
        replace (Z.of_nat (length (reactions_on_livestreams_of db (um_ID owner)) + 1) + t)
          with (n + 1 + t) by (unfold n; lia). done.
      * unfold db'. rewrite reactions_on_livestreams_of_insert.
        rewrite decide_True by done.
        replace (Z.of_nat (length (reactions_on_livestreams_of db (um_ID owner)) + 1))
          with (n + 1) by (unfold n; lia). done.
      * unfold in_int64, int64_min, int64_max in *. fold n. lia.
    + intros y Hy Hne. apply user_score_insert_other; [done..|]. by apply Hnotowned.
  - intros other Hother Hne.
    unfold getUserStatisticsHandler.
    change (select_user_by_name db' (um_Name other))
      with (select_user_by_name db (um_Name other)).
    rewrite select_user_unique by done.
    do 2 eexists. split; [reflexivity|]. split; [reflexivity|]. simpl.
    rewrite Hcount', Hcount by done.
    rewrite decide_False by by apply Hnotowned. lia.
Qed.

(** X12, instantiated: a reaction on livestream 20 (of "bob") seen from
    "ann" in [db_two_streamers]. *)
Lemma X12_reaction_insert_raises_owner_total_witness :
  ∃ stats stats',
    getUserStatisticsHandler db_two_streamers "ann" = JSON StatusOK stats
    ∧ getUserStatisticsHandler
        (insert_reaction db_two_streamers (mkReactionModel 0 "tada" 1 20 2000) 4) "ann"
      = JSON StatusOK stats'
    ∧ us_TotalReactions stats' = us_TotalReactions stats.
Proof.
  refine (proj2 (X12_reaction_insert_raises_owner_total db_two_streamers
                   (mkReactionModel 0 "tada" 1 20 2000) 4 (mkUser 2 "bob")
                   _ _ _ _ _) (mkUser 1 "ann") _ _).
  - decide_closed.
  - decide_closed.
  - decide_closed.
  - set_solver.
  - decide_closed.
  - set_solver.
  - discriminate.
Defined.

(** ** The two handlers agree *)

Lemma length_bind {A B} (f : A → list B) (l : list A) :
  Z.of_nat (length (l ≫= f)) = sum_list_Z ((λ x, Z.of_nat (length (f x))) <$> l).
Proof.
  induction l as [|a l IH]; [done|].
  rewrite bind_cons, length_app, fmap_cons. simpl. lia.
Qed.

(** X13.  In a snapshot with unique user ids, usernames and livestream ids,
    the total reactions (resp. the viewers count) reported for a user is the
    sum, over the livestreams of that user, of the total reactions (resp.
    viewers count) that the livestream statistics report for each of them. *)
Theorem X13_user_totals_sum_livestream_totals (db : Database) (user : UserModel) :
  NoDup (um_ID <$> users db) → NoDup (um_Name <$> users db) →
  NoDup (lm_ID <$> livestreams db) → user ∈ users db →
  ∃ stats,
    getUserStatisticsHandler db (um_Name user) = JSON StatusOK stats
    ∧ (∀ l, l ∈ livestreams_of db (um_ID user) →
            ∃ lstats, getLivestreamStatisticsHandler db (lm_ID l) = JSON StatusOK lstats
                      ∧ ls_TotalReactions lstats
                        = Z.of_nat (length (reactions_on db (lm_ID l)))
                      ∧ ls_ViewersCount lstats
                        = Z.of_nat (length (viewers_on db (lm_ID l))))
    ∧ us_TotalReactions stats
      = sum_list_Z ((λ l, Z.of_nat (length (reactions_on db (lm_ID l))))
                      <$> livestreams_of db (um_ID user))
    ∧ us_ViewersCount stats
      = sum_list_Z ((λ l, Z.of_nat (length (viewers_on db (lm_ID l))))
                      <$> livestreams_of db (um_ID user)).
Proof.
  intros Huids Hnames Hlids Huser.
  unfold getUserStatisticsHandler. rewrite select_user_unique by done.
  eexists. split; [reflexivity|]. simpl.
  assert (target_reactions (um_ID user) (user_reaction_counts db)
          = Z.of_nat (length (reactions_on_livestreams_of db (um_ID user)))) as Hreact.
  { rewrite target_reactions_EventCount by apply user_reaction_counts_NoDup.
    by apply user_reaction_count_table. }
  pose proof (user_viewers_count_table db user Hlids) as Hview.
  split_and!.
  - intros l Hl. apply list_elem_of_filter in Hl as [_ Hl].
    assert (lm_ID l ∈ lm_ID <$> livestreams db) as Hin.
    { apply list_elem_of_fmap. by exists l. }
    unfold getLivestreamStatisticsHandler.
    destruct (getLivestream db (lm_ID l)) as [l'|] eqn:Hf.
    2:{ by apply getLivestream_None in Hf. }
    eexists. split; [reflexivity|]. simpl.
    rewrite target_reactions_EventCount by apply livestream_reaction_counts_NoDup.
    by rewrite livestream_reaction_count_table, livestream_viewers_count_table.
  - rewrite Hreact.
    transitivity
      (Z.of_nat (length
         (livestreams_of db (um_ID user)
            ≫= (λ l, filter (λ c, rm_LivestreamID c = lm_ID l) (reactions db)
                      ≫= (λ c, [rm_ID c]))))).
    { f_equal.
      rewrite (parent_first_join rm_LivestreamID rm_ID (reactions db) db
                 (um_ID user) Hlids).
      by rewrite length_fmap. }
    rewrite length_bind. f_equal. apply list_fmap_ext. intros i l _.
    by rewrite bind_singleton_fmap, length_fmap.
  - rewrite Hview.
    transitivity
      (Z.of_nat (length
         (livestreams_of db (um_ID user)
            ≫= (λ l, filter (λ c, vh_LivestreamID c = lm_ID l)
                        (livestream_viewers_history db)
                      ≫= (λ c, [vh_ID c]))))).
    { f_equal.
      rewrite (parent_first_join vh_LivestreamID vh_ID
                 (livestream_viewers_history db) db (um_ID user) Hlids).
      by rewrite length_fmap. }
    rewrite length_bind. f_equal. apply list_fmap_ext. intros i l _.
    by rewrite bind_singleton_fmap, length_fmap.
Qed.

(** X13, instantiated at "ann" of [db_two_streamers] (livestreams 10, 11). *)
Lemma X13_user_totals_sum_livestream_totals_witness :
  ∃ stats,
    getUserStatisticsHandler db_two_streamers "ann" = JSON StatusOK stats
    ∧ (∀ l, l ∈ livestreams_of db_two_streamers 1 →
            ∃ lstats,
              getLivestreamStatisticsHandler db_two_streamers (lm_ID l)
              = JSON StatusOK lstats
              ∧ ls_TotalReactions lstats
                = Z.of_nat (length (reactions_on db_two_streamers (lm_ID l)))
              ∧ ls_ViewersCount lstats
                = Z.of_nat (length (viewers_on db_two_streamers (lm_ID l))))
    ∧ us_TotalReactions stats
      = sum_list_Z ((λ l, Z.of_nat (length (reactions_on db_two_streamers (lm_ID l))))
                      <$> livestreams_of db_two_streamers 1)
    ∧ us_ViewersCount stats
      = sum_list_Z ((λ l, Z.of_nat (length (viewers_on db_two_streamers (lm_ID l))))
                      <$> livestreams_of db_two_streamers 1).
Proof.
  refine (X13_user_totals_sum_livestream_totals db_two_streamers (mkUser 1 "ann")
            _ _ _ _).
  - decide_closed.
  - decide_closed.
  - decide_closed.
  - set_solver.
Defined.

(** ** When the zero entries do no harm *)

(** X14.  If the tie-break keys of a population are pairwise distinct and
    no score is negative (and, for livestreams, no id is negative), the
    ranks the pipeline computes for the entities of the population are a
    rearrangement of [1..n]: every rank of that range is given exactly
    once. *)
Theorem X14_ranks_are_a_permutation :
  (∀ (users : list UserModel) (scoreMap : gmap Z Z),
     NoDup (um_Name <$> users) →
     (∀ u, u ∈ users → 0 ≤ score_of scoreMap (um_ID u)) →
     (λ u, compute_rank um_ID um_Name users scoreMap (um_Name u)) <$> users
     ≡ₚ Z.of_nat <$> seq 1 (length users))
  ∧ (∀ (livestreams : list LivestreamModel) (scoreMap : gmap Z Z),
       NoDup (lm_ID <$> livestreams) →
       (∀ l, l ∈ livestreams → 0 ≤ lm_ID l ∧ 0 ≤ score_of scoreMap (lm_ID l)) →
       (λ l, compute_rank lm_ID lm_ID livestreams scoreMap (lm_ID l)) <$> livestreams
       ≡ₚ Z.of_nat <$> seq 1 (length livestreams)).
Proof.
  split.
  - intros users scoreMap Hnd Hscore. apply compute_rank_permutation; [done|].
    intros u Hu. apply user_entry_not_below_zero. by apply Hscore.
  - intros livestreams scoreMap Hnd Hscore. apply compute_rank_permutation; [done|].
    intros l Hl. destruct (Hscore l Hl). by apply livestream_entry_not_below_zero.
Qed.

(** X14, instantiated at the example population. *)
Lemma X14_ranks_are_a_permutation_witness :
  (λ u, compute_rank um_ID um_Name example_users
          (aggregate_scores example_reactionCounts example_totalTips) (um_Name u))
    <$> example_users
  ≡ₚ Z.of_nat <$> seq 1 (length example_users).
Proof.
  refine (proj1 X14_ranks_are_a_permutation example_users
            (aggregate_scores example_reactionCounts example_totalTips) _ _).
  - decide_closed.
  - intros u Hu. apply list_elem_of_In in Hu. simpl in Hu.
    destruct Hu as [<-|[<-|[<-|[]]]]; vm_compute; discriminate.
Defined.

(** X15.  With pairwise distinct keys, an entity that scores strictly more
    than another gets the strictly smaller rank, provided the lower-scored
    entity cannot be mistaken for a zero entry: its username is not empty or
    its score is not negative (for a livestream: its id is not 0, or its
    score and id are not negative). *)
Theorem X15_higher_score_smaller_rank :
  (∀ (users : list UserModel) (scoreMap : gmap Z Z) (a b : UserModel),
     NoDup (um_Name <$> users) → a ∈ users → b ∈ users →
     score_of scoreMap (um_ID b) < score_of scoreMap (um_ID a) →
     um_Name b ≠ EmptyString ∨ 0 ≤ score_of scoreMap (um_ID b) →
     compute_rank um_ID um_Name users scoreMap (um_Name a)
     < compute_rank um_ID um_Name users scoreMap (um_Name b))
  ∧ (∀ (livestreams : list LivestreamModel) (scoreMap : gmap Z Z)
       (a b : LivestreamModel),
       NoDup (lm_ID <$> livestreams) → a ∈ livestreams → b ∈ livestreams →
       score_of scoreMap (lm_ID b) < score_of scoreMap (lm_ID a) →
       lm_ID b ≠ 0 ∨ (0 ≤ lm_ID b ∧ 0 ≤ score_of scoreMap (lm_ID b)) →
       compute_rank lm_ID lm_ID livestreams scoreMap (lm_ID a)
       < compute_rank lm_ID lm_ID livestreams scoreMap (lm_ID b)).
Proof.
  split.
  - intros users scoreMap a b Hnd Ha Hb Hlt Hsafe.
    apply compute_rank_monotone; [done..|].
    destruct Hsafe as [Hname|Hscore]; [by left|right].
    by apply user_entry_not_below_zero.
  - intros livestreams scoreMap a b Hnd Ha Hb Hlt Hsafe.
    apply compute_rank_monotone; [done..|].
    destruct Hsafe as [Hid|[Hid Hscore]]; [by left|right].
    by apply livestream_entry_not_below_zero.
Qed.

(** X15, instantiated: the users of [db_negative_tip] extended by "b", where
    "a" scores -5 and "b" scores 0. *)
Lemma X15_higher_score_smaller_rank_witness :
  compute_rank um_ID um_Name [mkUser 1 "a"; mkUser 2 "b"]
    (aggregate_scores [] [mkTotalTip 1 (-5)]) "b"%string
  < compute_rank um_ID um_Name [mkUser 1 "a"; mkUser 2 "b"]
      (aggregate_scores [] [mkTotalTip 1 (-5)]) "a"%string.
Proof.
  refine (proj1 X15_higher_score_smaller_rank [mkUser 1 "a"; mkUser 2 "b"]
            (aggregate_scores [] [mkTotalTip 1 (-5)])
            (mkUser 2 "b") (mkUser 1 "a") _ _ _ _ _).
  - decide_closed.
  - set_solver.
  - set_solver.
  - vm_compute. reflexivity.
  - left. discriminate.
Defined.
